(** * Tug-War: match state machine, rope resolution loop and settlement trigger

    A shallow embedding of the TypeScript client:
    - [Game]              the React component that owns the 50 ms game loop
                          and the settlement trigger (components/Game.tsx),
    - [Home]              joining, readiness and the start countdown
                          (pages/Home.tsx),
    - [GameScene]         the Phaser scene: input handler, game timer, win
                          screen (game/scenes/GameScene.ts),
    - [BlockchainService] the settlement client (services/BlockchainService.ts),
    - [HomeReady]         readiness after a stake, the start button and the
                          connect handler (pages/Home.tsx),
    - [SceneInput], [SceneTimer]
                          the scene's key handler with its cooldown, its
                          state updates and its timer (game/scenes/GameScene.ts),
    and of the Solidity contract the client settles on:
    - [TugOfWarAutoReward], [Ledger]
                          staking, settlement and refunds
                          (contracts/TugOfWarAutoReward.sol).
    [Match] states a match as a sequence of pulls, [StartRun] the clicks of
    the start button and the runs of its intervals.

    JavaScript numbers are modelled by rationals [Q]: every quantity the
    game computes is an integer or a multiple of one half, far below 2^53,
    so the arithmetic of the source is exact on them.  Timestamps
    ([Date.now()]) are integers [Z] in milliseconds. *)

From Stdlib Require Import ZArith QArith Qminmax Lqa Lia Bool Ascii String.
From stdpp Require Import base gmap strings list.

Local Open Scope Z_scope.

(** ** JavaScript helpers *)

Module Js.

(** [String.prototype.toLowerCase] on the ASCII range (wallet addresses
    are hexadecimal strings). *)
Definition lowerAscii (c : ascii) : ascii :=
  let n := nat_of_ascii c in
  if (Nat.leb 65 n && Nat.leb n 90)%bool then ascii_of_nat (n + 32) else c.

Fixpoint toLowerCase (s : string) : string :=
  match s with
  | EmptyString => EmptyString
  | String c r => String (lowerAscii c) (toLowerCase r)
  end.

(** [a.toLowerCase() === b.toLowerCase()] *)
Definition sameAddress (a b : string) : bool :=
  String.eqb (toLowerCase a) (toLowerCase b).

(** A plain object used as a record of string keys: the entries in
    insertion order, every key once. *)
Section Object.
Context {V : Type}.

(** [{ ...o, [k]: v }]: an existing key keeps its place, a new key goes
    last. *)
Fixpoint assign (o : list (string * V)) (k : string) (v : V)
  : list (string * V) :=
  match o with
  | [] => [(k, v)]
  | (k', v') :: r =>
      if String.eqb k' k then (k, v) :: r else (k', v') :: assign r k v
  end.

(** [o[k]] *)
Fixpoint get (o : list (string * V)) (k : string) : option V :=
  match o with
  | [] => None
  | (k', v') :: r => if String.eqb k' k then Some v' else get r k
  end.

(** [Object.entries(o).find(p)] *)
Definition findEntry (p : string * V -> bool) (o : list (string * V))
  : option (string * V) := List.find p o.

(** [Object.values(o).some(p)] *)
Definition someValue (p : V -> bool) (o : list (string * V)) : bool :=
  existsb (fun e => p (snd e)) o.

(** [Object.values(o).every(p)] *)
Definition everyValue (p : V -> bool) (o : list (string * V)) : bool :=
  forallb (fun e => p (snd e)) o.
End Object.

(** Truthiness of an optional boolean ([undefined] is falsy). *)
Definition truthy (b : option bool) : bool :=
  match b with Some true => true | _ => false end.

End Js.

(** ** The shared match state *)

Inductive Role := player1 | player2.

Definition Role_eqb (a b : Role) : bool :=
  match a, b with
  | player1, player1 | player2, player2 => true
  | _, _ => false
  end.

Record Player := mkPlayer { role : Role; isReady : bool }.

(** [interface GameState] (the union of the fields the components declare). *)
Record GameState := mkGameState {
  players : list (string * Player);
  roomId : option string;
  isStarted : bool;
  ropePosition : Q;
  player1Pulling : bool;
  player2Pulling : bool;
  winner : option Role;
  gameFinishedOnBlockchain : option bool;
  showStartButton : option bool;
  countdown : option Z;
  isCountingDown : option bool
}.

(** [Partial<GameState>] as the scene sends it to its update callback: a
    field is [None] when the key is absent from the object literal. *)
Record Partial := mkPartial {
  u_isStarted : option bool;
  u_ropePosition : option Q;
  u_player1Pulling : option bool;
  u_player2Pulling : option bool;
  u_winner : option (option Role);
  u_countdown : option (option Z);
  u_isCountingDown : option (option bool)
}.

Definition orElse {A} (o : option A) (d : A) : A :=
  match o with Some x => x | None => d end.

(** Truthiness of a nullable value. *)
Definition isSome {A} (o : option A) : bool :=
  match o with Some _ => true | None => false end.

(** [{ ...prev, ...updates }], the callback [Game] hands to the scene. *)
Definition merge (prev : GameState) (updates : Partial) : GameState :=
  {| players := players prev;
     roomId := roomId prev;
     isStarted := orElse (u_isStarted updates) (isStarted prev);
     ropePosition := orElse (u_ropePosition updates) (ropePosition prev);
     player1Pulling := orElse (u_player1Pulling updates) (player1Pulling prev);
     player2Pulling := orElse (u_player2Pulling updates) (player2Pulling prev);
     winner := orElse (u_winner updates) (winner prev);
     gameFinishedOnBlockchain := gameFinishedOnBlockchain prev;
     showStartButton := showStartButton prev;
     countdown := orElse (u_countdown updates) (countdown prev);
     isCountingDown := orElse (u_isCountingDown updates) (isCountingDown prev) |}.

(** The default value both [Home] and [BlockchainService] give the state of
    a room. *)
Definition initialState (room : option string) : GameState :=
  {| players := [];
     roomId := room;
     isStarted := false;
     ropePosition := 600%Q;
     player1Pulling := false;
     player2Pulling := false;
     winner := None;
     gameFinishedOnBlockchain := None;
     showStartButton := None;
     countdown := None;
     isCountingDown := None |}.

(** ** services/BlockchainService.ts: the settlement client *)

Module BlockchainService.

(** The fields of the singleton that [finishGame], [stake],
    [getCurrentAddress] and [isReady] read or write.  [signer] is the
    address of the connected account when a signer exists;
    [tugOfWarContract] says whether the contract handle is set. *)
Record Service := mkService {
  isInitialized : bool;
  signer : option string;
  tugOfWarContract : bool;
  finishedGames : gset string
}.

(** What happens to a transaction after [contract.finishGame(...)] is
    called: the provider rejects it, it is mined and reverts (then
    [tx.wait()] throws), or it is confirmed. *)
Inductive TxOutcome := SendRejected | Reverted | Confirmed.

Inductive Error := NotInitialized | TransactionFailed | AlreadyStaked.

(** A settled promise. *)
Inductive Settled (A : Type) :=
| Resolved (a : A)
| Rejected (e : Error).
Arguments Resolved {A} a.
Arguments Rejected {A} e.

(** A call of the contract's [finishGame(roomId, winner)]. *)
Record ContractCall := mkCall { call_roomId : string; call_winner : string }.

Definition isReady (s : Service) : bool := isInitialized s.

Definition getCurrentAddress (s : Service) : Settled string :=
  if negb (isInitialized s) then Rejected NotInitialized
  else match signer s with
       | None => Rejected NotInitialized
       | Some a => Resolved a
       end.

(** [finishGame] up to its first [await]: the initialisation check, the
    [finishedGames] check, and the call of the contract method. *)
Inductive Begun :=
| Threw (e : Error)
| SkippedDuplicate
| Sent (c : ContractCall).

Definition finishGame_begin (s : Service) (room winnerAddress : string) : Begun :=
  if negb (isInitialized s) || negb (tugOfWarContract s) then Threw NotInitialized
  else if bool_decide (room ∈ finishedGames s) then SkippedDuplicate
  else Sent (mkCall room winnerAddress).

(** [this.finishedGames.add(roomId)] *)
Definition addFinished (s : Service) (room : string) : Service :=
  {| isInitialized := isInitialized s;
     signer := signer s;
     tugOfWarContract := tugOfWarContract s;
     finishedGames := finishedGames s ∪ {[ room ]} |}.

(** [finishGame] after the transaction settled: only a confirmed
    transaction reaches [this.finishedGames.add(roomId)]; a failure is
    logged and thrown again. *)
Definition finishGame_settle (s : Service) (room : string) (o : TxOutcome)
  : Service * Settled unit :=
  match o with
  | Confirmed => (addFinished s room, Resolved tt)
  | SendRejected | Reverted => (s, Rejected TransactionFailed)
  end.

(** The whole of [finishGame] with nothing running in between: the new
    service, the result of the promise, the contract calls it made. *)
Definition finishGame (s : Service) (room winnerAddress : string) (o : TxOutcome)
  : Service * Settled unit * list ContractCall :=
  match finishGame_begin s room winnerAddress with
  | Threw e => (s, Rejected e, [])
  | SkippedDuplicate => (s, Resolved tt, [])
  | Sent c =>
      let '(s', r) := finishGame_settle s room o in (s', r, [c])
  end.

(** [stake]: [hasStaked] is the answer of the contract's view function,
    [o] the fate of the staking transaction.  The room leaves
    [finishedGames] before the transaction is sent. *)
Definition stake (s : Service) (room : string) (hasStaked : bool) (o : TxOutcome)
  : Service * Settled unit :=
  if negb (isInitialized s) || negb (tugOfWarContract s) then (s, Rejected NotInitialized)
  else if hasStaked then (s, Rejected AlreadyStaked)
  else
    let s' := {| isInitialized := isInitialized s;
                 signer := signer s;
                 tugOfWarContract := tugOfWarContract s;
                 finishedGames := finishedGames s ∖ {[ room ]} |} in
    match o with
    | Confirmed => (s', Resolved tt)
    | SendRejected | Reverted => (s', Rejected TransactionFailed)
    end.

(** The singleton as [getInstance] first creates it. *)
Definition fresh : Service :=
  {| isInitialized := false; signer := None; tugOfWarContract := false;
     finishedGames := ∅ |}.

(** A successful [initialize] for the account [account]. *)
Definition initialize (s : Service) (account : string) : Service :=
  {| isInitialized := true; signer := Some account; tugOfWarContract := true;
     finishedGames := finishedGames s |}.

(** An [initialize] that throws: [isInitialized] and [finishedGames] are
    not touched; the signer and the contract handle may have been set
    before the exception. *)
Definition initializeFailed (s : Service) (newSigner : option string)
    (contractSet : bool) : Service :=
  {| isInitialized := isInitialized s;
     signer := match newSigner with Some a => Some a | None => signer s end;
     tugOfWarContract := tugOfWarContract s || contractSet;
     finishedGames := finishedGames s |}.

(** The states of the singleton. *)
Inductive Reachable : Service -> Prop :=
| reach_fresh : Reachable fresh
| reach_initialize s account : Reachable s -> Reachable (initialize s account)
| reach_initializeFailed s a c :
    Reachable s -> Reachable (initializeFailed s a c)
| reach_stake s room hasStaked o :
    Reachable s -> Reachable (fst (stake s room hasStaked o))
| reach_finishGame s room winnerAddress o :
    Reachable s -> Reachable (fst (fst (finishGame s room winnerAddress o))).

End BlockchainService.

(** ** components/Game.tsx: the game loop *)

Module Game.

Definition centerX : Q := 600%Q.
Definition maxDistance : Q := 350%Q.
Definition pullForce : Q := 10%Q.
(** [maxDistance * 0.85] *)
Definition winDistance : Q := (maxDistance * 0.85)%Q.

(** The refs of the component that the loop reads and writes. *)
Record Refs := mkRefs {
  lastUpdateRef : Z;
  finishGameCalledRef : bool
}.

(** The mount effect: [ropePosition] back to the centre, latch cleared. *)
Definition mountReset (prev : GameState) : GameState :=
  {| players := players prev;
     roomId := roomId prev;
     isStarted := isStarted prev;
     ropePosition := 600%Q;
     player1Pulling := player1Pulling prev;
     player2Pulling := player2Pulling prev;
     winner := winner prev;
     gameFinishedOnBlockchain := gameFinishedOnBlockchain prev;
     showStartButton := showStartButton prev;
     countdown := countdown prev;
     isCountingDown := isCountingDown prev |}.

Definition mountRefs (r : Refs) : Refs :=
  {| lastUpdateRef := lastUpdateRef r; finishGameCalledRef := false |}.

(** The effect installs the interval only while this holds
    ([if (!gameState.isStarted || gameState.winner) return]). *)
Definition loopRuns (s : GameState) : bool :=
  isStarted s && negb (isSome (winner s)).

(** The movement step: [newRopePosition] and [shouldUpdate] after the two
    [if]s. *)
Definition movement (currentState : GameState) : Q * bool :=
  let newRopePosition := ropePosition currentState in
  let shouldUpdate := false in
  let '(newRopePosition, shouldUpdate) :=
    if player1Pulling currentState && negb (player2Pulling currentState)
    then (Qmax (centerX - maxDistance) (newRopePosition - pullForce), true)
    else (newRopePosition, shouldUpdate) in
  let '(newRopePosition, shouldUpdate) :=
    if negb (player1Pulling currentState) && player2Pulling currentState
    then (Qmin (centerX + maxDistance) (newRopePosition + pullForce), true)
    else (newRopePosition, shouldUpdate) in
  (newRopePosition, shouldUpdate).

(** The position-based win check. *)
Definition winCheck (newRopePosition : Q) : option Role :=
  if Qle_bool newRopePosition (centerX - winDistance) then Some player1
  else if Qle_bool (centerX + winDistance) newRopePosition then Some player2
  else None.

(** [newState] of the functional update passed to [setGameState]. *)
Definition writeBack (newRopePosition : Q) (won : option Role)
    (prevState : GameState) : GameState :=
  {| players := players prevState;
     roomId := roomId prevState;
     isStarted := if isSome won then false else isStarted prevState;
     ropePosition := newRopePosition;
     player1Pulling := false;
     player2Pulling := false;
     winner := if isSome won then won else winner prevState;
     gameFinishedOnBlockchain := gameFinishedOnBlockchain prevState;
     showStartButton := showStartButton prevState;
     countdown := if isSome won then None else countdown prevState;
     isCountingDown := if isSome won then Some false else isCountingDown prevState |}.

(** What the asynchronous settlement block captures when it is started:
    the winner of this tick and the snapshot [currentState]. *)
Record FinishTask := mkFinishTask {
  t_winner : Role;
  t_roomId : string;
  t_players : list (string * Player)
}.

(** The guard in front of the asynchronous block. *)
Definition finishGuard (won : option Role) (currentState prevState : GameState)
    (r : Refs) : option FinishTask :=
  match won, roomId currentState with
  | Some w, Some room =>
      if String.eqb room "" then None
      else if Js.truthy (gameFinishedOnBlockchain prevState) then None
      else if finishGameCalledRef r then None
      else Some (mkFinishTask w room (players currentState))
  | _, _ => None
  end.

Inductive TickKind := Idle | Debounced | Written.

Record TickResult := mkTick {
  kind : TickKind;
  refs : Refs;
  state : GameState;
  started : option FinishTask
}.

(** One run of the interval callback.  [currentState] is
    [currentStateRef.current], [prevState] the state the functional update
    receives, [now] is [Date.now()]. *)
Definition gameLoopTick (now : Z) (r : Refs)
    (currentState : option GameState) (prevState : GameState) : TickResult :=
  match currentState with
  | None => mkTick Idle r prevState None
  | Some currentState =>
      let '(newRopePosition, shouldUpdate) := movement currentState in
      let won := winCheck newRopePosition in
      if shouldUpdate || isSome won then
        if now - lastUpdateRef r <? 50 then mkTick Debounced r prevState None
        else
          mkTick Written
            {| lastUpdateRef := now;
               finishGameCalledRef := finishGameCalledRef r |}
            (writeBack newRopePosition won prevState)
            (finishGuard won currentState prevState r)
      else mkTick Idle r prevState None
  end.

(** *** The settlement block

    The block is an [async] function: it runs up to its first [await] when
    the update function starts it, and continues when the awaited promises
    (the dynamic import, [getCurrentAddress]) have settled. *)

Definition hasRole (r : Role) (e : string * Player) : bool :=
  Role_eqb (role (snd e)) r.

(** The part of the block between [getCurrentAddress] and the [await] of
    [blockchainService.finishGame]: the new refs and, when the call is
    made, its arguments. *)
Definition finishTaskBody (svc : BlockchainService.Service) (r : Refs)
    (t : FinishTask) : Refs * option (string * string) :=
  if BlockchainService.isReady svc then
    match BlockchainService.getCurrentAddress svc with
    | BlockchainService.Rejected _ => (r, None)
    | BlockchainService.Resolved currentPlayerAddress =>
        let player1Data := Js.findEntry (hasRole player1) (t_players t) in
        match player1Data with
        | Some (addr1, _) =>
            if Js.sameAddress addr1 currentPlayerAddress then
              match Js.findEntry (hasRole (t_winner t)) (t_players t) with
              | Some (winnerAddress, _) =>
                  ({| lastUpdateRef := lastUpdateRef r;
                      finishGameCalledRef := true |},
                   Some (t_roomId t, winnerAddress))
              | None => (r, None)
              end
            else (r, None)
        | None => (r, None)
        end
    end
  else (r, None).

(** [setGameState(prev => ({ ...prev, gameFinishedOnBlockchain: true }))] *)
Definition markFinished (prev : GameState) : GameState :=
  {| players := players prev;
     roomId := roomId prev;
     isStarted := isStarted prev;
     ropePosition := ropePosition prev;
     player1Pulling := player1Pulling prev;
     player2Pulling := player2Pulling prev;
     winner := winner prev;
     gameFinishedOnBlockchain := Some true;
     showStartButton := showStartButton prev;
     countdown := countdown prev;
     isCountingDown := isCountingDown prev |}.

(** *** One participant's process

    The component's refs, its settlement client, the settlement blocks
    that were started and wait at an [await], the transactions that were
    sent and have not settled, and the shared state as this process sees
    it. *)
Record Client := mkClient {
  c_refs : Refs;
  c_service : BlockchainService.Service;
  c_waiting : list FinishTask;
  c_inflight : list BlockchainService.ContractCall;
  c_state : GameState
}.

(** What the event loop of the process runs, one callback at a time. *)
Inductive Event :=
| Tick (now : Z) (currentState : option GameState)
    (** the interval fires with this [currentStateRef.current] *)
| Resume
    (** the oldest waiting settlement block continues after its awaits *)
| Settle (o : BlockchainService.TxOutcome)
    (** the oldest transaction in flight settles *)
| Receive (s : GameState)
    (** the shared store delivers a state *).

(** One callback: the process afterwards and the contract calls it made. *)
Definition step (e : Event) (c : Client)
  : Client * list BlockchainService.ContractCall :=
  match e with
  | Tick now currentState =>
      let t := gameLoopTick now (c_refs c) currentState (c_state c) in
      (mkClient (refs t) (c_service c)
         (c_waiting c ++ match started t with Some k => [k] | None => [] end)
         (c_inflight c) (state t), [])
  | Resume =>
      match c_waiting c with
      | [] => (c, [])
      | t :: rest =>
          let '(r', call) := finishTaskBody (c_service c) (c_refs c) t in
          match call with
          | None => (mkClient r' (c_service c) rest (c_inflight c) (c_state c), [])
          | Some (room, winnerAddress) =>
              match BlockchainService.finishGame_begin (c_service c) room winnerAddress with
              | BlockchainService.Sent k =>
                  (mkClient r' (c_service c) rest (c_inflight c ++ [k]) (c_state c), [k])
              | BlockchainService.SkippedDuplicate =>
                  (mkClient r' (c_service c) rest (c_inflight c) (markFinished (c_state c)), [])
              | BlockchainService.Threw _ =>
                  (mkClient r' (c_service c) rest (c_inflight c) (c_state c), [])
              end
          end
      end
  | Settle o =>
      match c_inflight c with
      | [] => (c, [])
      | k :: rest =>
          let '(svc', res) :=
            BlockchainService.finishGame_settle (c_service c)
              (BlockchainService.call_roomId k) o in
          match res with
          | BlockchainService.Resolved _ =>
              (mkClient (c_refs c) svc' (c_waiting c) rest (markFinished (c_state c)), [])
          | BlockchainService.Rejected _ =>
              (mkClient (c_refs c) svc' (c_waiting c) rest (c_state c), [])
          end
      end
  | Receive s => (mkClient (c_refs c) (c_service c) (c_waiting c) (c_inflight c) s, [])
  end.

(** A run of callbacks, with all the contract calls in order. *)
Fixpoint run (es : list Event) (c : Client)
  : Client * list BlockchainService.ContractCall :=
  match es with
  | [] => (c, [])
  | e :: es' =>
      let '(c1, calls1) := step e c in
      let '(c2, calls2) := run es' c1 in
      (c2, calls1 ++ calls2)
  end.

(** [me] is not the address of the first player1 entry of [ps]. *)
Definition notCreator (me : string) (ps : list (string * Player)) : Prop :=
  match Js.findEntry (hasRole player1) ps with
  | Some (a1, _) => Js.sameAddress a1 me = false
  | None => True
  end.

(** The snapshot an event hands to the process of [me] names another
    address as player1. *)
Definition observes (me : string) (e : Event) : Prop :=
  match e with
  | Tick _ (Some currentState) => notCreator me (players currentState)
  | _ => True
  end.

(** A schedule in which every settlement block continues right after the
    tick that may have started it, before the interval fires again. *)
Inductive PromptEvent :=
| PTick (now : Z) (currentState : option GameState)
| PSettle (o : BlockchainService.TxOutcome)
| PReceive (s : GameState).

Definition prompt (e : PromptEvent) : list Event :=
  match e with
  | PTick now currentState => [Tick now currentState; Resume]
  | PSettle o => [Settle o]
  | PReceive s => [Receive s]
  end.

Definition promptSchedule (es : list PromptEvent) : list Event :=
  concat (map prompt es).

End Game.

(** ** pages/Home.tsx: joining and the start countdown *)

Module Home.

(** A toast or redirect the component asks for. *)
Inductive Effect :=
| SetError (message : string)
| NavigateAfter (delay : Z) (path : string).

Inductive JoinDecision :=
| NotConnected
| AlreadyInGame
| JoinAs (r : Role)
| RoomFull.

(** The branch [handlePlayerJoin] takes, decided on the rendered state
    [safeGameState]. *)
Definition decideJoin (currentAddress : option string) (signer : bool)
    (safeGameState : GameState) : JoinDecision :=
  match currentAddress with
  | None => NotConnected
  | Some currentAddress =>
      if String.eqb currentAddress "" || negb signer then NotConnected
      else
        let playerData :=
          Js.findEntry (fun e => Js.sameAddress (fst e) currentAddress)
            (players safeGameState) in
        if isSome playerData then AlreadyInGame
        else
          let hasPlayers := (0 <? Z.of_nat (length (players safeGameState))) in
          if negb hasPlayers then JoinAs player1
          else
            let hasPlayer2 :=
              Js.someValue (fun p => Role_eqb (role p) player2)
                (players safeGameState) in
            if negb hasPlayer2 then JoinAs player2 else RoomFull
  end.

(** The functional update of the first joiner. *)
Definition joinAsPlayer1 (currentAddress : string) (room : option string)
    (prevState : GameState) : GameState :=
  {| players := Js.assign (players prevState) currentAddress (mkPlayer player1 false);
     roomId := room;
     isStarted := isStarted prevState;
     ropePosition := ropePosition prevState;
     player1Pulling := player1Pulling prevState;
     player2Pulling := player2Pulling prevState;
     winner := winner prevState;
     gameFinishedOnBlockchain := Some false;
     showStartButton := Some false;
     countdown := None;
     isCountingDown := Some false |}.

(** The functional update of the second joiner. *)
Definition joinAsPlayer2 (currentAddress : string) (prevState : GameState)
  : GameState :=
  {| players := Js.assign (players prevState) currentAddress (mkPlayer player2 false);
     roomId := roomId prevState;
     isStarted := isStarted prevState;
     ropePosition := ropePosition prevState;
     player1Pulling := player1Pulling prevState;
     player2Pulling := player2Pulling prevState;
     winner := winner prevState;
     gameFinishedOnBlockchain := Some false;
     showStartButton := Some false;
     countdown := None;
     isCountingDown := Some false |}.

(** [handlePlayerJoin]: the state after it and the effects it asks for.
    [room] is the route parameter ([roomId || null]). *)
Definition handlePlayerJoin (room : option string)
    (currentAddress : option string) (signer : bool)
    (safeGameState prevState : GameState) : GameState * list Effect :=
  match decideJoin currentAddress signer safeGameState, currentAddress with
  | JoinAs player1, Some a => (joinAsPlayer1 a room prevState, [])
  | JoinAs player2, Some a => (joinAsPlayer2 a prevState, [])
  | RoomFull, _ => (prevState, [SetError "Room is full"; NavigateAfter 2000 "/"])
  | _, _ => (prevState, [])
  end.

(** A join request of a connected wallet against the current state. *)
Definition join (room : option string) (address : string) (s : GameState)
  : GameState :=
  fst (handlePlayerJoin room (Some address) true s s).

(** [handleStartGame], the click: its first functional update (the interval
    it then installs is [countdownTick]). *)
Definition handleStartGame (prevState : GameState) : GameState :=
  {| players := players prevState;
     roomId := roomId prevState;
     isStarted := false;
     ropePosition := ropePosition prevState;
     player1Pulling := player1Pulling prevState;
     player2Pulling := player2Pulling prevState;
     winner := winner prevState;
     gameFinishedOnBlockchain := gameFinishedOnBlockchain prevState;
     showStartButton := Some false;
     countdown := Some 3;
     isCountingDown := Some true |}.

(** [prevState.countdown || 3] *)
Definition countdownOr3 (c : option Z) : Z :=
  match c with
  | None => 3
  | Some n => if n =? 0 then 3 else n
  end.

(** One run of the 1-second interval of [handleStartGame]: the state the
    functional update returns, and whether it cleared the interval. *)
Definition countdownTick (prevState : GameState) : GameState * bool :=
  let newCountdown := countdownOr3 (countdown prevState) - 1 in
  if newCountdown <=? 0 then
    ({| players := players prevState;
        roomId := roomId prevState;
        isStarted := true;
        ropePosition := ropePosition prevState;
        player1Pulling := player1Pulling prevState;
        player2Pulling := player2Pulling prevState;
        winner := winner prevState;
        gameFinishedOnBlockchain := gameFinishedOnBlockchain prevState;
        showStartButton := showStartButton prevState;
        countdown := None;
        isCountingDown := Some false |}, true)
  else
    ({| players := players prevState;
        roomId := roomId prevState;
        isStarted := isStarted prevState;
        ropePosition := ropePosition prevState;
        player1Pulling := player1Pulling prevState;
        player2Pulling := player2Pulling prevState;
        winner := winner prevState;
        gameFinishedOnBlockchain := gameFinishedOnBlockchain prevState;
        showStartButton := showStartButton prevState;
        countdown := Some newCountdown;
        isCountingDown := isCountingDown prevState |}, false).

(** The interval runs until a tick clears it; [n] ticks of it. *)
Fixpoint countdownTicks (n : nat) (s : GameState) : GameState :=
  match n with
  | O => s
  | S n' =>
      let '(s', cleared) := countdownTick s in
      if cleared then s' else countdownTicks n' s'
  end.

End Home.

(** ** game/scenes/GameScene.ts: input, game timer, win screen *)

Module GameScene.

(** The fields of the scene that the three handlers read or write.
    [updateCallback] says whether the callback is set, [rope] is [rope.x]
    when the sprite exists, [timerEvent] whether the timer event exists. *)
Record Scene := mkScene {
  playerRole : option Role;
  currentPlayer1Pulling : bool;
  currentPlayer2Pulling : bool;
  lastStateUpdateTime : Z;
  updateCallback : bool;
  rope : option Q;
  gameTimeRemaining : Z;
  timerEvent : bool
}.

Definition STATE_UPDATE_THROTTLE : Z := 50.
Definition GAME_DURATION : Z := 60.
Definition ROPE_BOUNDS_MARGIN : Q := 50%Q.

Definition isRole (r : Role) (o : option Role) : bool :=
  match o with Some r' => Role_eqb r' r | None => false end.

Definition noUpdate : Partial :=
  {| u_isStarted := None; u_ropePosition := None; u_player1Pulling := None;
     u_player2Pulling := None; u_winner := None; u_countdown := None;
     u_isCountingDown := None |}.

(** [handlePull]: the scene afterwards and the object passed to the update
    callback, if it is called. *)
Definition handlePull (now : Z) (sc : Scene) : Scene * option Partial :=
  if now - lastStateUpdateTime sc <? STATE_UPDATE_THROTTLE then (sc, None)
  else if isRole player1 (playerRole sc) && currentPlayer1Pulling sc then (sc, None)
  else if isRole player2 (playerRole sc) && currentPlayer2Pulling sc then (sc, None)
  else
    let c1 := if isRole player1 (playerRole sc) then true
              else currentPlayer1Pulling sc in
    let c2 := if isRole player1 (playerRole sc) then currentPlayer2Pulling sc
              else if isRole player2 (playerRole sc) then true
              else currentPlayer2Pulling sc in
    ({| playerRole := playerRole sc;
        currentPlayer1Pulling := false;
        currentPlayer2Pulling := false;
        lastStateUpdateTime := now;
        updateCallback := updateCallback sc;
        rope := rope sc;
        gameTimeRemaining := gameTimeRemaining sc;
        timerEvent := timerEvent sc |},
     if updateCallback sc then
       Some {| u_isStarted := None; u_ropePosition := None;
               u_player1Pulling := Some c1; u_player2Pulling := Some c2;
               u_winner := None; u_countdown := None;
               u_isCountingDown := None |}
     else None).

(** [clampRopePosition] *)
Definition clampRopePosition (centerX position : Q) : Q :=
  Qmax (centerX - 350 + ROPE_BOUNDS_MARGIN)
       (Qmin (centerX + 350 - ROPE_BOUNDS_MARGIN) position).

(** The winner [handleTimeUp] picks. *)
Definition timeUpWinner (centerX : Q) (sc : Scene) : Role :=
  let ropePosition := orElse (rope sc) centerX in
  let distanceFromCenter := (ropePosition - centerX)%Q in
  if Qle_bool distanceFromCenter 0 then player1 else player2.

(** [handleTimeUp]; [centerX] is [this.cameras.main.centerX]. *)
Definition handleTimeUp (centerX : Q) (sc : Scene) : Scene * option Partial :=
  let won := timeUpWinner centerX sc in
  ({| playerRole := playerRole sc;
      currentPlayer1Pulling := currentPlayer1Pulling sc;
      currentPlayer2Pulling := currentPlayer2Pulling sc;
      lastStateUpdateTime := lastStateUpdateTime sc;
      updateCallback := updateCallback sc;
      rope := rope sc;
      gameTimeRemaining := gameTimeRemaining sc;
      timerEvent := false |},
   if updateCallback sc then
     Some {| u_isStarted := Some false; u_ropePosition := None;
             u_player1Pulling := Some false; u_player2Pulling := Some false;
             u_winner := Some (Some won); u_countdown := Some None;
             u_isCountingDown := Some (Some false) |}
   else None).

(** [startGameTimer] *)
Definition startGameTimer (sc : Scene) : Scene :=
  {| playerRole := playerRole sc;
     currentPlayer1Pulling := currentPlayer1Pulling sc;
     currentPlayer2Pulling := currentPlayer2Pulling sc;
     lastStateUpdateTime := lastStateUpdateTime sc;
     updateCallback := updateCallback sc;
     rope := rope sc;
     gameTimeRemaining := GAME_DURATION;
     timerEvent := true |}.

(** [updateTimer], the callback of the 1-second timer event. *)
Definition updateTimer (centerX : Q) (sc : Scene) : Scene * option Partial :=
  let sc1 :=
    {| playerRole := playerRole sc;
       currentPlayer1Pulling := currentPlayer1Pulling sc;
       currentPlayer2Pulling := currentPlayer2Pulling sc;
       lastStateUpdateTime := lastStateUpdateTime sc;
       updateCallback := updateCallback sc;
       rope := rope sc;
       gameTimeRemaining := gameTimeRemaining sc - 1;
       timerEvent := timerEvent sc |} in
  if gameTimeRemaining sc1 <=? 0 then handleTimeUp centerX sc1 else (sc1, None).

(** The timer event loops until it is destroyed: [n] seconds of it, with
    the update of the last callback that sent one. *)
Fixpoint seconds (n : nat) (centerX : Q) (sc : Scene) : Scene * option Partial :=
  match n with
  | O => (sc, None)
  | S n' =>
      if timerEvent sc then
        let '(sc1, u1) := updateTimer centerX sc in
        let '(sc2, u2) := seconds n' centerX sc1 in
        (sc2, match u2 with Some _ => u2 | None => u1 end)
      else (sc, None)
  end.

(** The state part of [handleWin]: the final rope position and the object
    passed to the update callback. *)
Definition handleWin (won : Role) (sc : Scene) : Scene * option Partial :=
  if negb (updateCallback sc) || negb (isSome (rope sc)) then (sc, None)
  else
    let finalRopePosition := match won with player1 => 300%Q | player2 => 900%Q end in
    ({| playerRole := playerRole sc;
        currentPlayer1Pulling := currentPlayer1Pulling sc;
        currentPlayer2Pulling := currentPlayer2Pulling sc;
        lastStateUpdateTime := lastStateUpdateTime sc;
        updateCallback := updateCallback sc;
        rope := Some finalRopePosition;
        gameTimeRemaining := GAME_DURATION;
        timerEvent := false |},
     Some {| u_isStarted := Some false; u_ropePosition := Some finalRopePosition;
             u_player1Pulling := Some false; u_player2Pulling := Some false;
             u_winner := Some (Some won); u_countdown := Some None;
             u_isCountingDown := Some (Some false) |}).

End GameScene.

(** ** Reachable match states *)

(** The rope stays within [centerX - maxDistance, centerX + maxDistance]. *)
Definition inBounds (q : Q) : Prop :=
  (Game.centerX - Game.maxDistance <= q /\ q <= Game.centerX + Game.maxDistance)%Q.

(** [position] clamped to the rope interval. *)
Definition clampToBounds (position : Q) : Q :=
  Qmax (Game.centerX - Game.maxDistance)
       (Qmin (Game.centerX + Game.maxDistance) position).

(** An update that sets pulling flags and nothing else: it writes no
    pulling flag to false, no rope position and no winner. *)
Definition onlySetsPulling (u : Partial) : Prop :=
  u_player1Pulling u <> Some false /\ u_player2Pulling u <> Some false
  /\ u_ropePosition u = None /\ u_winner u = None.

(** An object one of the scene's handlers passes to the update callback. *)
Inductive SceneUpdate : Partial -> Prop :=
| su_pull now sc u :
    snd (GameScene.handlePull now sc) = Some u -> SceneUpdate u
| su_timeUp centerX sc u :
    snd (GameScene.handleTimeUp centerX sc) = Some u -> SceneUpdate u
| su_win won sc u :
    snd (GameScene.handleWin won sc) = Some u -> SceneUpdate u.

(** [Home]'s readiness bookkeeping ([handleStakeSuccess] and the start
    button effect) replaces [players] and [showStartButton] only. *)
Definition lobbyUpdate (ps : list (string * Player)) (b : option bool)
    (prev : GameState) : GameState :=
  {| players := ps;
     roomId := roomId prev;
     isStarted := isStarted prev;
     ropePosition := ropePosition prev;
     player1Pulling := player1Pulling prev;
     player2Pulling := player2Pulling prev;
     winner := winner prev;
     gameFinishedOnBlockchain := gameFinishedOnBlockchain prev;
     showStartButton := b;
     countdown := countdown prev;
     isCountingDown := isCountingDown prev |}.

(** The states of a room that the writers of the shared state produce, from
    the default state on.  A writer may decide on a snapshot ([cur]) that is
    older than the state its functional update receives ([prev]). *)
Inductive Reachable : GameState -> Prop :=
| r_init room : Reachable (initialState room)
| r_mount s : Reachable s -> Reachable (Game.mountReset s)
| r_join room address signer cur prev :
    Reachable cur -> Reachable prev ->
    Reachable (fst (Home.handlePlayerJoin room address signer cur prev))
| r_lobby ps b s : Reachable s -> Reachable (lobbyUpdate ps b s)
| r_start s : Reachable s -> Reachable (Home.handleStartGame s)
| r_countdown s : Reachable s -> Reachable (fst (Home.countdownTick s))
| r_scene u s : SceneUpdate u -> Reachable s -> Reachable (merge s u)
| r_tick now r cur prev :
    Reachable cur -> Reachable prev ->
    Reachable (Game.state (Game.gameLoopTick now r (Some cur) prev))
| r_finished s : Reachable s -> Reachable (Game.markFinished s).

(** ** Join requests *)

(** Whether some player of the room holds role [r]. *)
Definition taken (r : Role) (s : GameState) : bool :=
  Js.someValue (fun p => Role_eqb (role p) r) (players s).

(** Whether [address] is among the players, compared as [Home] compares
    addresses (case-insensitively). *)
Definition present (address : string) (s : GameState) : bool :=
  isSome (Js.findEntry (fun e => Js.sameAddress (fst e) address) (players s)).

(** A sequence of join requests of connected wallets, each decided on the
    state the previous one left. *)
Definition joins (room : option string) (addresses : list string)
    (s : GameState) : GameState :=
  fold_left (fun st a => Home.join room a st) addresses s.

(** The player lists a room goes through while it fills up. *)
Inductive LobbyShape : list (string * Player) -> Prop :=
| shape_empty : LobbyShape []
| shape_one a : LobbyShape [(a, mkPlayer player1 false)]
| shape_two a b :
    Js.sameAddress a b = false ->
    LobbyShape [(a, mkPlayer player1 false); (b, mkPlayer player2 false)].

(** ** A match, for the scenarios of the specification *)

Module Scenario.

Definition alice : string := "0xA11CE00000000000000000000000000000000001".
Definition bob : string := "0xB0B0000000000000000000000000000000000002".
Definition carol : string := "0xCA40100000000000000000000000000000000003".
Definition room : string := "room-1".

(** Alice, then Bob, join the room. *)
Definition lobby : GameState :=
  Home.join (Some room) bob
    (Home.join (Some room) alice (initialState (Some room))).

(** Both have staked; the start button shows for Alice. *)
Definition ready : GameState :=
  lobbyUpdate [(alice, mkPlayer player1 true); (bob, mkPlayer player2 true)]
    (Some true) lobby.

(** Alice clicked start and the countdown ran out. *)
Definition playing : GameState :=
  Home.countdownTicks 3 (Home.handleStartGame ready).

(** The scene of the participant with role [r], in sync with [s]
    ([updateGameState] copies the pulling flags and the rope position). *)
Definition sceneFor (r : Role) (s : GameState) : GameScene.Scene :=
  {| GameScene.playerRole := Some r;
     GameScene.currentPlayer1Pulling := player1Pulling s;
     GameScene.currentPlayer2Pulling := player2Pulling s;
     GameScene.lastStateUpdateTime := 0;
     GameScene.updateCallback := true;
     GameScene.rope := Some (GameScene.clampRopePosition 600 (ropePosition s));
     GameScene.gameTimeRemaining := 60;
     GameScene.timerEvent := true |}.

(** The participant with role [r], whose scene is in sync with [s],
    presses the key at time [now]. *)
Definition press (r : Role) (now : Z) (s : GameState) : GameState :=
  match snd (GameScene.handlePull now (sceneFor r s)) with
  | Some u => merge s u
  | None => s
  end.

(** A resolved pull: the key press, and the tick that consumes it (no
    write-back in the 50 ms before). *)
Definition resolvedPull (r : Role) (now : Z) (s : GameState) : GameState :=
  let s1 := press r now s in
  Game.state (Game.gameLoopTick now (Game.mkRefs (now - 50) false) (Some s1) s1).

(** [n] resolved pulls of the same participant, 50 ms apart. *)
Fixpoint resolvedPulls (r : Role) (n : nat) (now : Z) (s : GameState)
  : GameState :=
  match n with
  | O => s
  | S n' => resolvedPulls r n' (now + 50) (resolvedPull r now s)
  end.

(** The room after a match that player1 won by thirty pulls: the tick
    declared the winner and the win screen put the rope at 300. *)
Definition finished : GameState :=
  let s := resolvedPulls player1 30 1000 playing in
  match snd (GameScene.handleWin player1 (sceneFor player1 s)) with
  | Some u => merge s u
  | None => s
  end.

(** Match point: the rope at 310 after 29 pulls, and player1 has pressed
    the key again. *)
Definition matchPoint : GameState :=
  press player1 2450 (resolvedPulls player1 29 1000 playing).

(** Alice's process when the match is being played. *)
Definition aliceClient (s : GameState) : Game.Client :=
  {| Game.c_refs := Game.mkRefs 0 false;
     Game.c_service := BlockchainService.initialize BlockchainService.fresh alice;
     Game.c_waiting := [];
     Game.c_inflight := [];
     Game.c_state := s |}.

(** Bob's process. *)
Definition bobClient (s : GameState) : Game.Client :=
  {| Game.c_refs := Game.mkRefs 0 false;
     Game.c_service := BlockchainService.initialize BlockchainService.fresh bob;
     Game.c_waiting := [];
     Game.c_inflight := [];
     Game.c_state := s |}.

End Scenario.

(** ** contracts/TugOfWarAutoReward.sol: the contract the settlement client calls *)

Module TugOfWarAutoReward.

(** An [address] is a 160-bit number; 0 is [address(0)]. *)
Definition address := N.

(** [0.01 ether], in wei. *)
Definition STAKE_AMOUNT : N := 10000000000000000%N.

(** The largest [uint256]. *)
Definition MAX_UINT256 : N := (2 ^ 256 - 1)%N.

(** [struct Room] *)
Record Room := mkRoom {
  player1 : address;
  player2 : address;
  totalStake : N;
  isActive : bool;
  gameFinished : bool;
  winner : address
}.

(** The value of an unset entry of [mapping(string => Room)]. *)
Definition noRoom : Room := mkRoom 0%N 0%N 0%N false false 0%N.

(** [rooms[roomId]] *)
Definition room (rooms : gmap string Room) (roomId : string) : Room :=
  default noRoom (rooms !! roomId).

Inductive Log :=
| PlayerStaked (roomId : string) (player : address) (stakeAmount : N)
| GameFinished (roomId : string) (winner : address) (prize : N)
| StakeReturned (roomId : string) (player : address) (amount : N).

(** What a transaction does: it reverts with a reason and changes nothing,
    or it succeeds with the new storage, the event it emits and the
    transfer it makes (recipient and amount). *)
Inductive Receipt :=
| Revert (reason : string)
| Success (rooms : gmap string Room) (log : Log) (transfer : option (address * N)).

(** [stake(roomId)] sent by [sender] with [msg.value = value]. *)
Definition stake (rooms : gmap string Room) (sender : address) (value : N)
    (roomId : string) : Receipt :=
  if negb (value =? STAKE_AMOUNT)%N then Revert "Invalid stake amount"
  else
    let r := room rooms roomId in
    if (sender =? player1 r)%N || (sender =? player2 r)%N
    then Revert "Already staked in this room"
    else
      let seated :=
        if (player1 r =? 0)%N
        then Some (mkRoom sender (player2 r) (totalStake r) (isActive r)
                     (gameFinished r) (winner r))
        else if (player2 r =? 0)%N
        then Some (mkRoom (player1 r) sender (totalStake r) (isActive r)
                     (gameFinished r) (winner r))
        else None in
      match seated with
      | None => Revert "Room is full"
      | Some r1 =>
          if (MAX_UINT256 <? totalStake r1 + value)%N
          then Revert "Panic: arithmetic overflow"
          else
            Success
              (<[roomId := mkRoom (player1 r1) (player2 r1)
                             (totalStake r1 + value) true
                             (gameFinished r1) (winner r1)]> rooms)
              (PlayerStaked roomId sender value) None
      end.

(** [finishGame(roomId, winner)]; any account may send it.  [sent] is the
    result of the transfer of the prize to the winner.  The functions that
    write [rooms] are all [nonReentrant], so the recipient cannot change
    [rooms] during the transfer. *)
Definition finishGame (rooms : gmap string Room) (roomId : string)
    (won : address) (sent : bool) : Receipt :=
  let r := room rooms roomId in
  if negb (isActive r) then Revert "Room is not active"
  else if gameFinished r then Revert "Game already finished"
  else if (player2 r =? 0)%N then Revert "Game not started"
  else if negb ((won =? player1 r)%N || (won =? player2 r)%N)
  then Revert "Invalid winner"
  else
    let prize := totalStake r in
    if negb sent then Revert "Failed to send prize to winner"
    else
      Success
        (<[roomId := mkRoom (player1 r) (player2 r) 0%N false true won]> rooms)
        (GameFinished roomId won prize) (Some (won, prize)).

(** [retrieveStake(roomId)] sent by [sender]; [sent] is the result of the
    transfer back to the sender. *)
Definition retrieveStake (rooms : gmap string Room) (sender : address)
    (roomId : string) (sent : bool) : Receipt :=
  let r := room rooms roomId in
  if negb (isActive r) then Revert "Room is not active"
  else if gameFinished r then Revert "Game already finished"
  else if negb ((sender =? player1 r)%N || (sender =? player2 r)%N)
  then Revert "Not a player"
  else
    let stakeToReturn := STAKE_AMOUNT in
    let after :=
      if (sender =? player1 r)%N then
        if negb (player2 r =? 0)%N then None
        else Some (mkRoom 0%N (player2 r) 0%N false (gameFinished r) (winner r))
      else
        Some (mkRoom (player1 r) 0%N STAKE_AMOUNT (isActive r)
                (gameFinished r) (winner r)) in
    match after with
    | None => Revert "Game already started"
    | Some r1 =>
        if negb sent then Revert "Failed to return stake"
        else
          Success (<[roomId := r1]> rooms)
            (StakeReturned roomId sender stakeToReturn)
            (Some (sender, stakeToReturn))
    end.

(** [hasStaked(roomId, player)] *)
Definition hasStaked (rooms : gmap string Room) (roomId : string)
    (player : address) : bool :=
  let r := room rooms roomId in
  (player1 r =? player)%N || (player2 r =? player)%N.

(** The storage after a transaction, whether it reverted or not. *)
Definition storageAfter (rooms : gmap string Room) (t : Receipt)
  : gmap string Room :=
  match t with
  | Revert _ => rooms
  | Success rooms' _ _ => rooms'
  end.

Definition reverted (t : Receipt) : Prop :=
  match t with Revert _ => True | Success _ _ _ => False end.

(** The storages the contract goes through from its deployment. *)
Inductive Reachable : gmap string Room -> Prop :=
| reach_deployed : Reachable ∅
| reach_stake rooms sender value roomId :
    Reachable rooms ->
    Reachable (storageAfter rooms (stake rooms sender value roomId))
| reach_finishGame rooms roomId won sent :
    Reachable rooms ->
    Reachable (storageAfter rooms (finishGame rooms roomId won sent))
| reach_retrieveStake rooms sender roomId sent :
    Reachable rooms ->
    Reachable (storageAfter rooms (retrieveStake rooms sender roomId sent)).

(** How many of the two seats of a room are taken. *)
Definition seats (r : Room) : N :=
  ((if (player1 r =? 0)%N then 0 else 1) + (if (player2 r =? 0)%N then 0 else 1))%N.

(** What holds of every room of a reachable storage. *)
Definition RoomOk (r : Room) : Prop :=
  if gameFinished r then
    isActive r = false /\ totalStake r = 0%N
    /\ player1 r <> 0%N /\ player2 r <> 0%N
    /\ (winner r = player1 r \/ winner r = player2 r)
  else
    winner r = 0%N
    /\ (player2 r <> 0%N -> player1 r <> 0%N)
    /\ (isActive r = true <-> player1 r <> 0%N)
    /\ totalStake r = (STAKE_AMOUNT * seats r)%N
    /\ (player1 r <> 0%N -> player1 r <> player2 r).

(** A transaction sent to the contract. *)
Inductive Tx :=
| TxStake (sender : address) (value : N) (roomId : string)
| TxFinishGame (roomId : string) (won : address) (sent : bool)
| TxRetrieveStake (sender : address) (roomId : string) (sent : bool).

Definition txRoom (tx : Tx) : string :=
  match tx with
  | TxStake _ _ roomId | TxFinishGame roomId _ _ | TxRetrieveStake _ roomId _ =>
      roomId
  end.

Definition send (rooms : gmap string Room) (tx : Tx) : Receipt :=
  match tx with
  | TxStake sender value roomId => stake rooms sender value roomId
  | TxFinishGame roomId won sent => finishGame rooms roomId won sent
  | TxRetrieveStake sender roomId sent => retrieveStake rooms sender roomId sent
  end.

(** The storage after a sequence of transactions. *)
Definition sendAll (txs : list Tx) (rooms : gmap string Room)
  : gmap string Room :=
  fold_left (fun st tx => storageAfter st (send st tx)) txs rooms.

(** A room in which the accounts 1 and 2 have staked. *)
Definition twoStaked : gmap string Room :=
  sendAll [TxStake 1%N STAKE_AMOUNT "room-1"; TxStake 2%N STAKE_AMOUNT "room-1"] ∅.

End TugOfWarAutoReward.

(** ** pages/Home.tsx: readiness, the start button, the connect handler *)

Module HomeReady.

(** What [handleStakeSuccess] does.  When [prevState.players] has no entry
    under [currentAddress], spreading [undefined] leaves an entry
    [{ isReady: true }] without a role, which [Player] does not hold: that
    update is reported by name. *)
Inductive StakeSuccess :=
| NoAddress
| ReadyUpdate (s : GameState)
| RolelessEntry (address : string).

(** [handleStakeSuccess] with the state its functional update receives. *)
Definition handleStakeSuccess (currentAddress : option string)
    (prevState : GameState) : StakeSuccess :=
  match currentAddress with
  | None => NoAddress
  | Some currentAddress =>
      if String.eqb currentAddress "" then NoAddress
      else
        match Js.get (players prevState) currentAddress with
        | None => RolelessEntry currentAddress
        | Some p =>
            let updatedPlayers :=
              Js.assign (players prevState) currentAddress
                (mkPlayer (role p) true) in
            let allReady := Js.everyValue isReady updatedPlayers in
            let hasAllPlayers := (2 <=? Z.of_nat (length updatedPlayers)) in
            let isPlayer1 :=
              match Js.get updatedPlayers currentAddress with
              | Some q => Role_eqb (role q) player1
              | None => false
              end in
            ReadyUpdate
              {| players := updatedPlayers;
                 roomId := roomId prevState;
                 isStarted := isStarted prevState;
                 ropePosition := ropePosition prevState;
                 player1Pulling := player1Pulling prevState;
                 player2Pulling := player2Pulling prevState;
                 winner := winner prevState;
                 gameFinishedOnBlockchain := gameFinishedOnBlockchain prevState;
                 showStartButton :=
                   Some (Js.truthy (showStartButton prevState)
                         || (allReady && hasAllPlayers && isPlayer1
                             && negb (isStarted prevState)
                             && negb (isSome (winner prevState))
                             && negb (Js.truthy (isCountingDown prevState))));
                 countdown := countdown prevState;
                 isCountingDown := isCountingDown prevState |}
        end
  end.

(** The effect that shows the start button: decided on the rendered state,
    applied to the state the functional update receives. *)
Definition startButtonEffect (currentAddress : option string)
    (safeGameState prevState : GameState) : GameState :=
  match currentAddress with
  | None => prevState
  | Some currentAddress =>
      if String.eqb currentAddress "" then prevState
      else
        let allReady := Js.everyValue isReady (players safeGameState) in
        let hasAllPlayers := (2 <=? Z.of_nat (length (players safeGameState))) in
        let isPlayer1 :=
          match Js.get (players safeGameState) currentAddress with
          | Some q => Role_eqb (role q) player1
          | None => false
          end in
        if allReady && hasAllPlayers && isPlayer1
           && negb (isStarted safeGameState)
           && negb (Js.truthy (showStartButton safeGameState))
           && negb (isSome (winner safeGameState))
           && negb (Js.truthy (isCountingDown safeGameState))
        then
          {| players := players prevState;
             roomId := roomId prevState;
             isStarted := isStarted prevState;
             ropePosition := ropePosition prevState;
             player1Pulling := player1Pulling prevState;
             player2Pulling := player2Pulling prevState;
             winner := winner prevState;
             gameFinishedOnBlockchain := gameFinishedOnBlockchain prevState;
             showStartButton := Some true;
             countdown := countdown prevState;
             isCountingDown := isCountingDown prevState |}
        else prevState
  end.

(** The effect on a process that has rendered the current state. *)
Definition effect (address : string) (s : GameState) : GameState :=
  startButtonEffect (Some address) s s.

(** Whether the START GAME button is rendered for [currentAddress]. *)
Definition startButtonVisible (currentAddress : option string)
    (safeGameState : GameState) : bool :=
  Js.truthy (showStartButton safeGameState)
  && match currentAddress with
     | None => false
     | Some a =>
         negb (String.eqb a "")
         && match Js.get (players safeGameState) a with
            | Some q => Role_eqb (role q) player1
            | None => false
            end
     end.

(** What [handleConnect] does once [signer.getAddress()] has given
    [address]: it leaves for the home page at once when the route has no
    room, else it updates the state and asks for effects. *)
Inductive Connect :=
| InvalidRoom
| Connected (s : GameState) (effects : list Home.Effect).

(** [handleConnect]; [roomId] is the route parameter, [None] when it is
    missing. *)
Definition handleConnect (roomId : option string) (address : string)
    (safeGameState prevState : GameState) : Connect :=
  match roomId with
  | None => InvalidRoom
  | Some room =>
      if String.eqb room "" then InvalidRoom
      else
        let playerData :=
          Js.findEntry (fun e => Js.sameAddress (fst e) address)
            (players safeGameState) in
        if isSome playerData then Connected prevState []
        else
          let hasPlayers := (0 <? Z.of_nat (length (players safeGameState))) in
          if negb hasPlayers
          then Connected (Home.joinAsPlayer1 address (Some room) prevState) []
          else
            let hasPlayer2 :=
              Js.someValue (fun p => Role_eqb (role p) player2)
                (players safeGameState) in
            if negb hasPlayer2
            then Connected (Home.joinAsPlayer2 address prevState) []
            else Connected prevState
                   [Home.SetError "Room is full"; Home.NavigateAfter 2000 "/"]
  end.

End HomeReady.

(** ** The money a room takes and gives *)

Module Ledger.

Import TugOfWarAutoReward.

(** The wei a transaction pays into the contract: [msg.value] of a [stake]
    that succeeds (a reverted transaction returns its value; the other
    functions are not [payable]). *)
Definition paidIn (tx : Tx) (t : Receipt) : N :=
  match tx, t with
  | TxStake _ value _, Success _ _ _ => value
  | _, _ => 0%N
  end.

(** The wei a transaction transfers out of the contract. *)
Definition paidOut (t : Receipt) : N :=
  match t with
  | Success _ _ (Some (_, amount)) => amount
  | _ => 0%N
  end.

(** [msg.sender] of a transaction is an account, never [address(0)]. *)
Definition fromAccount (tx : Tx) : Prop :=
  match tx with
  | TxStake sender _ _ | TxRetrieveStake sender _ _ => sender <> 0%N
  | TxFinishGame _ _ _ => True
  end.

(** What the transactions [txs] on room [roomId], sent one after the other
    from the storage [rooms], pay in and pay out in total. *)
Fixpoint totals (roomId : string) (txs : list Tx) (rooms : gmap string Room)
  : N * N :=
  match txs with
  | [] => (0%N, 0%N)
  | tx :: rest =>
      let t := send rooms tx in
      let '(i, o) := totals roomId rest (storageAfter rooms t) in
      if String.eqb (txRoom tx) roomId
      then ((paidIn tx t + i)%N, (paidOut t + o)%N)
      else (i, o)
  end.

End Ledger.

(** ** game/scenes/GameScene.ts: the key handler, the cooldown, state updates *)

Module SceneInput.

(** The scene with the further fields that the key handler and
    [updateGameState] read or write. *)
Record Input := mkInput {
  scene : GameScene.Scene;
  pullCooldown : Q;
  currentPlayerAddress : option string;
  gameState : option GameState;
  lastWinner : option Role;
  isDestroyed : bool
}.

Definition PULL_COOLDOWN_TIME : Q := 100%Q.

Definition withScene (sc : GameScene.Scene) (i : Input) : Input :=
  {| scene := sc;
     pullCooldown := pullCooldown i;
     currentPlayerAddress := currentPlayerAddress i;
     gameState := gameState i;
     lastWinner := lastWinner i;
     isDestroyed := isDestroyed i |}.

Definition withRole (r : option Role) (i : Input) : Input :=
  withScene
    {| GameScene.playerRole := r;
       GameScene.currentPlayer1Pulling := GameScene.currentPlayer1Pulling (scene i);
       GameScene.currentPlayer2Pulling := GameScene.currentPlayer2Pulling (scene i);
       GameScene.lastStateUpdateTime := GameScene.lastStateUpdateTime (scene i);
       GameScene.updateCallback := GameScene.updateCallback (scene i);
       GameScene.rope := GameScene.rope (scene i);
       GameScene.gameTimeRemaining := GameScene.gameTimeRemaining (scene i);
       GameScene.timerEvent := GameScene.timerEvent (scene i) |} i.

(** The listener of the space key's [down] event, at time [now]: the scene
    afterwards and the object passed to the update callback, if any. *)
Definition keyDown (now : Z) (i : Input) : Input * option Partial :=
  if negb (Qle_bool (pullCooldown i) 0) then (i, None)
  else if negb (isSome (GameScene.playerRole (scene i))) then (i, None)
  else
    match gameState i with
    | None => (i, None)
    | Some g =>
        if negb (isStarted g) then (i, None)
        else
          match currentPlayerAddress i with
          | None => (i, None)
          | Some address =>
              if String.eqb address "" then (i, None)
              else
                match Js.findEntry (fun e => Js.sameAddress (fst e) address)
                        (players g) with
                | None => (i, None)
                | Some playerData =>
                    if negb (isReady (snd playerData)) then (i, None)
                    else
                      let '(sc, u) := GameScene.handlePull now (scene i) in
                      ({| scene := sc;
                          pullCooldown := PULL_COOLDOWN_TIME;
                          currentPlayerAddress := currentPlayerAddress i;
                          gameState := gameState i;
                          lastWinner := lastWinner i;
                          isDestroyed := isDestroyed i |}, u)
                end
          end
    end.

(** [update(time, delta)]: the cooldown. *)
Definition update (delta : Q) (i : Input) : Input :=
  if isDestroyed i then i
  else if negb (Qle_bool (pullCooldown i) 0) then
    {| scene := scene i;
       pullCooldown := Qmax 0 (pullCooldown i - delta);
       currentPlayerAddress := currentPlayerAddress i;
       gameState := gameState i;
       lastWinner := lastWinner i;
       isDestroyed := isDestroyed i |}
  else i.

(** [assignPlayerRole] *)
Definition assignPlayerRole (i : Input) : Input :=
  match gameState i with
  | None => i
  | Some g =>
      let hasPlayer1 := Js.someValue (fun p => Role_eqb (role p) player1) (players g) in
      let hasPlayer2 := Js.someValue (fun p => Role_eqb (role p) player2) (players g) in
      if negb hasPlayer1 then withRole (Some player1) i
      else if negb hasPlayer2 then withRole (Some player2) i
      else withRole None i
  end.

(** [updatePlayerInfo] from the point where the wallet has answered with
    the accounts, [account] being the first of them. *)
Definition updatePlayerInfo (account : string) (i : Input) : Input :=
  let address := Js.toLowerCase account in
  let i1 :=
    {| scene := scene i;
       pullCooldown := pullCooldown i;
       currentPlayerAddress := Some address;
       gameState := gameState i;
       lastWinner := lastWinner i;
       isDestroyed := isDestroyed i |} in
  match gameState i1 with
  | None => i1
  | Some g =>
      match Js.findEntry (fun e => String.eqb (Js.toLowerCase (fst e)) address)
              (players g) with
      | Some playerData => withRole (Some (role (snd playerData))) i1
      | None => assignPlayerRole i1
      end
  end.

(** The state part of [updateGameState]: the scene afterwards and the
    object [handleWin] passes to the update callback, if the win screen is
    created.  [centerX] is [this.cameras.main.centerX]. *)
Definition updateGameState (centerX : Q) (newGameState : GameState) (i : Input)
  : Input * option Partial :=
  let gameJustStarted :=
    negb (match gameState i with Some g => isStarted g | None => false end)
    && isStarted newGameState in
  let sc1 := if gameJustStarted then GameScene.startGameTimer (scene i)
             else scene i in
  let sc2 :=
    {| GameScene.playerRole := GameScene.playerRole sc1;
       GameScene.currentPlayer1Pulling := player1Pulling newGameState;
       GameScene.currentPlayer2Pulling := player2Pulling newGameState;
       GameScene.lastStateUpdateTime := GameScene.lastStateUpdateTime sc1;
       GameScene.updateCallback := GameScene.updateCallback sc1;
       GameScene.rope :=
         match GameScene.rope sc1 with
         | Some _ =>
             Some (GameScene.clampRopePosition centerX (ropePosition newGameState))
         | None => None
         end;
       GameScene.gameTimeRemaining := GameScene.gameTimeRemaining sc1;
       GameScene.timerEvent := GameScene.timerEvent sc1 |} in
  match winner newGameState with
  | Some w =>
      if negb (GameScene.isRole w (lastWinner i)) then
        let '(sc3, u) := GameScene.handleWin w sc2 in
        ({| scene := sc3;
            pullCooldown := pullCooldown i;
            currentPlayerAddress := currentPlayerAddress i;
            gameState := Some newGameState;
            lastWinner := Some w;
            isDestroyed := isDestroyed i |}, u)
      else
        ({| scene := sc2;
            pullCooldown := pullCooldown i;
            currentPlayerAddress := currentPlayerAddress i;
            gameState := Some newGameState;
            lastWinner := lastWinner i;
            isDestroyed := isDestroyed i |}, None)
  | None =>
      ({| scene := sc2;
          pullCooldown := pullCooldown i;
          currentPlayerAddress := currentPlayerAddress i;
          gameState := Some newGameState;
          lastWinner := lastWinner i;
          isDestroyed := isDestroyed i |}, None)
  end.

(** What happens to a scene: a frame of [delta] ms, a press of the space
    key at time [now], a new shared state, the wallet's answer to
    [updatePlayerInfo]. *)
Inductive InputEvent :=
| Frame (delta : Q)
| KeyDown (now : Z)
| NewState (centerX : Q) (s : GameState)
| Account (account : string).

(** The scene after the events and the objects it passed to the update
    callback, in order. *)
Fixpoint runInput (evs : list InputEvent) (i : Input) : Input * list Partial :=
  match evs with
  | [] => (i, [])
  | ev :: rest =>
      let '(i1, u) :=
        match ev with
        | Frame delta => (update delta i, None)
        | KeyDown now => keyDown now i
        | NewState centerX s => updateGameState centerX s i
        | Account account => (updatePlayerInfo account i, None)
        end in
      let '(i2, us) := runInput rest i1 in
      (i2, match u with Some x => x :: us | None => us end)
  end.



(** The winner the event puts before the scene, if any. *)
Definition declared (ev : InputEvent) : option Role :=
  match ev with NewState _ s => winner s | _ => None end.

(** Whether the update comes from a key press: [handlePull] names no
    winner, the win screen does. *)
Definition isPull (u : Partial) : bool := negb (isSome (u_winner u)).

(** How many of the updates are the win screen's. *)
Definition winScreens (us : list Partial) : nat :=
  length (List.filter (fun u => negb (isPull u)) us).

(** A scene as the game creates it: the sprites exist, the callback is set,
    no state has come in and no key was pressed. *)
Definition created : Input :=
  {| scene :=
       {| GameScene.playerRole := None;
          GameScene.currentPlayer1Pulling := false;
          GameScene.currentPlayer2Pulling := false;
          GameScene.lastStateUpdateTime := 0;
          GameScene.updateCallback := true;
          GameScene.rope := Some 600%Q;
          GameScene.gameTimeRemaining := 60;
          GameScene.timerEvent := false |};
     pullCooldown := 0%Q;
     currentPlayerAddress := None;
     gameState := None;
     lastWinner := None;
     isDestroyed := false |}.

(** The scene of the process of [account] once it has received the shared
    state [s] and the wallet has answered. *)
Definition participant (account : string) (s : GameState) : Input :=
  updatePlayerInfo account (fst (updateGameState 600 s created)).

End SceneInput.

(** ** A match as a sequence of pulls *)

Module Match.

(** Resolved pulls of the two participants in the order [rs], 50 ms
    apart. *)
Fixpoint pulls (rs : list Role) (now : Z) (s : GameState) : GameState :=
  match rs with
  | [] => s
  | r :: rest => pulls rest (now + 50) (Scenario.resolvedPull r now s)
  end.

(** What a pull adds to player1's lead. *)
Definition gain (r : Role) : Z :=
  match r with player1 => 1 | player2 => -1 end.

(** Player1's lead after the pulls [rs]: its pulls minus player2's. *)
Fixpoint lead (rs : list Role) : Z :=
  match rs with
  | [] => 0
  | r :: rest => gain r + lead rest
  end.

(** Every pull of [rs] is made while the lead, which is [d] before the
    first of them, is below 30 on either side. *)
Fixpoint undecided (d : Z) (rs : list Role) : bool :=
  match rs with
  | [] => true
  | r :: rest => (Z.abs d <? 30) && undecided (d + gain r) rest
  end.

(** The winner a lead of [d] pulls makes. *)
Definition verdict (d : Z) : option Role :=
  if 30 <=? d then Some player1
  else if d <=? -30 then Some player2
  else None.

(** The state of a match in which player1 leads by [d] pulls. *)
Definition atLead (d : Z) (s : GameState) : Prop :=
  (ropePosition s == 600 - 10 * inject_Z d)%Q
  /\ player1Pulling s = false /\ player2Pulling s = false
  /\ winner s = verdict d
  /\ isStarted s = (Z.abs d <? 30)
  /\ -30 <= d <= 30.









(** A running match with the rope at 310 and a pull of player1 pending,
    and the creator's process in it. *)
Definition lastPull : GameState :=
  {| players := [(Scenario.alice, mkPlayer player1 true);
                 (Scenario.bob, mkPlayer player2 true)];
     roomId := Some Scenario.room;
     isStarted := true;
     ropePosition := 310%Q;
     player1Pulling := true;
     player2Pulling := false;
     winner := None;
     gameFinishedOnBlockchain := Some false;
     showStartButton := Some false;
     countdown := None;
     isCountingDown := Some false |}.

Definition creator : Game.Client := Scenario.aliceClient lastPull.

End Match.

(** ** game/scenes/GameScene.ts: the game timer while the state changes *)

Module SceneTimer.

Import SceneInput.

(** What happens to a scene during a match: the 1-second timer event
    fires, or a new shared state comes in. *)
Inductive TimedEvent :=
| Second
| Shared (s : GameState).

(** The scene after the events and the objects it passed to the update
    callback, in order.  [centerX] is [this.cameras.main.centerX]. *)
Fixpoint runTimed (centerX : Q) (evs : list TimedEvent) (i : Input)
  : Input * list Partial :=
  match evs with
  | [] => (i, [])
  | ev :: rest =>
      let '(i1, u) :=
        match ev with
        | Second =>
            if GameScene.timerEvent (scene i) then
              let '(sc, u) := GameScene.updateTimer centerX (scene i) in
              (withScene sc i, u)
            else (i, None)
        | Shared s => updateGameState centerX s i
        end in
      let '(i2, us) := runTimed centerX rest i1 in
      (i2, match u with Some x => x :: us | None => us end)
  end.

(** How many times the timer event fires in [evs]. *)
Fixpoint secondsIn (evs : list TimedEvent) : Z :=
  match evs with
  | [] => 0
  | Second :: rest => 1 + secondsIn rest
  | Shared _ :: rest => secondsIn rest
  end.

(** The last shared state that came in, [s0] if none did. *)
Fixpoint lastShared (evs : list TimedEvent) (s0 : GameState) : GameState :=
  match evs with
  | [] => s0
  | Second :: rest => lastShared rest s0
  | Shared s :: rest => lastShared rest s
  end.

(** The states that come in belong to a running match. *)
Definition running (ev : TimedEvent) : Prop :=
  match ev with
  | Second => True
  | Shared s => isStarted s = true /\ winner s = None
  end.

(** A scene [k] seconds into a match whose last shared state is [s]. *)
Definition inMatch (centerX : Q) (k : Z) (s : GameState) (i : Input) : Prop :=
  GameScene.timerEvent (scene i) = true
  /\ GameScene.gameTimeRemaining (scene i) = 60 - k
  /\ GameScene.updateCallback (scene i) = true
  /\ GameScene.rope (scene i)
     = Some (GameScene.clampRopePosition centerX (ropePosition s))
  /\ exists g, gameState i = Some g /\ isStarted g = true.

(** The side of the centre the rope is on. *)
Definition side (centerX : Q) (s : GameState) : Role :=
  if Qle_bool (ropePosition s) centerX then player1 else player2.

(** A match in which player1 pulls once, half a minute in. *)
Definition halfTime : list TimedEvent :=
  repeat Second 30
  ++ [Shared (Scenario.resolvedPull player1 1000 Scenario.playing)]
  ++ repeat Second 29.

End SceneTimer.

(** ** pages/Home.tsx: runs of the start button

    [handleStartGame] has no guard of its own: it runs whenever the START
    GAME button is clicked, and the button is rendered from the state the
    process has rendered last ([safeGameState]), which can be older than
    the shared state its update is applied to.  Every click installs an
    interval of its own ([setInterval] inside [handleStartGame]); an
    interval is cleared only by its own run that ends the countdown. *)

Module StartRun.

(** A room: the shared state, the states it had before (newest first) and,
    for every interval installed so far, whether it is still running. *)
Record Room := mkRoom {
  shared : GameState;
  earlier : list GameState;
  intervals : list bool
}.

(** The state a process that is [lag] updates behind has rendered. *)
Definition rendered (lag : nat) (m : Room) : option GameState :=
  match lag with
  | O => Some (shared m)
  | S n => nth_error (earlier m) n
  end.

Inductive Event :=
| Click (currentAddress : option string) (lag : nat)
| Fire (k : nat)
| Pull (r : Role) (now : Z).

Definition write (s : GameState) (live : list bool) (m : Room) : Room :=
  mkRoom s (shared m :: earlier m) live.

(** A click of the button on a process that renders it, a run of the
    [k]-th interval, a resolved pull in the running match. *)
Definition step (e : Event) (m : Room) : option Room :=
  match e with
  | Click currentAddress lag =>
      match rendered lag m with
      | Some safeGameState =>
          if HomeReady.startButtonVisible currentAddress safeGameState
          then Some (write (Home.handleStartGame (shared m))
                       (intervals m ++ [true]) m)
          else None
      | None => None
      end
  | Fire k =>
      match nth_error (intervals m) k with
      | Some true =>
          let '(s, cleared) := Home.countdownTick (shared m) in
          Some (write s
                  (if cleared then <[k := false]> (intervals m)
                   else intervals m) m)
      | _ => None
      end
  | Pull r now =>
      if Game.loopRuns (shared m)
      then Some (write (Scenario.resolvedPull r now (shared m)) (intervals m) m)
      else None
  end.

Fixpoint run (es : list Event) (m : Room) : option Room :=
  match es with
  | [] => Some m
  | e :: rest =>
      match step e m with
      | Some m' => run rest m'
      | None => None
      end
  end.


End StartRun.

(** * Properties *)

Ltac unfold_consts :=
  unfold inBounds, clampToBounds, Game.winDistance, Game.centerX,
    Game.maxDistance, Game.pullForce in *.

(** ** The movement step *)

Section Movement.

Local Open Scope Q_scope.

Lemma movement_player1 s :
  player1Pulling s = true -> player2Pulling s = false ->
  Game.movement s =
    (Qmax (Game.centerX - Game.maxDistance) (ropePosition s - Game.pullForce), true).
Proof. intros H1 H2. unfold Game.movement. now rewrite H1, H2. Qed.

Lemma movement_player2 s :
  player1Pulling s = false -> player2Pulling s = true ->
  Game.movement s =
    (Qmin (Game.centerX + Game.maxDistance) (ropePosition s + Game.pullForce), true).
Proof. intros H1 H2. unfold Game.movement. now rewrite H1, H2. Qed.

Lemma movement_cancel s :
  player1Pulling s = player2Pulling s ->
  Game.movement s = (ropePosition s, false).
Proof.
  intros H. unfold Game.movement. rewrite H.
  now destruct (player2Pulling s).
Qed.

Lemma max_in_bounds q :
  inBounds q -> inBounds (Qmax (Game.centerX - Game.maxDistance) (q - Game.pullForce)).
Proof.
  unfold_consts. intros [Hlo Hhi].
  destruct (Q.max_spec (600 - 350) (q - 10)) as [[? ?]|[? ?]]; split; lra.
Qed.

Lemma min_in_bounds q :
  inBounds q -> inBounds (Qmin (Game.centerX + Game.maxDistance) (q + Game.pullForce)).
Proof.
  unfold_consts. intros [Hlo Hhi].
  destruct (Q.min_spec (600 + 350) (q + 10)) as [[? ?]|[? ?]]; split; lra.
Qed.

Lemma movement_in_bounds s :
  inBounds (ropePosition s) -> inBounds (fst (Game.movement s)).
Proof.
  intros Hb. destruct (player1Pulling s) eqn:H1, (player2Pulling s) eqn:H2.
  - rewrite movement_cancel by congruence. exact Hb.
  - rewrite movement_player1 by assumption. now apply max_in_bounds.
  - rewrite movement_player2 by assumption. now apply min_in_bounds.
  - rewrite movement_cancel by congruence. exact Hb.
Qed.

Lemma max_is_clamp q :
  inBounds q ->
  Qmax (Game.centerX - Game.maxDistance) (q - Game.pullForce)
  == clampToBounds (q - Game.pullForce).
Proof.
  unfold_consts. intros [Hlo Hhi].
  destruct (Q.min_spec (600 + 350) (q - 10)) as [[? Hm]|[? Hm]]; [lra|].
  destruct (Q.max_spec (600 - 350) (q - 10)) as [[? H1]|[? H1]];
  destruct (Q.max_spec (600 - 350) (Qmin (600 + 350) (q - 10))) as [[? H2]|[? H2]];
    lra.
Qed.

Lemma min_is_clamp q :
  inBounds q ->
  Qmin (Game.centerX + Game.maxDistance) (q + Game.pullForce)
  == clampToBounds (q + Game.pullForce).
Proof.
  unfold_consts. intros [Hlo Hhi].
  destruct (Q.min_spec (600 + 350) (q + 10)) as [[? Hm]|[? Hm]];
  destruct (Q.max_spec (600 - 350) (Qmin (600 + 350) (q + 10))) as [[? H2]|[? H2]];
    lra.
Qed.

End Movement.

(** ** The game loop *)

Section GameLoop.

Local Open Scope Q_scope.

(** The interval callback, by the outcome of the movement step. *)
Lemma gameLoopTick_eq now r cur prev :
  Game.gameLoopTick now r (Some cur) prev =
    let m := Game.movement cur in
    let won := Game.winCheck (fst m) in
    if snd m || isSome won then
      if (now - Game.lastUpdateRef r <? 50)%Z
      then Game.mkTick Game.Debounced r prev None
      else Game.mkTick Game.Written
             (Game.mkRefs now (Game.finishGameCalledRef r))
             (Game.writeBack (fst m) won prev)
             (Game.finishGuard won cur prev r)
    else Game.mkTick Game.Idle r prev None.
Proof. unfold Game.gameLoopTick. now destruct (Game.movement cur). Qed.

Lemma tick_state_cases now r cur prev :
  let t := Game.gameLoopTick now r (Some cur) prev in
  (Game.kind t = Game.Written /\
   Game.state t =
     Game.writeBack (fst (Game.movement cur))
       (Game.winCheck (fst (Game.movement cur))) prev)
  \/ (Game.kind t <> Game.Written /\ Game.state t = prev /\ Game.refs t = r).
Proof.
  cbv zeta. rewrite gameLoopTick_eq. cbv zeta.
  destruct (snd (Game.movement cur) || isSome _); [|right; easy].
  destruct (now - Game.lastUpdateRef r <? 50)%Z; [right; easy|left; easy].
Qed.

Lemma tick_in_bounds now r cur prev :
  inBounds (ropePosition cur) -> inBounds (ropePosition prev) ->
  inBounds (ropePosition (Game.state (Game.gameLoopTick now r (Some cur) prev))).
Proof.
  intros Hc Hp.
  destruct (tick_state_cases now r cur prev) as [[_ ->]|[_ [-> _]]]; [|exact Hp].
  cbn. now apply movement_in_bounds.
Qed.

Lemma winCheck_player1 q :
  q <= 302.5 -> Game.winCheck q = Some player1.
Proof.
  intros H. unfold Game.winCheck.
  destruct (Qle_bool q _) eqn:E; [reflexivity|].
  assert (Qle_bool q (Game.centerX - Game.winDistance) = true) as E'
    by (apply Qle_bool_iff; unfold_consts; lra).
  congruence.
Qed.

Lemma winCheck_player2 q :
  897.5 <= q -> Game.winCheck q = Some player2.
Proof.
  intros H. unfold Game.winCheck.
  destruct (Qle_bool q _) eqn:E.
  - apply Qle_bool_iff in E. unfold_consts. lra.
  - destruct (Qle_bool _ q) eqn:E2; [reflexivity|].
    assert (Qle_bool (Game.centerX + Game.winDistance) q = true) as E'
      by (apply Qle_bool_iff; unfold_consts; lra).
    congruence.
Qed.

Lemma winCheck_none q :
  302.5 < q -> q < 897.5 -> Game.winCheck q = None.
Proof.
  intros H1 H2. unfold Game.winCheck.
  destruct (Qle_bool q _) eqn:E.
  - apply Qle_bool_iff in E. unfold_consts. lra.
  - destruct (Qle_bool _ q) eqn:E2; [|reflexivity].
    apply Qle_bool_iff in E2. unfold_consts. lra.
Qed.

End GameLoop.

Section RopeClaims.

Local Open Scope Q_scope.

Lemma inBounds_literal q : inBounds q <-> 250 <= q /\ q <= 950.
Proof. unfold_consts. split; intros [? ?]; split; lra. Qed.

Lemma sceneUpdate_in_bounds u s :
  SceneUpdate u -> inBounds (ropePosition s) -> inBounds (ropePosition (merge s u)).
Proof.
  intros Hu Hs. destruct Hu as [now sc u H|c sc u H|won sc u H]; cbn.
  - unfold GameScene.handlePull in H.
    destruct (_ <? _)%Z in H; [discriminate|].
    destruct (_ && _) in H; [discriminate|].
    destruct (_ && _) in H; [discriminate|].
    cbn in H. destruct (GameScene.updateCallback sc); [|discriminate].
    inversion H; subst; exact Hs.
  - unfold GameScene.handleTimeUp in H. cbn in H.
    destruct (GameScene.updateCallback sc); inversion H; subst; exact Hs.
  - unfold GameScene.handleWin in H.
    destruct (_ || _) in H; [discriminate|].
    cbn in H. inversion H; subst. cbn.
    apply inBounds_literal. destruct won; split; lra.
Qed.

(** Every writer of the shared state keeps the rope within its bounds. *)
Lemma reachable_in_bounds s : Reachable s -> inBounds (ropePosition s).
Proof.
  induction 1 as [room|s _ IH|room a sg cur prev _ _ _ IH|ps b s _ IH
                 |s _ IH|s _ IH|u s Hu _ IH|now r cur prev _ IHc _ IHp|s _ IH].
  - apply inBounds_literal. cbn. split; lra.
  - apply inBounds_literal. cbn. split; lra.
  - unfold Home.handlePlayerJoin.
    destruct (Home.decideJoin a sg cur) as [| |[]|], a; exact IH.
  - exact IH.
  - exact IH.
  - unfold Home.countdownTick. destruct (_ <=? _)%Z; exact IH.
  - now apply sceneUpdate_in_bounds.
  - now apply tick_in_bounds.
  - exact IH.
Qed.

(** C3. For every reachable state of a room, after every resolution tick
    (whatever the time, the refs and the reachable snapshot the tick reads)
    the rope position lies in [CENTER - MAX_DISTANCE, CENTER + MAX_DISTANCE]
    = [250, 950]. *)
Theorem rope_position_invariant now r cur s :
  Reachable s -> Reachable cur ->
  let s' := Game.state (Game.gameLoopTick now r (Some cur) s) in
  Game.centerX - Game.maxDistance <= ropePosition s'
  /\ ropePosition s' <= Game.centerX + Game.maxDistance
  /\ 250 <= ropePosition s' /\ ropePosition s' <= 950.
Proof.
  intros Hs Hc s'.
  assert (inBounds (ropePosition s')) as Hb
    by (apply reachable_in_bounds; now constructor).
  destruct Hb as [Hlo Hhi]. repeat split; try assumption; unfold_consts; lra.
Qed.

Lemma rope_position_invariant_witness :
  let s' := Game.state (Game.gameLoopTick 1050 (Game.mkRefs 1000 false)
              (Some (Scenario.press player1 1050 Scenario.playing))
              (Scenario.press player1 1050 Scenario.playing)) in
  ropePosition s' == 590 /\
  Game.centerX - Game.maxDistance <= ropePosition s'
  /\ ropePosition s' <= Game.centerX + Game.maxDistance
  /\ 250 <= ropePosition s' /\ ropePosition s' <= 950.
Proof.
  assert (Reachable Scenario.playing) as Hp.
  { unfold Scenario.playing, Scenario.ready, Scenario.lobby, Home.join.
    change (Home.countdownTicks 3 ?s) with
      (fst (Home.countdownTick (fst (Home.countdownTick (fst (Home.countdownTick s)))))).
    do 3 apply r_countdown. apply r_start, r_lobby.
    apply r_join; [|apply r_join]; try apply r_join; apply r_init. }
  assert (Reachable (Scenario.press player1 1050 Scenario.playing)) as Hq.
  { change (Scenario.press player1 1050 Scenario.playing) with
      (merge Scenario.playing
         {| u_isStarted := None; u_ropePosition := None;
            u_player1Pulling := Some true; u_player2Pulling := Some false;
            u_winner := None; u_countdown := None; u_isCountingDown := None |}).
    apply r_scene; [|exact Hp].
    apply (su_pull 1050 (Scenario.sceneFor player1 Scenario.playing)).
    reflexivity. }
  split; [reflexivity|].
  exact (rope_position_invariant 1050 (Game.mkRefs 1000 false) _ _ Hq Hq).
Defined.

(** C2, as stated, fails on a debounced tick: the previous write-back was
    at 1010 ms, the interval fires again at 1050 ms while only player1
    pulls; the callback returns before [setGameState] and the rope stays
    at 600 instead of moving to 590. *)
Lemma tick_debounced_rope_unmoved :
  let s := Scenario.press player1 1050 Scenario.playing in
  let t := Game.gameLoopTick 1050 (Game.mkRefs 1010 false) (Some s) s in
  player1Pulling s = true /\ player2Pulling s = false
  /\ ropePosition s == 600
  /\ Game.kind t = Game.Debounced
  /\ ropePosition (Game.state t) == 600
  /\ ~ ropePosition (Game.state t) == 600 - Game.pullForce.
Proof. vm_compute. repeat split; discriminate. Qed.

(** C2 (amended). A resolution tick reads the snapshot [cur]
    ([currentStateRef.current]) and writes onto the state [prev] that its
    update receives.  On a tick that is not debounced (at least 50 ms after
    the last write-back), with the snapshot's rope within [250, 950]: if
    only player1 pulls in the snapshot the rope is set to the snapshot's
    ropePosition - 10 clamped to [250, 950], if only player2 pulls to
    ropePosition + 10 clamped to [250, 950].  On a debounced tick the state
    is unchanged.  If both flags or neither flag is set in the snapshot the
    tick does not move the rope: it writes nothing or, when the snapshot's
    rope is beyond a win threshold, it writes the snapshot's ropePosition
    unmoved; where the snapshot has the rope of the current state the rope
    position is unchanged, debounced or not. *)
Theorem tick_moves_rope now r cur prev :
  inBounds (ropePosition cur) ->
  let t := Game.gameLoopTick now r (Some cur) prev in
  ((50 <= now - Game.lastUpdateRef r)%Z ->
     player1Pulling cur = true -> player2Pulling cur = false ->
     ropePosition (Game.state t) == clampToBounds (ropePosition cur - Game.pullForce)
     /\ ropePosition (Game.state t) == Qmax 250 (ropePosition cur - 10))
  /\ ((50 <= now - Game.lastUpdateRef r)%Z ->
     player1Pulling cur = false -> player2Pulling cur = true ->
     ropePosition (Game.state t) == clampToBounds (ropePosition cur + Game.pullForce)
     /\ ropePosition (Game.state t) == Qmin 950 (ropePosition cur + 10))
  /\ ((now - Game.lastUpdateRef r < 50)%Z -> Game.state t = prev)
  /\ (player1Pulling cur = player2Pulling cur ->
      (Game.winCheck (ropePosition cur) = None -> Game.state t = prev)
      /\ (Game.state t = prev
          \/ ropePosition (Game.state t) == ropePosition cur)
      /\ (ropePosition cur == ropePosition prev ->
          ropePosition (Game.state t) == ropePosition prev)).
Proof.
  intros Hb t. subst t. rewrite gameLoopTick_eq. cbv zeta.
  repeat apply conj.
  - intros Hd H1 H2. rewrite movement_player1 by assumption. cbn [fst snd orb].
    destruct (now - Game.lastUpdateRef r <? 50)%Z eqn:E;
      [apply Z.ltb_lt in E; lia|].
    cbn. split; [now apply max_is_clamp|]. unfold_consts.
    destruct (Q.max_spec (600 - 350) (ropePosition cur - 10)) as [[? ?]|[? ?]];
    destruct (Q.max_spec 250 (ropePosition cur - 10)) as [[? ?]|[? ?]]; lra.
  - intros Hd H1 H2. rewrite movement_player2 by assumption. cbn [fst snd orb].
    destruct (now - Game.lastUpdateRef r <? 50)%Z eqn:E;
      [apply Z.ltb_lt in E; lia|].
    cbn. split; [now apply min_is_clamp|]. unfold_consts.
    destruct (Q.min_spec (600 + 350) (ropePosition cur + 10)) as [[? ?]|[? ?]];
    destruct (Q.min_spec 950 (ropePosition cur + 10)) as [[? ?]|[? ?]]; lra.
  - intros Hlt. apply Z.ltb_lt in Hlt. rewrite Hlt.
    now destruct (snd _ || isSome _).
  - intros Heq. rewrite movement_cancel by assumption. cbn [fst snd orb].
    repeat apply conj.
    + intros Hw. now rewrite Hw.
    + destruct (isSome _); [|now left].
      destruct (now - Game.lastUpdateRef r <? 50)%Z; [now left|now right].
    + intros Hq. destruct (isSome _); [|reflexivity].
      destruct (now - Game.lastUpdateRef r <? 50)%Z; [reflexivity|exact Hq].
Qed.

Lemma tick_moves_rope_witness :
  let s := Scenario.press player1 1050 Scenario.playing in
  let written :=
    Game.state (Game.gameLoopTick 1050 (Game.mkRefs 1000 false) (Some s) s) in
  inBounds (ropePosition s) /\ (50 <= 1050 - 1000)%Z
  /\ player1Pulling s = true /\ player2Pulling s = false
  /\ ropePosition written == Qmax 250 (ropePosition s - 10)
  /\ ropePosition
       (Game.state
          (Game.gameLoopTick 1060 (Game.mkRefs 1000 false) (Some s) written))
     == Qmax 250 (ropePosition s - 10).
Proof.
  intros s written.
  assert (inBounds (ropePosition s)) as Hb
    by (apply inBounds_literal; vm_compute; split; discriminate).
  split; [exact Hb|]. split; [lia|]. split; [reflexivity|]. split; [reflexivity|].
  split.
  - apply (proj1 (tick_moves_rope 1050 (Game.mkRefs 1000 false) s s Hb));
      [cbn; lia|reflexivity|reflexivity].
  - apply (proj1 (tick_moves_rope 1060 (Game.mkRefs 1000 false) s written Hb));
      [cbn; lia|reflexivity|reflexivity].
Defined.

(** C4, as stated, fails: a debounced tick (last write-back at 1010 ms,
    tick at 1050 ms) returns before the write-back and leaves
    player1Pulling set; and a tick that finds both flags set and the rope
    at the centre does not write back either, so both flags stay set. *)
Lemma tick_leaves_flags_set :
  (let s := Scenario.press player1 1050 Scenario.playing in
   let t := Game.gameLoopTick 1050 (Game.mkRefs 1010 false) (Some s) s in
   Game.kind t = Game.Debounced /\ player1Pulling (Game.state t) = true)
  /\
  (let s := merge Scenario.playing
              {| u_isStarted := None; u_ropePosition := None;
                 u_player1Pulling := Some true; u_player2Pulling := Some true;
                 u_winner := None; u_countdown := None;
                 u_isCountingDown := None |} in
   let t := Game.gameLoopTick 1050 (Game.mkRefs 1000 false) (Some s) s in
   Game.kind t = Game.Idle
   /\ player1Pulling (Game.state t) = true
   /\ player2Pulling (Game.state t) = true).
Proof. vm_compute. repeat split. Qed.

(** C4 (amended). A resolution tick that writes back leaves both pulling
    flags false, whatever the movement was.  A tick that finds exactly one
    flag set writes back when at least 50 ms passed since the last
    write-back.  A tick less than 50 ms after the last write-back changes
    neither the state nor the refs.  A tick on a state with no flag set
    leaves both flags false. *)
Theorem tick_clears_flags now r cur prev :
  let t := Game.gameLoopTick now r (Some cur) prev in
  (Game.kind t = Game.Written ->
     player1Pulling (Game.state t) = false
     /\ player2Pulling (Game.state t) = false)
  /\ (xorb (player1Pulling cur) (player2Pulling cur) = true ->
      (50 <= now - Game.lastUpdateRef r)%Z ->
      Game.kind t = Game.Written)
  /\ ((now - Game.lastUpdateRef r < 50)%Z ->
      Game.state t = prev /\ Game.refs t = r)
  /\ (player1Pulling prev = false -> player2Pulling prev = false ->
      player1Pulling (Game.state t) = false
      /\ player2Pulling (Game.state t) = false).
Proof.
  cbv zeta. repeat apply conj.
  - intros Hk. destruct (tick_state_cases now r cur prev) as [[_ ->]|[Hn _]];
      [now cbn|contradiction].
  - intros Hx Hd. rewrite gameLoopTick_eq. cbv zeta.
    assert (snd (Game.movement cur) = true) as ->.
    { unfold Game.movement.
      destruct (player1Pulling cur), (player2Pulling cur); easy. }
    cbn [orb].
    destruct (now - Game.lastUpdateRef r <? 50)%Z eqn:E;
      [apply Z.ltb_lt in E; lia|reflexivity].
  - intros Hlt. rewrite gameLoopTick_eq. cbv zeta.
    apply Z.ltb_lt in Hlt. rewrite Hlt.
    now destruct (snd _ || isSome _).
  - intros H1 H2.
    destruct (tick_state_cases now r cur prev) as [[_ ->]|[_ [-> _]]];
      [now cbn|now split].
Qed.

Lemma tick_clears_flags_witness :
  let s := Scenario.press player1 1050 Scenario.playing in
  let t := Game.gameLoopTick 1050 (Game.mkRefs 1000 false) (Some s) s in
  xorb (player1Pulling s) (player2Pulling s) = true
  /\ (50 <= 1050 - 1000)%Z
  /\ Game.kind t = Game.Written
  /\ player1Pulling (Game.state t) = false
  /\ player2Pulling (Game.state t) = false.
Proof.
  intros s t.
  pose proof (tick_clears_flags 1050 (Game.mkRefs 1000 false) s s) as [Hw [Hx _]].
  assert (Game.kind t = Game.Written) as Hk
    by (apply Hx; [reflexivity|cbn; lia]).
  split; [reflexivity|]. split; [lia|]. split; [exact Hk|].
  exact (Hw Hk).
Defined.

End RopeClaims.

(** ** Thirty pulls *)

Section ThirtyPulls.

Local Open Scope Q_scope.

(** A resolved pull of player1 on a state without pending pulls is the
    write-back of the tick on that state. *)
Lemma resolvedPull_player1 now s :
  (50 <= now)%Z -> player1Pulling s = false -> player2Pulling s = false ->
  Scenario.resolvedPull player1 now s =
    let q := Qmax (Game.centerX - Game.maxDistance) (ropePosition s - Game.pullForce) in
    Game.writeBack q (Game.winCheck q) s.
Proof.
  intros Hn H1 H2.
  unfold Scenario.resolvedPull, Scenario.press, GameScene.handlePull.
  cbn [Scenario.sceneFor GameScene.lastStateUpdateTime GameScene.playerRole
       GameScene.currentPlayer1Pulling GameScene.currentPlayer2Pulling
       GameScene.updateCallback GameScene.isRole Role_eqb].
  rewrite H1, H2. cbn [andb snd].
  destruct (now - 0 <? GameScene.STATE_UPDATE_THROTTLE)%Z eqn:E.
  { apply Z.ltb_lt in E. unfold GameScene.STATE_UPDATE_THROTTLE in E. lia. }
  cbn [snd]. rewrite gameLoopTick_eq. cbv zeta.
  rewrite movement_player1 by reflexivity. cbn [fst snd orb Game.lastUpdateRef].
  destruct (now - (now - 50) <? 50)%Z eqn:E2; [apply Z.ltb_lt in E2; lia|].
  reflexivity.
Qed.

Lemma resolvedPulls_snoc r n : forall now s,
  Scenario.resolvedPulls r (S n) now s =
  Scenario.resolvedPull r (now + 50 * Z.of_nat n)
    (Scenario.resolvedPulls r n now s).
Proof.
  induction n as [|n IH]; intros now s.
  - cbn. now rewrite Z.add_0_r.
  - change (Scenario.resolvedPulls r (S (S n)) now s)
      with (Scenario.resolvedPulls r (S n) (now + 50) (Scenario.resolvedPull r now s)).
    rewrite IH. cbn [Scenario.resolvedPulls].
    f_equal. lia.
Qed.

(** While the rope stays clear of the win boundary, [k] resolved pulls of
    player1 move it by [10 * k] and declare no winner. *)
Lemma pulls_before_boundary k : forall now s q,
  (50 <= now)%Z -> ropePosition s == q ->
  302.5 < q - 10 * inject_Z (Z.of_nat k) -> q < 897.5 ->
  player1Pulling s = false -> player2Pulling s = false ->
  winner s = None -> isStarted s = true ->
  let s' := Scenario.resolvedPulls player1 k now s in
  ropePosition s' == q - 10 * inject_Z (Z.of_nat k)
  /\ player1Pulling s' = false /\ player2Pulling s' = false
  /\ winner s' = None /\ isStarted s' = true.
Proof.
  induction k as [|k IH]; intros now s q Hn Hq Hlo Hhi H1 H2 Hw Hs.
  - cbv zeta. cbn [Scenario.resolvedPulls Z.of_nat].
    repeat split; try assumption. rewrite Hq.
    change (inject_Z (Z.of_nat 0)) with 0. lra.
  - assert (inject_Z (Z.of_nat (S k)) == inject_Z (Z.of_nat k) + 1) as Hk.
    { rewrite Nat2Z.inj_succ, <- Z.add_1_r, inject_Z_plus. reflexivity. }
    rewrite Hk in Hlo.
    assert (0 <= inject_Z (Z.of_nat k)) as Hk0.
    { change 0 with (inject_Z 0). rewrite <- Zle_Qle. lia. }
    cbn [Scenario.resolvedPulls]. cbv zeta.
    rewrite resolvedPull_player1 by assumption. cbv zeta.
    set (q1 := Qmax _ _).
    assert (q1 == q - 10) as Hq1.
    { subst q1. unfold_consts.
      destruct (Q.max_spec (600 - 350) (ropePosition s - 10)) as [[? ?]|[? ?]]; lra. }
    assert (Game.winCheck q1 = None) as Hwin by (apply winCheck_none; lra).
    rewrite Hwin.
    assert (302.5 < q - 10 - 10 * inject_Z (Z.of_nat k)) as Hlo' by lra.
    assert (q - 10 < 897.5) as Hhi' by lra.
    assert (50 <= now + 50)%Z as Hn' by lia.
    pose proof (IH (now + 50)%Z (Game.writeBack q1 None s) (q - 10)
                  Hn' Hq1 Hlo' Hhi' eq_refl eq_refl Hw Hs) as [Hp Hrest].
    split; [|exact Hrest].
    cbv zeta in Hp. rewrite Hp, Hk. lra.
Qed.

(** C9, as stated, fails: the thirtieth resolved pull puts the rope at
    300, which is already at or below the boundary 600 - 297.5 = 302.5, so
    the tick that resolves it declares player1 the winner. *)
Lemma thirtieth_pull_wins :
  let s30 := Scenario.resolvedPulls player1 30 1000 Scenario.playing in
  ropePosition Scenario.playing == 600
  /\ ropePosition s30 == 300
  /\ ropePosition s30 <= Game.centerX - Game.winDistance
  /\ winner s30 = Some player1
  /\ winner s30 <> None.
Proof. vm_compute. repeat split; discriminate. Qed.

(** C9 (amended). Starting from ropePosition = 600 in a running match
    with no pull pending, with only player1 pulling: after 29 resolved
    pulls the rope is at 310 and no winner is declared (the player1 win
    boundary is 600 - 297.5 = 302.5); the thirtieth resolved pull moves the
    rope to 300 and the tick that resolves it declares winner = player1 and
    sets isStarted = false, so the loop stops and no further pull is
    resolved. *)
Theorem thirty_pulls now s :
  (50 <= now)%Z -> ropePosition s == 600 ->
  player1Pulling s = false -> player2Pulling s = false ->
  winner s = None -> isStarted s = true ->
  let s29 := Scenario.resolvedPulls player1 29 now s in
  let s30 := Scenario.resolvedPulls player1 30 now s in
  Game.winDistance == 297.5
  /\ Game.centerX - Game.winDistance == 302.5
  /\ ropePosition s29 == 310 /\ winner s29 = None /\ isStarted s29 = true
  /\ Game.loopRuns s29 = true
  /\ ropePosition s30 == 300 /\ winner s30 = Some player1
  /\ isStarted s30 = false /\ Game.loopRuns s30 = false.
Proof.
  intros Hn Hq H1 H2 Hw Hs s29 s30.
  assert (302.5 < 600 - 10 * inject_Z (Z.of_nat 29)) as Hlo by reflexivity.
  assert (600 < 897.5) as Hhi by reflexivity.
  pose proof (pulls_before_boundary 29 now s 600 Hn Hq Hlo Hhi H1 H2 Hw Hs)
    as (Hp & Hf1 & Hf2 & Hw29 & Hs29).
  fold s29 in Hp, Hf1, Hf2, Hw29, Hs29.
  assert (ropePosition s29 == 310) as Hp' by (rewrite Hp; reflexivity).
  assert (s30 = Scenario.resolvedPull player1 (now + 50 * Z.of_nat 29) s29) as E30
    by (subst s30 s29; apply resolvedPulls_snoc).
  rewrite resolvedPull_player1 in E30 by (assumption || lia). cbv zeta in E30.
  set (q := Qmax _ _) in E30.
  assert (q == 300) as Hq30.
  { subst q. unfold_consts.
    destruct (Q.max_spec (600 - 350) (ropePosition s29 - 10)) as [[? ?]|[? ?]]; lra. }
  assert (Game.winCheck q = Some player1) as Hwin by (apply winCheck_player1; lra).
  rewrite Hwin in E30.
  split; [reflexivity|]. split; [reflexivity|].
  split; [exact Hp'|]. split; [exact Hw29|]. split; [exact Hs29|].
  split; [unfold Game.loopRuns; now rewrite Hs29, Hw29|].
  rewrite E30. cbn. repeat split. exact Hq30.
Qed.

Lemma thirty_pulls_witness :
  (50 <= 1000)%Z /\ ropePosition Scenario.playing == 600
  /\ ropePosition (Scenario.resolvedPulls player1 29 1000 Scenario.playing) == 310
  /\ winner (Scenario.resolvedPulls player1 29 1000 Scenario.playing) = None
  /\ winner (Scenario.resolvedPulls player1 30 1000 Scenario.playing) = Some player1.
Proof.
  assert (50 <= 1000)%Z as Hn by lia.
  assert (ropePosition Scenario.playing == 600) as Hq by reflexivity.
  pose proof (thirty_pulls 1000 Scenario.playing Hn Hq
                eq_refl eq_refl eq_refl eq_refl) as H.
  cbv zeta in H.
  destruct H as (_ & _ & H29 & W29 & _ & _ & _ & W30 & _).
  repeat split; assumption.
Defined.

End ThirtyPulls.

(** ** The scene: timeout and the updates it sends *)

Section SceneClaims.

Local Open Scope Q_scope.

Lemma timeUpWinner_player1 centerX sc :
  orElse (GameScene.rope sc) centerX - centerX <= 0 ->
  GameScene.timeUpWinner centerX sc = player1.
Proof.
  intros H. unfold GameScene.timeUpWinner.
  apply Qle_bool_iff in H. now rewrite H.
Qed.

Lemma timeUpWinner_player2 centerX sc :
  0 < orElse (GameScene.rope sc) centerX - centerX ->
  GameScene.timeUpWinner centerX sc = player2.
Proof.
  intros H. unfold GameScene.timeUpWinner.
  destruct (Qle_bool _ 0) eqn:E; [|reflexivity].
  apply Qle_bool_iff in E. lra.
Qed.

(** The scene draws the rope at the clamped shared position; clamping
    keeps the side of the centre the rope is on. *)
Lemma clamp_keeps_side centerX p :
  GameScene.clampRopePosition centerX p - centerX <= 0 <-> p <= centerX.
Proof.
  unfold GameScene.clampRopePosition, GameScene.ROPE_BOUNDS_MARGIN.
  destruct (Q.min_spec (centerX + 350 - 50) p) as [[? Hm]|[? Hm]];
  destruct (Q.max_spec (centerX - 350 + 50) (Qmin (centerX + 350 - 50) p))
    as [[? Hx]|[? Hx]]; split; intros; lra.
Qed.

(** After [startGameTimer], the first 59 callbacks of the timer event send
    nothing and the sixtieth runs [handleTimeUp]. *)
Lemma sixty_seconds centerX sc :
  GameScene.updateCallback sc = true ->
  snd (GameScene.seconds 59 centerX (GameScene.startGameTimer sc)) = None
  /\ snd (GameScene.seconds 60 centerX (GameScene.startGameTimer sc))
     = Some {| u_isStarted := Some false; u_ropePosition := None;
               u_player1Pulling := Some false; u_player2Pulling := Some false;
               u_winner := Some (Some (GameScene.timeUpWinner centerX sc));
               u_countdown := Some None;
               u_isCountingDown := Some (Some false) |}.
Proof.
  destruct sc as [pr c1 c2 lt cb rp tr te]. cbn. intros ->.
  split; vm_compute; reflexivity.
Qed.

(** C5. When the 60-second game timer expires the winner is decided by
    the rope's distance from the centre: distance <= 0 gives player1,
    otherwise player2; a rope exactly at the centre (distance == 0), or a
    missing rope sprite, gives player1.  The rope sprite sits at the
    clamped shared position, so player1 wins exactly when the shared
    position is at or left of the centre. *)
Theorem timeout_winner centerX sc :
  let distanceFromCenter := orElse (GameScene.rope sc) centerX - centerX in
  (distanceFromCenter <= 0 -> GameScene.timeUpWinner centerX sc = player1)
  /\ (0 < distanceFromCenter -> GameScene.timeUpWinner centerX sc = player2)
  /\ (distanceFromCenter == 0 -> GameScene.timeUpWinner centerX sc = player1)
  /\ (GameScene.rope sc = None -> GameScene.timeUpWinner centerX sc = player1)
  /\ (forall p, GameScene.rope sc = Some (GameScene.clampRopePosition centerX p) ->
      (p <= centerX -> GameScene.timeUpWinner centerX sc = player1)
      /\ (centerX < p -> GameScene.timeUpWinner centerX sc = player2))
  /\ (GameScene.updateCallback sc = true ->
      snd (GameScene.seconds 59 centerX (GameScene.startGameTimer sc)) = None
      /\ exists u,
           snd (GameScene.seconds 60 centerX (GameScene.startGameTimer sc)) = Some u
           /\ u_winner u = Some (Some (GameScene.timeUpWinner centerX sc))).
Proof.
  cbv zeta. repeat apply conj.
  - apply timeUpWinner_player1.
  - apply timeUpWinner_player2.
  - intros H. apply timeUpWinner_player1. lra.
  - intros H. apply timeUpWinner_player1. rewrite H. cbn. lra.
  - intros p H. split; intros Hp.
    + apply timeUpWinner_player1. rewrite H. cbn.
      now apply clamp_keeps_side.
    + apply timeUpWinner_player2. rewrite H. cbn.
      pose proof (clamp_keeps_side centerX p) as [Hc _].
      destruct (Qlt_le_dec 0 (GameScene.clampRopePosition centerX p - centerX))
        as [|Hle]; [assumption|]. specialize (Hc Hle). lra.
  - intros H. destruct (sixty_seconds centerX sc H) as [E59 E60].
    split; [exact E59|]. eexists. split; [exact E60|]. reflexivity.
Qed.

Lemma timeout_winner_witness :
  let sc := Scenario.sceneFor player1 Scenario.playing in
  orElse (GameScene.rope sc) 600 - 600 == 0
  /\ GameScene.timeUpWinner 600 sc = player1.
Proof.
  intros sc.
  assert (orElse (GameScene.rope sc) 600 - 600 == 0) as H0 by reflexivity.
  split; [exact H0|].
  exact (proj1 (proj2 (proj2 (timeout_winner 600 sc))) H0).
Defined.

(** C8, as stated, fails.  When player1 presses the key, [handlePull]
    sends player2Pulling = false along with player1Pulling = true; at
    timeout [handleTimeUp] sends the winner and clears both flags; the win
    screen ([handleWin]) sends the winner, clears both flags and writes
    ropePosition = 300. *)
Lemma scene_writes_more :
  let sc := Scenario.sceneFor player1 Scenario.playing in
  (exists u, snd (GameScene.handlePull 1000 sc) = Some u
             /\ u_player1Pulling u = Some true
             /\ u_player2Pulling u = Some false
             /\ ~ onlySetsPulling u)
  /\ (exists u, snd (GameScene.handleTimeUp 600 sc) = Some u
                /\ u_winner u = Some (Some player1)
                /\ u_player1Pulling u = Some false
                /\ ~ onlySetsPulling u)
  /\ (exists u, snd (GameScene.handleWin player1 sc) = Some u
                /\ u_ropePosition u = Some 300
                /\ u_winner u = Some (Some player1)
                /\ u_player2Pulling u = Some false
                /\ ~ onlySetsPulling u).
Proof.
  cbv zeta. repeat apply conj; eexists;
    (split; [vm_compute; reflexivity|]);
    repeat (split; [reflexivity|]);
    intros (H1 & H2 & H3 & H4); cbn in *; congruence.
Qed.

(** C8 (amended). Every update [handlePull] sends consists of the two
    pulling flags only - no rope position, no winner, no other field - with
    the local player's own flag true and the other flag copied from the
    scene's local mirror (which may be false).  [handleTimeUp] sends the
    winner, isStarted = false and both flags false, and no rope position.
    [handleWin] sends the winner, both flags false and ropePosition = 300
    for player1 or 900 for player2. *)
Theorem scene_updates now centerX won sc u :
  (snd (GameScene.handlePull now sc) = Some u ->
     u_ropePosition u = None /\ u_winner u = None /\ u_isStarted u = None
     /\ u_countdown u = None /\ u_isCountingDown u = None
     /\ (GameScene.playerRole sc = Some player1 ->
         u_player1Pulling u = Some true
         /\ u_player2Pulling u = Some (GameScene.currentPlayer2Pulling sc))
     /\ (GameScene.playerRole sc = Some player2 ->
         u_player2Pulling u = Some true
         /\ u_player1Pulling u = Some (GameScene.currentPlayer1Pulling sc)))
  /\ (snd (GameScene.handleTimeUp centerX sc) = Some u ->
      u_ropePosition u = None
      /\ u_winner u = Some (Some (GameScene.timeUpWinner centerX sc))
      /\ u_isStarted u = Some false
      /\ u_player1Pulling u = Some false /\ u_player2Pulling u = Some false)
  /\ (snd (GameScene.handleWin won sc) = Some u ->
      u_ropePosition u = Some (match won with player1 => 300 | player2 => 900 end)
      /\ u_winner u = Some (Some won)
      /\ u_isStarted u = Some false
      /\ u_player1Pulling u = Some false /\ u_player2Pulling u = Some false).
Proof.
  repeat apply conj.
  - unfold GameScene.handlePull.
    destruct (_ <? _)%Z; [discriminate|].
    destruct (GameScene.playerRole sc) as [[]|];
      destruct (GameScene.currentPlayer1Pulling sc),
               (GameScene.currentPlayer2Pulling sc);
      cbn; try discriminate;
      destruct (GameScene.updateCallback sc); try discriminate;
      intros E; inversion E; subst; cbn;
      repeat split; try reflexivity; intros; discriminate.
  - unfold GameScene.handleTimeUp. cbn.
    destruct (GameScene.updateCallback sc); [|discriminate].
    intros E; inversion E; subst; cbn. repeat split.
  - unfold GameScene.handleWin.
    destruct (_ || _); [discriminate|]. cbn.
    intros E; inversion E; subst; cbn. repeat split.
Qed.

Lemma scene_updates_witness :
  let sc := Scenario.sceneFor player1 Scenario.playing in
  exists u, snd (GameScene.handlePull 1000 sc) = Some u
            /\ u_ropePosition u = None /\ u_winner u = None
            /\ u_player1Pulling u = Some true.
Proof.
  intros sc. eexists. split; [vm_compute; reflexivity|].
  match goal with |- u_ropePosition ?u = _ /\ _ =>
    pose proof (proj1 (scene_updates 1000 600 player1 sc u) eq_refl)
      as (Hr & Hw & _ & _ & _ & H1 & _)
  end.
  split; [exact Hr|]. split; [exact Hw|]. exact (proj1 (H1 eq_refl)).
Defined.

End SceneClaims.

(** ** Joining *)

Section JoinClaims.

Local Arguments Js.sameAddress : simpl never.

Lemma get_assign_eq {V} (o : list (string * V)) k v :
  Js.get (Js.assign o k v) k = Some v.
Proof.
  induction o as [|[k' v'] o IH]; cbn.
  - now rewrite String.eqb_refl.
  - destruct (String.eqb k' k) eqn:E; cbn.
    + now rewrite String.eqb_refl.
    + now rewrite E.
Qed.

Lemma decideJoin_eq address s :
  address <> "" ->
  Home.decideJoin (Some address) true s =
    if present address s then Home.AlreadyInGame
    else if negb (0 <? Z.of_nat (length (players s))) then Home.JoinAs player1
    else if negb (taken player2 s) then Home.JoinAs player2
    else Home.RoomFull.
Proof.
  intros Hne. unfold Home.decideJoin.
  apply String.eqb_neq in Hne. rewrite Hne. reflexivity.
Qed.

Lemma sameAddress_sym a b : Js.sameAddress a b = Js.sameAddress b a.
Proof. unfold Js.sameAddress. apply String.eqb_sym. Qed.

Lemma sameAddress_refl a : Js.sameAddress a a = true.
Proof. unfold Js.sameAddress. apply String.eqb_refl. Qed.

Lemma sameAddress_false_neq a b : Js.sameAddress a b = false -> String.eqb a b = false.
Proof.
  intros H. apply String.eqb_neq. intros ->. now rewrite sameAddress_refl in H.
Qed.

(** A join request keeps the room in one of its three shapes. *)
Lemma join_shape room address s :
  LobbyShape (players s) -> LobbyShape (players (Home.join room address s)).
Proof.
  intros Hs. unfold Home.join, Home.handlePlayerJoin.
  destruct (String.eqb address "") eqn:Hne.
  { unfold Home.decideJoin. rewrite Hne. exact Hs. }
  apply String.eqb_neq in Hne. rewrite decideJoin_eq by exact Hne.
  unfold present, taken.
  destruct s as [ps rid st rp p1 p2 w fin ssb cd icd]. cbn in *.
  destruct Hs as [|a|a b Hab]; simpl.
  - constructor.
  - destruct (Js.sameAddress a address) eqn:Ha; simpl.
    + constructor.
    + rewrite (sameAddress_false_neq _ _ Ha). now constructor.
  - destruct (Js.sameAddress a address); simpl; [now constructor|].
    destruct (Js.sameAddress b address); simpl; now constructor.
Qed.

Lemma joins_shape room addresses : forall s,
  LobbyShape (players s) -> LobbyShape (players (joins room addresses s)).
Proof.
  induction addresses as [|a l IH]; intros s Hs; [exact Hs|].
  cbn. apply IH. now apply join_shape.
Qed.

(** Join requests decided on the state their update is applied to.  For
    every such request of a connected wallet: into a room with
    no players it is assigned player1; into a room whose only player holds
    player1 (and is another address) it is assigned player2; when both
    roles are taken it is rejected with the error "Room is full", the state
    is not changed and a redirect to "/" is scheduled; when the address is
    already among the players the request changes nothing.  Hence for every
    sequence of such join requests the room holds at most two players,
    player1 first. *)
Theorem join_assigns_roles room address s :
  address <> "" ->
  (players s = [] ->
     Home.decideJoin (Some address) true s = Home.JoinAs player1
     /\ players (Home.join room address s) = [(address, mkPlayer player1 false)])
  /\ (forall a1 p1,
       players s = [(a1, p1)] -> role p1 = player1 ->
       Js.sameAddress a1 address = false ->
       Home.decideJoin (Some address) true s = Home.JoinAs player2
       /\ players (Home.join room address s)
          = [(a1, p1); (address, mkPlayer player2 false)])
  /\ (taken player1 s = true -> taken player2 s = true ->
      present address s = false ->
      (forall prev,
         Home.handlePlayerJoin room (Some address) true s prev
         = (prev, [Home.SetError "Room is full"; Home.NavigateAfter 2000 "/"]))
      /\ Home.join room address s = s)
  /\ (present address s = true ->
      (forall prev,
         Home.handlePlayerJoin room (Some address) true s prev = (prev, []))
      /\ Home.join room address s = s)
  /\ (forall p, Js.get (players s) address = Some p -> present address s = true)
  /\ (forall addresses,
       LobbyShape (players (joins room addresses (initialState room)))).
Proof.
  intros Hne. repeat apply conj.
  - intros E. unfold Home.join, Home.handlePlayerJoin.
    rewrite decideJoin_eq by exact Hne. unfold present, taken. rewrite E. simpl.
    split; [reflexivity|]. now rewrite E.
  - intros a1 p1 E Hr Ha. unfold Home.join, Home.handlePlayerJoin.
    rewrite decideJoin_eq by exact Hne. unfold present, taken. rewrite E. simpl.
    rewrite Ha, Hr. simpl. split; [reflexivity|].
    rewrite E. simpl. now rewrite (sameAddress_false_neq _ _ Ha).
  - intros H1 H2 Hp.
    assert (Home.decideJoin (Some address) true s = Home.RoomFull) as Hd.
    { rewrite decideJoin_eq by exact Hne. rewrite Hp, H2.
      unfold taken in H2. destruct (players s); [discriminate|reflexivity]. }
    unfold Home.join, Home.handlePlayerJoin. rewrite Hd. now split.
  - intros Hp.
    assert (Home.decideJoin (Some address) true s = Home.AlreadyInGame) as Hd
      by (rewrite decideJoin_eq by exact Hne; now rewrite Hp).
    unfold Home.join, Home.handlePlayerJoin. rewrite Hd. now split.
  - intros p. unfold present, Js.findEntry.
    induction (players s) as [|[k v] l IH]; cbn; [discriminate|].
    destruct (String.eqb k address) eqn:E.
    + apply String.eqb_eq in E. subst k. now rewrite sameAddress_refl.
    + intros H. destruct (Js.sameAddress k address); [reflexivity|]. now apply IH.
  - intros addresses. apply joins_shape. constructor.
Qed.

Lemma join_assigns_roles_witness :
  Scenario.alice <> ""
  /\ players (initialState (Some Scenario.room)) = []
  /\ players (Home.join (Some Scenario.room) Scenario.alice
                (initialState (Some Scenario.room)))
     = [(Scenario.alice, mkPlayer player1 false)]
  /\ present Scenario.bob Scenario.lobby = true
  /\ Home.join (Some Scenario.room) Scenario.bob Scenario.lobby = Scenario.lobby
  /\ taken player1 Scenario.lobby = true /\ taken player2 Scenario.lobby = true
  /\ present Scenario.carol Scenario.lobby = false
  /\ Home.join (Some Scenario.room) Scenario.carol Scenario.lobby = Scenario.lobby.
Proof.
  assert (Scenario.alice <> "") as Ha by discriminate.
  assert (Scenario.bob <> "") as Hb by discriminate.
  assert (Scenario.carol <> "") as Hc by discriminate.
  split; [exact Ha|]. split; [reflexivity|].
  split.
  { exact (proj2 (proj1 (join_assigns_roles (Some Scenario.room) Scenario.alice
                           (initialState (Some Scenario.room)) Ha) eq_refl)). }
  split; [reflexivity|].
  split.
  { exact (proj2 (proj1 (proj2 (proj2 (proj2
            (join_assigns_roles (Some Scenario.room) Scenario.bob
               Scenario.lobby Hb)))) eq_refl)). }
  split; [reflexivity|]. split; [reflexivity|]. split; [reflexivity|].
  exact (proj2 (proj1 (proj2 (proj2
           (join_assigns_roles (Some Scenario.room) Scenario.carol
              Scenario.lobby Hc))) eq_refl eq_refl eq_refl)).
Defined.

(** C6 fails when a join request is decided on a rendering of the room
    that is older than the state its update is applied to:
    [handlePlayerJoin] runs 300 ms after the render whose [safeGameState]
    it reads, and its update spreads [prevState].  Alice and Bob open the
    empty room together: both requests are decided on the empty room, and
    Bob is assigned player1 in a room that already holds Alice as player1
    (decided on that room, the request is assigned player2).  Carol's
    request, decided on the room that holds only Alice, is applied to the
    room that holds Alice and Bob with both roles taken: it is not
    rejected, nothing redirects her, and the room has three players. *)
Theorem join_on_stale_snapshot :
  let room := Some Scenario.room in
  let empty := initialState room in
  let one := fst (Home.handlePlayerJoin room (Some Scenario.alice) true empty empty) in
  let raced := fst (Home.handlePlayerJoin room (Some Scenario.bob) true empty one) in
  let full := fst (Home.handlePlayerJoin room (Some Scenario.bob) true one one) in
  let late := Home.handlePlayerJoin room (Some Scenario.carol) true one full in
  players empty = []
  /\ players one = [(Scenario.alice, mkPlayer player1 false)]
  /\ players raced = [(Scenario.alice, mkPlayer player1 false);
                      (Scenario.bob, mkPlayer player1 false)]
  /\ taken player2 raced = false
  /\ Home.decideJoin (Some Scenario.bob) true one = Home.JoinAs player2
  /\ players full = [(Scenario.alice, mkPlayer player1 false);
                     (Scenario.bob, mkPlayer player2 false)]
  /\ taken player1 full = true /\ taken player2 full = true
  /\ present Scenario.carol full = false
  /\ players (fst late) = [(Scenario.alice, mkPlayer player1 false);
                           (Scenario.bob, mkPlayer player2 false);
                           (Scenario.carol, mkPlayer player2 false)]
  /\ snd late = []
  /\ fst late <> full.
Proof.
  cbv zeta. repeat split; try reflexivity.
  intros H. apply (f_equal (fun s => length (players s))) in H.
  vm_compute in H. discriminate.
Qed.

End JoinClaims.

(** ** The start countdown *)

Section CountdownClaims.

Local Open Scope Z_scope.






End CountdownClaims.

(** ** The settlement client *)

Section ServiceClaims.

Import BlockchainService.

(** Once initialised the singleton has its contract handle, and only an
    initialised singleton has finished games. *)
Lemma service_invariant s :
  BlockchainService.Reachable s ->
  (isInitialized s = true -> tugOfWarContract s = true)
  /\ (isInitialized s = false -> finishedGames s = ∅).
Proof.
  induction 1 as [|s a _ [IH1 IH2]|s a c _ [IH1 IH2]|s room hs o _ [IH1 IH2]
                 |s room w o _ [IH1 IH2]].
  - split; [discriminate|reflexivity].
  - split; [reflexivity|discriminate].
  - cbn. split; intros Hi; [rewrite (IH1 Hi); reflexivity|now apply IH2].
  - unfold stake.
    destruct (isInitialized s) eqn:Ei; cbn; [|split; intros; auto; congruence].
    rewrite (IH1 eq_refl). cbn.
    destruct hs; cbn; [split; intros; auto; congruence|].
    destruct o; cbn; split; intros; auto; congruence.
  - unfold finishGame, finishGame_begin.
    destruct (isInitialized s) eqn:Ei; cbn; [|split; intros; auto; congruence].
    rewrite (IH1 eq_refl). cbn.
    destruct (bool_decide _); cbn; [split; intros; auto; congruence|].
    destruct o; cbn; split; intros; auto; congruence.
Qed.

Lemma finishGame_begin_finished s room w :
  isInitialized s = true -> tugOfWarContract s = true ->
  room ∈ finishedGames s ->
  finishGame_begin s room w = SkippedDuplicate.
Proof.
  intros Hi Hc Hin. unfold finishGame_begin. rewrite Hi, Hc. cbn.
  now rewrite bool_decide_eq_true_2.
Qed.

Lemma finishGame_begin_open s room w :
  isInitialized s = true -> tugOfWarContract s = true ->
  room ∉ finishedGames s ->
  finishGame_begin s room w = Sent (mkCall room w).
Proof.
  intros Hi Hc Hin. unfold finishGame_begin. rewrite Hi, Hc. cbn.
  now rewrite bool_decide_eq_false_2.
Qed.

(** C10. [finishGame] on a room that is in [finishedGames] resolves
    without calling the contract and without changing the service.  On a
    room that is not, it calls the contract once; the room enters
    [finishedGames] only when the transaction is confirmed; when the send
    or the wait fails the promise rejects and the service - [finishedGames]
    included - is unchanged, so a later retry calls the contract again.
    After a confirmed call a further [finishGame] makes no call. *)
Theorem finishGame_guarded svc room winnerAddress :
  BlockchainService.Reachable svc ->
  (room ∈ finishedGames svc ->
     forall o, finishGame svc room winnerAddress o = (svc, Resolved tt, []))
  /\ (isInitialized svc = true -> room ∉ finishedGames svc ->
      forall o, o <> Confirmed ->
        finishGame svc room winnerAddress o
        = (svc, Rejected TransactionFailed, [mkCall room winnerAddress])
        /\ finishedGames (fst (fst (finishGame svc room winnerAddress o)))
           = finishedGames svc
        /\ forall o', snd (finishGame (fst (fst (finishGame svc room winnerAddress o)))
                             room winnerAddress o')
                      = [mkCall room winnerAddress])
  /\ (isInitialized svc = true -> room ∉ finishedGames svc ->
      finishGame svc room winnerAddress Confirmed
      = (addFinished svc room, Resolved tt, [mkCall room winnerAddress])
      /\ (room ∈ finishedGames (addFinished svc room))
      /\ forall w' o', finishGame (addFinished svc room) room w' o'
                       = (addFinished svc room, Resolved tt, []))
  /\ (forall o, finishedGames (fst (finishGame_settle svc room o)) ≠ finishedGames svc ->
        o = Confirmed)
  /\ (isInitialized svc = false ->
      forall o, finishGame svc room winnerAddress o
                = (svc, Rejected NotInitialized, [])).
Proof.
  intros Hr. destruct (service_invariant svc Hr) as [Hc He].
  repeat apply conj.
  - intros Hin o.
    assert (isInitialized svc = true) as Hi.
    { destruct (isInitialized svc); [reflexivity|].
      rewrite (He eq_refl) in Hin. set_solver. }
    unfold finishGame. now rewrite finishGame_begin_finished by auto.
  - intros Hi Hout o Ho.
    assert (finishGame svc room winnerAddress o
            = (svc, Rejected TransactionFailed, [mkCall room winnerAddress])) as E.
    { unfold finishGame. rewrite finishGame_begin_open by auto.
      destruct o; [reflexivity|reflexivity|contradiction]. }
    rewrite E. cbn [fst snd]. repeat split.
    intros o'. unfold finishGame. rewrite finishGame_begin_open by auto.
    now destruct (finishGame_settle svc room o').
  - intros Hi Hout.
    assert (room ∈ finishedGames (addFinished svc room)) as Hin
      by (cbn; set_solver).
    repeat split.
    + unfold finishGame. now rewrite finishGame_begin_open by auto.
    + exact Hin.
    + intros w' o'. unfold finishGame.
      now rewrite finishGame_begin_finished by (cbn; auto).
  - intros o Hne. destruct o; cbn in Hne; congruence.
  - intros Hi o. unfold finishGame, finishGame_begin. now rewrite Hi.
Qed.

Lemma finishGame_guarded_witness :
  let svc := initialize fresh Scenario.alice in
  BlockchainService.Reachable svc
  /\ isInitialized svc = true
  /\ (Scenario.room ∉ finishedGames svc)
  /\ finishGame svc Scenario.room Scenario.alice Reverted
     = (svc, Rejected TransactionFailed, [mkCall Scenario.room Scenario.alice])
  /\ (Scenario.room ∈ finishedGames (addFinished svc Scenario.room))
  /\ finishGame (addFinished svc Scenario.room) Scenario.room Scenario.alice Confirmed
     = (addFinished svc Scenario.room, Resolved tt, []).
Proof.
  intros svc.
  assert (BlockchainService.Reachable svc) as Hr by (repeat constructor).
  assert (isInitialized svc = true) as Hi by reflexivity.
  assert (Scenario.room ∉ finishedGames svc) as Hout by (cbn; set_solver).
  assert (Reverted <> Confirmed) as Hne by discriminate.
  assert (BlockchainService.Reachable (addFinished svc Scenario.room)) as Hr'.
  { change (addFinished svc Scenario.room) with
      (fst (fst (finishGame svc Scenario.room Scenario.alice Confirmed))).
    now constructor. }
  assert (Scenario.room ∈ finishedGames (addFinished svc Scenario.room)) as Hin
    by (cbn; set_solver).
  split; [exact Hr|]. split; [exact Hi|]. split; [exact Hout|].
  split.
  { exact (proj1 (proj1 (proj2 (finishGame_guarded svc Scenario.room
                                  Scenario.alice Hr)) Hi Hout Reverted Hne)). }
  split; [exact Hin|].
  exact (proj1 (finishGame_guarded (addFinished svc Scenario.room)
                  Scenario.room Scenario.alice Hr') Hin Confirmed).
Defined.

End ServiceClaims.

(** ** The settlement trigger *)

Section SettlementClaims.

Import BlockchainService.

(** Only the participant whose address is that of the first player1
    entry calls [finishGame]; on every other process the block leaves the
    refs alone. *)
Lemma finishTask_other_address svc r t a1 p1 me :
  Js.findEntry (Game.hasRole player1) (Game.t_players t) = Some (a1, p1) ->
  signer svc = Some me -> Js.sameAddress a1 me = false ->
  Game.finishTaskBody svc r t = (r, None).
Proof.
  intros Hf Hs Hne. unfold Game.finishTaskBody, getCurrentAddress, isReady.
  destruct (isInitialized svc); [|reflexivity]. cbn.
  now rewrite Hs, Hf, Hne.
Qed.

(** The block sets the latch whenever it makes the call, and never clears
    it. *)
Lemma finishTask_latch svc r t :
  let '(r', call) := Game.finishTaskBody svc r t in
  (call <> None -> Game.finishGameCalledRef r' = true)
  /\ (Game.finishGameCalledRef r = true -> Game.finishGameCalledRef r' = true).
Proof.
  unfold Game.finishTaskBody.
  destruct (isReady svc); [|now split].
  destruct (getCurrentAddress svc); [|now split].
  destruct (Js.findEntry _ _) as [[a1 p1]|]; [|now split].
  destruct (Js.sameAddress a1 a); [|now split].
  destruct (Js.findEntry _ _) as [[w pw]|]; now split.
Qed.

(** With the latch set the update function starts no settlement block. *)
Lemma latch_blocks_guard won cur prev r :
  Game.finishGameCalledRef r = true -> Game.finishGuard won cur prev r = None.
Proof.
  intros H. unfold Game.finishGuard. rewrite H.
  destruct won, (roomId cur) as [room|]; try reflexivity.
  destruct (String.eqb room ""); [reflexivity|].
  now destruct (Js.truthy _).
Qed.

Lemma tick_latch now r cur prev :
  Game.finishGameCalledRef (Game.refs (Game.gameLoopTick now r cur prev))
  = Game.finishGameCalledRef r.
Proof.
  destruct cur as [cur|]; [|reflexivity].
  rewrite gameLoopTick_eq. cbv zeta.
  destruct (_ || _); [|reflexivity].
  now destruct (_ <? _)%Z.
Qed.

Lemma tick_latched_starts_nothing now r cur prev :
  Game.finishGameCalledRef r = true ->
  Game.started (Game.gameLoopTick now r cur prev) = None.
Proof.
  intros H. destruct cur as [cur|]; [|reflexivity].
  rewrite gameLoopTick_eq. cbv zeta.
  destruct (_ || _); [|reflexivity].
  destruct (_ <? _)%Z; [reflexivity|]. cbn. now apply latch_blocks_guard.
Qed.

(** A process whose latch is set and that has no block waiting never
    calls the contract again, whatever happens, failures included: the
    latch is not reset by a rejected transaction. *)
Lemma latched_client_silent es : forall c,
  Game.c_waiting c = [] -> Game.finishGameCalledRef (Game.c_refs c) = true ->
  snd (Game.run es c) = []
  /\ Game.finishGameCalledRef (Game.c_refs (fst (Game.run es c))) = true.
Proof.
  induction es as [|e es IH]; intros c Hw Hl; [now split|].
  cbn [Game.run].
  assert (snd (Game.step e c) = []
          /\ Game.c_waiting (fst (Game.step e c)) = []
          /\ Game.finishGameCalledRef (Game.c_refs (fst (Game.step e c))) = true)
    as (Hs & Hw' & Hl').
  { destruct e as [now cur| |o|s]; cbn.
    - rewrite Hw, tick_latched_starts_nothing by exact Hl.
      rewrite tick_latch. now repeat split.
    - rewrite Hw. now repeat split.
    - destruct (Game.c_inflight c) as [|k rest]; [now repeat split|].
      destruct o; cbn; now repeat split.
    - now repeat split. }
  destruct (Game.step e c) as [c1 k1]. cbn in Hs, Hw', Hl'. subst k1.
  destruct (IH c1 Hw' Hl') as [Hk Hlatch].
  destruct (Game.run es c1) as [c2 k2]. cbn in *. now subst.
Qed.

Lemma finishTask_observer svc r t me :
  signer svc = Some me -> Game.notCreator me (Game.t_players t) ->
  Game.finishTaskBody svc r t = (r, None).
Proof.
  intros Hs Hn. unfold Game.finishTaskBody, getCurrentAddress, isReady.
  destruct (isInitialized svc); [|reflexivity]. cbn. rewrite Hs.
  unfold Game.notCreator in Hn.
  destruct (Js.findEntry _ _) as [[a1 p1]|]; [|reflexivity].
  now rewrite Hn.
Qed.

Lemma tick_started_players now r cur prev t :
  Game.started (Game.gameLoopTick now r (Some cur) prev) = Some t ->
  Game.t_players t = players cur.
Proof.
  rewrite gameLoopTick_eq. cbv zeta.
  destruct (_ || _); [|discriminate].
  destruct (_ <? _)%Z; [discriminate|]. cbn. unfold Game.finishGuard.
  destruct (Game.winCheck _), (roomId cur) as [room|]; try discriminate.
  destruct (String.eqb room ""); [discriminate|].
  destruct (Js.truthy _); [discriminate|].
  destruct (Game.finishGameCalledRef r); [discriminate|].
  intros E. inversion E. reflexivity.
Qed.

(** A process whose address is not player1's never calls the contract,
    however many winning ticks it runs. *)
Lemma observer_never_calls me es : forall c,
  signer (Game.c_service c) = Some me ->
  Forall (fun t => Game.notCreator me (Game.t_players t)) (Game.c_waiting c) ->
  Forall (Game.observes me) es ->
  snd (Game.run es c) = [].
Proof.
  induction es as [|e es IH]; intros c Hs Hw Ho; [reflexivity|].
  inversion Ho as [|e' es' He Hes]; subst.
  cbn [Game.run].
  assert (snd (Game.step e c) = []
          /\ signer (Game.c_service (fst (Game.step e c))) = Some me
          /\ Forall (fun t => Game.notCreator me (Game.t_players t))
               (Game.c_waiting (fst (Game.step e c)))) as (Hk & Hs' & Hw').
  { destruct e as [now cur| |o|s]; cbn.
    - repeat split; [exact Hs|]. apply Forall_app. split; [exact Hw|].
      destruct cur as [cur|]; [|constructor].
      destruct (Game.started _) as [t|] eqn:Et; [|constructor].
      constructor; [|constructor].
      rewrite (tick_started_players _ _ _ _ _ Et). exact He.
    - destruct (Game.c_waiting c) as [|t rest] eqn:Ew.
      + cbn. rewrite Ew. repeat split; [exact Hs|constructor].
      + inversion Hw as [|t' rest' Ht Hrest]; subst.
        rewrite (finishTask_observer _ _ _ _ Hs Ht). cbn.
        repeat split; assumption.
    - destruct (Game.c_inflight c) as [|k rest]; [now repeat split|].
      destruct o; cbn; repeat split; assumption.
    - repeat split; assumption. }
  destruct (Game.step e c) as [c1 k1]. cbn in Hk, Hs', Hw'. subst k1.
  specialize (IH c1 Hs' Hw' Hes).
  destruct (Game.run es c1) as [c2 k2]. cbn in *. now subst.
Qed.

Lemma run_app es1 : forall es2 c,
  Game.run (es1 ++ es2) c =
    let '(c1, k1) := Game.run es1 c in
    let '(c2, k2) := Game.run es2 c1 in
    (c2, k1 ++ k2).
Proof.
  induction es1 as [|e es1 IH]; intros es2 c.
  - cbn. now destruct (Game.run es2 c).
  - cbn [Game.run app]. destruct (Game.step e c) as [c1 k1].
    rewrite IH. destruct (Game.run es1 c1) as [c2 k2].
    destruct (Game.run es2 c2) as [c3 k3]. now rewrite app_assoc.
Qed.

(** One event of a prompt schedule: no block is left waiting, and a call
    was made only together with setting the latch. *)
Lemma prompt_event e c :
  Game.c_waiting c = [] ->
  let '(c1, k1) := Game.run (Game.prompt e) c in
  Game.c_waiting c1 = []
  /\ (k1 = [] \/
      (length k1 = 1%nat /\ Game.finishGameCalledRef (Game.c_refs c1) = true)).
Proof.
  intros Hw. destruct e as [now cur|o|s]; cbn.
  - rewrite Hw. cbn.
    destruct (Game.started _) as [t|]; cbn; [|now split; [|left]].
    pose proof (finishTask_latch (Game.c_service c)
                  (Game.refs (Game.gameLoopTick now (Game.c_refs c) cur (Game.c_state c))) t)
      as Hl.
    destruct (Game.finishTaskBody _ _ t) as [r' [[room w]|]]; cbn;
      [|now split; [|left]].
    destruct Hl as [Hl _].
    destruct (finishGame_begin _ room w); cbn; (split; [reflexivity|]);
      [now left|now left|right; split; [reflexivity|now apply Hl]].
  - destruct (Game.c_inflight c) as [|k rest]; cbn; [now split; [|left]|].
    destruct o; cbn; (split; [exact Hw|now left]).
  - split; [exact Hw|now left].
Qed.

(** When every settlement block continues before the interval fires
    again, one process calls the contract at most once. *)
Lemma prompt_at_most_once es : forall c,
  Game.c_waiting c = [] ->
  (length (snd (Game.run (Game.promptSchedule es) c)) <= 1)%nat.
Proof.
  induction es as [|e es IH]; intros c Hw; [cbn; lia|].
  change (Game.promptSchedule (e :: es))
    with (Game.prompt e ++ Game.promptSchedule es).
  rewrite run_app.
  pose proof (prompt_event e c Hw) as He.
  destruct (Game.run (Game.prompt e) c) as [c1 k1].
  destruct He as [Hw1 [->|[Hlen Hl]]].
  - specialize (IH c1 Hw1).
    destruct (Game.run (Game.promptSchedule es) c1) as [c2 k2]. exact IH.
  - destruct (latched_client_silent (Game.promptSchedule es) c1 Hw1 Hl) as [Hk _].
    destruct (Game.run (Game.promptSchedule es) c1) as [c2 k2].
    cbn in Hk. subst k2. cbn. rewrite app_nil_r. lia.
Qed.

(** C1 fails on player1's own process when two write-backs with a winner
    run before the first settlement block has passed its awaits: at match
    point the interval fires at 2450 ms and again at 2500 ms on the same
    snapshot; both update functions find the latch clear and start a
    block; when the blocks continue each sets the latch and calls
    [finishGame], neither finds the room in [finishedGames], and the
    contract's [finishGame] is called twice for the room. *)
Theorem settlement_called_twice :
  let s := Scenario.matchPoint in
  let '(c, calls) :=
    Game.run [Game.Tick 2450 (Some s); Game.Tick 2500 (Some s);
              Game.Resume; Game.Resume] (Scenario.aliceClient s) in
  winner (Game.c_state c) = Some player1
  /\ Game.finishGameCalledRef (Game.c_refs c) = true
  /\ calls = [mkCall Scenario.room Scenario.alice;
              mkCall Scenario.room Scenario.alice].
Proof. vm_compute. repeat split. Qed.

(** On the same inputs, a block that continues before the next tick
    leaves the latch set in time, and player2's process never calls. *)
Example settlement_prompt_once :
  let s := Scenario.matchPoint in
  snd (Game.run [Game.Tick 2450 (Some s); Game.Resume;
                 Game.Tick 2500 (Some s); Game.Resume;
                 Game.Settle Reverted; Game.Tick 2550 (Some s); Game.Resume]
         (Scenario.aliceClient s))
  = [mkCall Scenario.room Scenario.alice]
  /\ snd (Game.run [Game.Tick 2450 (Some s); Game.Tick 2500 (Some s);
                    Game.Resume; Game.Resume] (Scenario.bobClient s))
     = [].
Proof. vm_compute. split; reflexivity. Qed.

End SettlementClaims.

(** ** The contract *)

Section ContractProperties.

Import TugOfWarAutoReward.
Local Open Scope N_scope.
Local Arguments TugOfWarAutoReward.room : simpl never.

Lemma room_insert_eq rooms roomId r :
  room (<[roomId := r]> rooms) roomId = r.
Proof. unfold room. now rewrite lookup_insert_eq. Qed.

Lemma room_insert_ne rooms roomId roomId' r :
  roomId <> roomId' -> room (<[roomId := r]> rooms) roomId' = room rooms roomId'.
Proof. intros H. unfold room. now rewrite lookup_insert_ne. Qed.

Lemma roomOk_noRoom : RoomOk noRoom.
Proof. cbn. repeat split; try easy. Qed.

Lemma stake_keeps_ok rooms sender value roomId :
  RoomOk (room rooms roomId) ->
  RoomOk (room (storageAfter rooms (stake rooms sender value roomId)) roomId).
Proof.
  intros Hok. unfold stake.
  destruct (negb (value =? STAKE_AMOUNT)) eqn:Ev; [exact Hok|].
  apply negb_false_iff, N.eqb_eq in Ev. subst value.
  destruct (_ || _) eqn:Es; [exact Hok|].
  apply orb_false_iff in Es as [Es1 Es2].
  apply N.eqb_neq in Es1, Es2.
  destruct (room rooms roomId) as [p1 p2 ts act fin w] eqn:Er. cbn in *.
  unfold RoomOk in Hok. cbn in Hok.
  destruct (N.eqb_spec p1 0) as [E1|E1]; cbn.
  - destruct (_ <? _); cbn; [rewrite Er; exact Hok|].
    rewrite room_insert_eq. subst p1. unfold RoomOk. cbn.
    destruct fin; [tauto|].
    destruct Hok as (Hw & H21 & Hact & Hts & Hne).
    assert (p2 = 0) as -> by (destruct (N.eq_dec p2 0); [assumption|tauto]).
    unfold seats in *. cbn in *.
    destruct (N.eqb_spec sender 0) as [E|E]; [congruence|].
    repeat split; try easy. rewrite Hts. lia.
  - destruct (N.eqb_spec p2 0) as [E2|E2]; cbn; [|rewrite Er; exact Hok].
    destruct (_ <? _); cbn; [rewrite Er; exact Hok|].
    rewrite room_insert_eq. subst p2. unfold RoomOk. cbn.
    destruct fin; [tauto|].
    destruct Hok as (Hw & H21 & Hact & Hts & Hne).
    unfold seats in *. cbn in *.
    destruct (N.eqb_spec p1 0) as [E|E]; [congruence|].
    destruct (N.eqb_spec sender 0) as [E'|E']; [congruence|].
    repeat split; try easy; try congruence. rewrite Hts. lia.
Qed.

Lemma finishGame_keeps_ok rooms roomId won sent :
  RoomOk (room rooms roomId) ->
  RoomOk (room (storageAfter rooms (finishGame rooms roomId won sent)) roomId).
Proof.
  intros Hok. unfold finishGame.
  destruct (room rooms roomId) as [p1 p2 ts act fin w] eqn:Er. cbn in *.
  destruct act; cbn; [|rewrite Er; exact Hok].
  destruct fin; cbn; [rewrite Er; exact Hok|].
  destruct (N.eqb_spec p2 0) as [E2|E2]; cbn; [rewrite Er; exact Hok|].
  destruct (_ || _) eqn:Ew; cbn; [|rewrite Er; exact Hok].
  destruct sent; cbn; [|rewrite Er; exact Hok].
  rewrite room_insert_eq. unfold RoomOk in *. cbn in *.
  destruct Hok as (Hw & H21 & Hact & Hts & Hne).
  apply orb_true_iff in Ew as [Ew|Ew]; apply N.eqb_eq in Ew;
    repeat split; auto.
Qed.

Lemma retrieveStake_keeps_ok rooms sender roomId sent :
  RoomOk (room rooms roomId) ->
  RoomOk (room (storageAfter rooms (retrieveStake rooms sender roomId sent)) roomId).
Proof.
  intros Hok. unfold retrieveStake.
  destruct (room rooms roomId) as [p1 p2 ts act fin w] eqn:Er. cbn in *.
  destruct act; cbn; [|rewrite Er; exact Hok].
  destruct fin; cbn; [rewrite Er; exact Hok|].
  destruct (_ || _) eqn:Es; cbn; [|rewrite Er; exact Hok].
  pose proof Hok as Hok'. unfold RoomOk in Hok'. cbn in Hok'.
  destruct Hok' as (Hw & H21 & Hact & Hts & Hne).
  assert (p1 <> 0) as Hp1 by (now apply Hact).
  destruct (N.eqb_spec sender p1) as [E1|E1]; cbn.
  - destruct (N.eqb_spec p2 0) as [E2|E2]; cbn; [|rewrite Er; exact Hok].
    destruct sent; cbn; [|rewrite Er; exact Hok].
    rewrite room_insert_eq. subst p2. unfold RoomOk, seats. cbn.
    repeat split; try easy.
  - destruct sent; cbn; [|rewrite Er; exact Hok].
    rewrite room_insert_eq. unfold RoomOk, seats. cbn.
    destruct (N.eqb_spec p1 0) as [E|E]; [contradiction|].
    repeat split; try easy; try lia.
Qed.

Lemma stake_other_room rooms sender value roomId roomId' :
  roomId <> roomId' ->
  room (storageAfter rooms (stake rooms sender value roomId)) roomId'
  = room rooms roomId'.
Proof.
  intros Hne. unfold stake.
  repeat (match goal with |- context [if ?b then _ else _] => destruct b end;
          cbn; try reflexivity).
  all: try now apply room_insert_ne.
Qed.

Lemma finishGame_other_room rooms roomId won sent roomId' :
  roomId <> roomId' ->
  room (storageAfter rooms (finishGame rooms roomId won sent)) roomId'
  = room rooms roomId'.
Proof.
  intros Hne. unfold finishGame.
  repeat (match goal with |- context [if ?b then _ else _] => destruct b end;
          cbn; try reflexivity).
  all: try now apply room_insert_ne.
Qed.

Lemma retrieveStake_other_room rooms sender roomId sent roomId' :
  roomId <> roomId' ->
  room (storageAfter rooms (retrieveStake rooms sender roomId sent)) roomId'
  = room rooms roomId'.
Proof.
  intros Hne. unfold retrieveStake.
  repeat (match goal with |- context [if ?b then _ else _] => destruct b end;
          cbn; try reflexivity).
  all: try now apply room_insert_ne.
Qed.

(** Every room of a reachable storage is well formed. *)
Lemma reachable_rooms_ok rooms :
  TugOfWarAutoReward.Reachable rooms -> forall roomId, RoomOk (room rooms roomId).
Proof.
  induction 1 as [|rooms s v id _ IH|rooms id w sent _ IH|rooms s id sent _ IH];
    intros roomId.
  - exact roomOk_noRoom.
  - destruct (decide (id = roomId)) as [->|Hne].
    + apply stake_keeps_ok, IH.
    + rewrite stake_other_room by exact Hne. apply IH.
  - destruct (decide (id = roomId)) as [->|Hne].
    + apply finishGame_keeps_ok, IH.
    + rewrite finishGame_other_room by exact Hne. apply IH.
  - destruct (decide (id = roomId)) as [->|Hne].
    + apply retrieveStake_keeps_ok, IH.
    + rewrite retrieveStake_other_room by exact Hne. apply IH.
Qed.

Lemma reachable_send rooms tx :
  TugOfWarAutoReward.Reachable rooms ->
  TugOfWarAutoReward.Reachable (storageAfter rooms (send rooms tx)).
Proof. intros H. destruct tx; cbn; now constructor. Qed.

Lemma reachable_sendAll txs : forall rooms,
  TugOfWarAutoReward.Reachable rooms ->
  TugOfWarAutoReward.Reachable (sendAll txs rooms).
Proof.
  induction txs as [|tx txs IH]; intros rooms H; [exact H|].
  cbn. apply IH. now apply reachable_send.
Qed.

Lemma send_other_room rooms tx roomId :
  txRoom tx <> roomId ->
  room (storageAfter rooms (send rooms tx)) roomId = room rooms roomId.
Proof.
  destruct tx; cbn; intros H;
    [now apply stake_other_room|now apply finishGame_other_room
    |now apply retrieveStake_other_room].
Qed.

(** On a finished room of a reachable storage every transaction reverts. *)
Lemma finished_room_reverts rooms tx :
  TugOfWarAutoReward.Reachable rooms ->
  gameFinished (room rooms (txRoom tx)) = true ->
  reverted (send rooms tx).
Proof.
  intros Hr Hf. pose proof (reachable_rooms_ok rooms Hr (txRoom tx)) as Hok.
  unfold RoomOk in Hok. rewrite Hf in Hok.
  destruct Hok as (Hact & Hts & Hp1 & Hp2 & Hw).
  destruct tx as [s v id|id w sent|s id sent]; cbn in *.
  - unfold stake. destruct (negb _); [exact I|].
    destruct (_ || _); [exact I|].
    apply N.eqb_neq in Hp1, Hp2. now rewrite Hp1, Hp2.
  - unfold finishGame. now rewrite Hact.
  - unfold retrieveStake. now rewrite Hact.
Qed.

Lemma finished_room_stays txs : forall rooms roomId,
  TugOfWarAutoReward.Reachable rooms ->
  gameFinished (room rooms roomId) = true ->
  room (sendAll txs rooms) roomId = room rooms roomId.
Proof.
  induction txs as [|tx txs IH]; intros rooms roomId Hr Hf; [reflexivity|].
  cbn.
  assert (room (storageAfter rooms (send rooms tx)) roomId = room rooms roomId) as E.
  { destruct (decide (txRoom tx = roomId)) as [Heq|Hne].
    - subst roomId. pose proof (finished_room_reverts rooms tx Hr Hf) as Hrev.
      now destruct (send rooms tx).
    - now apply send_other_room. }
  rewrite IH; [exact E|now apply reachable_send|now rewrite E].
Qed.

(** A room of a reachable storage never holds more than the two stakes. *)
Lemma reachable_stake_bound rooms roomId :
  TugOfWarAutoReward.Reachable rooms ->
  totalStake (room rooms roomId) <= 2 * STAKE_AMOUNT.
Proof.
  intros Hr. pose proof (reachable_rooms_ok rooms Hr roomId) as Hok.
  unfold RoomOk in Hok.
  assert (seats (room rooms roomId) <= 2) as Hs.
  { unfold seats. destruct (player1 _ =? 0), (player2 _ =? 0); lia. }
  destruct (gameFinished (room rooms roomId)).
  - destruct Hok as (_ & -> & _). lia.
  - destruct Hok as (_ & _ & _ & -> & _). unfold STAKE_AMOUNT in *. nia.
Qed.

(** X1. The prize of a room is paid once.  A [finishGame] that succeeds
    transfers the two stakes, 0.02 ether, to the winner it names, one of the
    two players of the room; after it, whatever transactions follow, the
    room keeps its final state and every transaction on it reverts. *)
Theorem prize_paid_once rooms roomId won sent rooms' log transfer :
  TugOfWarAutoReward.Reachable rooms ->
  finishGame rooms roomId won sent = Success rooms' log transfer ->
  transfer = Some (won, 2 * STAKE_AMOUNT)
  /\ won <> 0
  /\ (won = player1 (room rooms roomId) \/ won = player2 (room rooms roomId))
  /\ forall txs,
       room (sendAll txs rooms') roomId
       = mkRoom (player1 (room rooms roomId)) (player2 (room rooms roomId))
           0 false true won
       /\ forall tx, txRoom tx = roomId -> reverted (send (sendAll txs rooms') tx).
Proof.
  intros Hr E.
  assert (TugOfWarAutoReward.Reachable rooms') as Hr'.
  { change rooms' with (storageAfter rooms (Success rooms' log transfer)).
    rewrite <- E. now constructor. }
  pose proof (reachable_rooms_ok rooms Hr roomId) as Hok.
  unfold finishGame in E. unfold RoomOk in Hok.
  destruct (room rooms roomId) as [p1 p2 ts act fin w] eqn:Er. cbn in *.
  destruct act; cbn in E; [|discriminate].
  destruct fin; cbn in E; [discriminate|].
  destruct (N.eqb_spec p2 0) as [E2|E2]; cbn in E; [discriminate|].
  destruct (_ || _) eqn:Ew; cbn in E; [|discriminate].
  destruct sent; cbn in E; [|discriminate].
  inversion E; subst. clear E.
  destruct Hok as (Hw & H21 & Hact & Hts & Hne).
  assert (p1 <> 0) as Hp1 by auto.
  assert (ts = 2 * STAKE_AMOUNT) as Hprize.
  { rewrite Hts. unfold seats. cbn.
    destruct (N.eqb_spec p1 0), (N.eqb_spec p2 0); try contradiction. lia. }
  assert (won = p1 \/ won = p2) as Hwon.
  { apply orb_true_iff in Ew as [Ew|Ew]; apply N.eqb_eq in Ew; auto. }
  split; [now rewrite Hprize|]. split; [destruct Hwon; congruence|].
  split; [exact Hwon|].
  intros txs.
  assert (room (<[roomId := mkRoom p1 p2 0 false true won]> rooms) roomId
          = mkRoom p1 p2 0 false true won) as Efin by apply room_insert_eq.
  assert (room (sendAll txs (<[roomId := mkRoom p1 p2 0 false true won]> rooms)) roomId
          = mkRoom p1 p2 0 false true won) as Estay.
  { rewrite finished_room_stays; [exact Efin|exact Hr'|now rewrite Efin]. }
  split; [exact Estay|].
  intros tx Htx. apply finished_room_reverts; [now apply reachable_sendAll|].
  now rewrite Htx, Estay.
Qed.

Lemma prize_paid_once_witness :
  TugOfWarAutoReward.Reachable twoStaked
  /\ (exists rooms' log,
        finishGame twoStaked "room-1" 1 true
        = Success rooms' log (Some (1, 2 * STAKE_AMOUNT))
        /\ reverted (send rooms' (TxFinishGame "room-1" 2 true))).
Proof.
  assert (TugOfWarAutoReward.Reachable twoStaked) as Hr
    by (apply reachable_sendAll; constructor).
  split; [exact Hr|].
  destruct (finishGame twoStaked "room-1" 1 true) as [reason|rooms' log tr] eqn:E;
    [vm_compute in E; discriminate|].
  destruct (prize_paid_once twoStaked "room-1" 1 true rooms' log tr Hr E)
    as (Htr & _ & _ & Hall).
  exists rooms', log. split; [now rewrite Htr|].
  exact (proj2 (Hall []) (TxFinishGame "room-1" 2 true) eq_refl).
Defined.

(** X2. The stakes of a room are accounted for: while a room is not finished
    it holds exactly 0.01 ether for each of its at most two players and is
    active exactly when it has a first player; once finished it holds
    nothing.  So [totalStake] never exceeds 0.02 ether and the checked
    addition in [stake] never overflows. *)
Theorem room_accounting rooms roomId :
  TugOfWarAutoReward.Reachable rooms ->
  let r := room rooms roomId in
  (gameFinished r = false ->
     totalStake r = STAKE_AMOUNT * seats r
     /\ (isActive r = true <-> player1 r <> 0)
     /\ (player2 r <> 0 -> player1 r <> 0 /\ player1 r <> player2 r)
     /\ winner r = 0)
  /\ (gameFinished r = true ->
      totalStake r = 0 /\ isActive r = false
      /\ (winner r = player1 r \/ winner r = player2 r))
  /\ seats r <= 2
  /\ totalStake r <= 2 * STAKE_AMOUNT
  /\ forall sender value,
       stake rooms sender value roomId <> Revert "Panic: arithmetic overflow".
Proof.
  intros Hr r. pose proof (reachable_rooms_ok rooms Hr roomId) as Hok.
  fold r in Hok. unfold RoomOk in Hok.
  assert (seats r <= 2) as Hs.
  { unfold seats. destruct (player1 r =? 0), (player2 r =? 0); lia. }
  assert (totalStake r <= 2 * STAKE_AMOUNT) as Ht.
  { destruct (gameFinished r).
    - destruct Hok as (_ & -> & _). lia.
    - destruct Hok as (_ & _ & _ & -> & _). unfold STAKE_AMOUNT in *. nia. }
  repeat apply conj.
  - intros Hf. rewrite Hf in Hok. destruct Hok as (Hw & H21 & Hact & Hts & Hne).
    repeat split; auto; try apply Hact; auto.
  - intros Hf. rewrite Hf in Hok. destruct Hok as (Hact & Hts & _ & _ & Hw).
    now repeat split.
  - exact Hs.
  - exact Ht.
  - intros sender value. unfold stake. fold r.
    destruct (negb (value =? STAKE_AMOUNT)) eqn:Ev; [discriminate|].
    apply negb_false_iff, N.eqb_eq in Ev. subst value.
    destruct (_ || _); [discriminate|].
    destruct (player1 r =? 0); cbn.
    + destruct (_ <? _) eqn:El; [|discriminate].
      apply N.ltb_lt in El. unfold MAX_UINT256, STAKE_AMOUNT in *. cbn in El. lia.
    + destruct (player2 r =? 0); cbn; [|discriminate].
      destruct (_ <? _) eqn:El; [|discriminate].
      apply N.ltb_lt in El. unfold MAX_UINT256, STAKE_AMOUNT in *. cbn in El. lia.
Qed.

Lemma room_accounting_witness :
  TugOfWarAutoReward.Reachable twoStaked
  /\ totalStake (room twoStaked "room-1") = 2 * STAKE_AMOUNT
  /\ seats (room twoStaked "room-1") <= 2.
Proof.
  assert (TugOfWarAutoReward.Reachable twoStaked) as Hr
    by (apply reachable_sendAll; constructor).
  pose proof (room_accounting twoStaked "room-1" Hr) as H. cbv zeta in H.
  destruct H as (Hopen & _ & Hs & _).
  split; [exact Hr|]. split; [|exact Hs].
  rewrite (proj1 (Hopen eq_refl)). reflexivity.
Defined.

(** X3. Who can stake.  In a reachable storage [stake] succeeds exactly when it
    carries 0.01 ether, the sender is not the zero address and has no seat
    in the room, and the second seat is free; the sender then has a seat,
    the room is active and holds 0.01 ether more. *)
Theorem stake_succeeds_iff rooms sender value roomId :
  TugOfWarAutoReward.Reachable rooms ->
  let r := room rooms roomId in
  (~ reverted (stake rooms sender value roomId) <->
     value = STAKE_AMOUNT /\ sender <> 0
     /\ hasStaked rooms roomId sender = false /\ player2 r = 0)
  /\ (forall rooms' log transfer,
        stake rooms sender value roomId = Success rooms' log transfer ->
        hasStaked rooms' roomId sender = true
        /\ isActive (room rooms' roomId) = true
        /\ totalStake (room rooms' roomId) = totalStake r + STAKE_AMOUNT
        /\ seats (room rooms' roomId) = seats r + 1
        /\ transfer = None).
Proof.
  intros Hr r. pose proof (reachable_rooms_ok rooms Hr roomId) as Hok.
  fold r in Hok. unfold RoomOk in Hok.
  assert (player1 r = 0 -> player2 r = 0 /\ gameFinished r = false) as H10.
  { intros E1. destruct (gameFinished r).
    - destruct Hok as (_ & _ & Hp1 & _). contradiction.
    - destruct Hok as (_ & H21 & _). split; [|reflexivity].
      destruct (N.eq_dec (player2 r) 0); [assumption|]. exfalso. now apply H21. }
  assert ((MAX_UINT256 <? totalStake r + STAKE_AMOUNT) = false) as Hno.
  { apply N.ltb_ge.
    pose proof (reachable_stake_bound rooms roomId Hr) as Ht. fold r in Ht.
    unfold MAX_UINT256, STAKE_AMOUNT in *. cbn. lia. }
  unfold stake, hasStaked. fold r. split.
  - destruct (N.eqb_spec value STAKE_AMOUNT) as [Ev|Ev]; cbn; [|tauto].
    subst value.
    rewrite (N.eqb_sym (player1 r) sender), (N.eqb_sym (player2 r) sender).
    destruct (N.eqb_spec sender (player1 r)) as [E1|E1]; cbn.
    { split; [tauto|]. intros (_ & _ & Hd & _). discriminate. }
    destruct (N.eqb_spec sender (player2 r)) as [E2|E2]; cbn.
    { split; [tauto|]. intros (_ & _ & Hd & _). discriminate. }
    destruct (N.eqb_spec (player1 r) 0) as [E10|E10]; cbn.
    + destruct (H10 E10) as [E20 _]. rewrite Hno. cbn.
      split; [|tauto]. intros _. repeat split; auto; congruence.
    + destruct (N.eqb_spec (player2 r) 0) as [E20|E20]; cbn.
      * rewrite Hno. cbn.
        split; [|tauto]. intros _. repeat split; auto. congruence.
      * split; [tauto|]. intros (_ & _ & _ & E). contradiction.
  - intros rooms' log transfer.
    destruct (N.eqb_spec value STAKE_AMOUNT) as [Ev|Ev]; cbn; [|discriminate].
    subst value. destruct (_ || _) eqn:Es; [discriminate|].
    apply orb_false_iff in Es as [Es1 Es2]. apply N.eqb_neq in Es1, Es2.
    unfold seats.
    destruct (N.eqb_spec (player1 r) 0) as [E10|E10]; cbn.
    + destruct (H10 E10) as [E20 _].
      rewrite Hno. intros E. inversion E; subst.
      rewrite room_insert_eq. cbn. rewrite N.eqb_refl, E20. cbn.
      destruct (N.eqb_spec sender 0) as [E0|E0]; [congruence|].
      repeat split; lia.
    + destruct (N.eqb_spec (player2 r) 0) as [E20|E20]; cbn; [|discriminate].
      rewrite Hno. intros E. inversion E; subst.
      rewrite room_insert_eq. cbn. rewrite N.eqb_refl, orb_true_r.
      destruct (N.eqb_spec (player1 r) 0) as [?|_]; [contradiction|].
      destruct (N.eqb_spec sender 0) as [E0|E0]; [congruence|].
      repeat split; lia.
Qed.

Lemma stake_succeeds_iff_witness :
  TugOfWarAutoReward.Reachable twoStaked
  /\ reverted (stake twoStaked 3 STAKE_AMOUNT "room-1")
  /\ ~ reverted (stake twoStaked 3 STAKE_AMOUNT "room-2").
Proof.
  assert (TugOfWarAutoReward.Reachable twoStaked) as Hr
    by (apply reachable_sendAll; constructor).
  split; [exact Hr|]. split; [vm_compute; exact I|].
  apply (proj2 (proj1 (stake_succeeds_iff twoStaked 3 STAKE_AMOUNT "room-2" Hr))).
  split; [reflexivity|]. split; [discriminate|]. split; vm_compute; reflexivity.
Defined.

(** X4. A player who stakes and then takes the stake back leaves the room as
    it was: [retrieveStake] right after a successful [stake] succeeds,
    returns 0.01 ether to the sender and restores the room. *)
Theorem stake_retrieve_roundtrip rooms sender value roomId rooms1 log1 transfer1 :
  TugOfWarAutoReward.Reachable rooms ->
  stake rooms sender value roomId = Success rooms1 log1 transfer1 ->
  exists rooms2,
    retrieveStake rooms1 sender roomId true
    = Success rooms2 (StakeReturned roomId sender STAKE_AMOUNT)
        (Some (sender, STAKE_AMOUNT))
    /\ room rooms2 roomId = room rooms roomId
    /\ hasStaked rooms2 roomId sender = false.
Proof.
  intros Hr E.
  pose proof (reachable_rooms_ok rooms Hr roomId) as Hok. unfold RoomOk in Hok.
  unfold stake in E.
  destruct (N.eqb_spec value STAKE_AMOUNT) as [Ev|Ev]; cbn in E; [|discriminate].
  destruct (_ || _) eqn:Es; [discriminate|].
  apply orb_false_iff in Es as [Es1 Es2]. apply N.eqb_neq in Es1, Es2.
  unfold retrieveStake, hasStaked.
  destruct (room rooms roomId) as [p1 p2 ts act fin w] eqn:Er. cbn in *.
  destruct (N.eqb_spec p1 0) as [E10|E10]; cbn in E.
  - destruct (_ <? _); [discriminate|]. inversion E; subst. clear E.
    rewrite room_insert_eq. cbn. rewrite N.eqb_refl. cbn.
    destruct fin; [destruct Hok as (_ & _ & Hp1 & _); contradiction|].
    destruct Hok as (Hw & H21 & Hact & Hts & Hne).
    assert (p2 = 0) as -> by (destruct (N.eq_dec p2 0); [assumption|tauto]).
    assert (act = false) as ->.
    { destruct act; [|reflexivity]. exfalso. now apply Hact. }
    cbn. eexists. split; [reflexivity|]. rewrite room_insert_eq.
    unfold seats in Hts. cbn in Hts. cbn.
    split; [now rewrite Hts, Hw|].
    destruct sender; [congruence|reflexivity].
  - destruct (N.eqb_spec p2 0) as [E20|E20]; cbn in E; [|discriminate].
    destruct (_ <? _); [discriminate|]. inversion E; subst. clear E.
    rewrite room_insert_eq. cbn.
    destruct fin; [destruct Hok as (_ & _ & _ & Hp2 & _); contradiction|].
    destruct Hok as (Hw & H21 & Hact & Hts & Hne).
    assert (act = true) as -> by (now apply Hact).
    cbn. rewrite N.eqb_refl, orb_true_r. cbn.
    destruct (N.eqb_spec sender p1) as [?|_]; [contradiction|]. cbn.
    eexists. split; [reflexivity|]. rewrite room_insert_eq.
    unfold seats in Hts. cbn in Hts.
    destruct (N.eqb_spec p1 0) as [?|_]; [contradiction|].
    cbn. split; [rewrite Hts; f_equal; lia|].
    destruct (N.eqb_spec p1 sender); [congruence|].
    destruct sender; [congruence|reflexivity].
Qed.

Lemma stake_retrieve_roundtrip_witness :
  exists rooms1 rooms2,
    stake ∅ 1 STAKE_AMOUNT "room-1"
    = Success rooms1 (PlayerStaked "room-1" 1 STAKE_AMOUNT) None
    /\ retrieveStake rooms1 1 "room-1" true
       = Success rooms2 (StakeReturned "room-1" 1 STAKE_AMOUNT)
           (Some (1, STAKE_AMOUNT))
    /\ room rooms2 "room-1" = room ∅ "room-1".
Proof.
  eexists.
  assert (stake ∅ 1 STAKE_AMOUNT "room-1"
          = Success (<["room-1" := mkRoom 1 0 STAKE_AMOUNT true false 0]> ∅)
              (PlayerStaked "room-1" 1 STAKE_AMOUNT) None) as E by reflexivity.
  destruct (stake_retrieve_roundtrip ∅ 1 STAKE_AMOUNT "room-1" _ _ _
              reach_deployed E) as (rooms2 & E2 & Hroom & _).
  exists rooms2. split; [exact E|]. split; [exact E2|exact Hroom].
Defined.

End ContractProperties.

(** ** Readiness and the start button *)

Section ReadyProperties.

Local Arguments Js.sameAddress : simpl never.

Lemma assign_present {V} (o : list (string * V)) k v :
  isSome (Js.findEntry (fun e => Js.sameAddress (fst e) k) (Js.assign o k v)) = true.
Proof.
  unfold Js.findEntry.
  induction o as [|[k' v'] o IH]; cbn.
  - now rewrite sameAddress_refl.
  - destruct (String.eqb k' k) eqn:E; cbn.
    + now rewrite sameAddress_refl.
    + destruct (Js.sameAddress k' k); [reflexivity|exact IH].
Qed.

Lemma join_again room address s :
  Home.join room address (Home.join room address s) = Home.join room address s.
Proof.
  unfold Home.join at 2 3. unfold Home.handlePlayerJoin.
  destruct (Home.decideJoin (Some address) true s) as [| |[]|] eqn:Ed; cbn [fst].
  - unfold Home.join, Home.handlePlayerJoin. now rewrite Ed.
  - unfold Home.join, Home.handlePlayerJoin. now rewrite Ed.
  - assert (Home.decideJoin (Some address) true (Home.joinAsPlayer1 address room s)
            = Home.AlreadyInGame) as E.
    { unfold Home.decideJoin in *.
      destruct (String.eqb address "" || negb true); [discriminate|].
      cbn [players Home.joinAsPlayer1]. now rewrite assign_present. }
    unfold Home.join, Home.handlePlayerJoin. now rewrite E.
  - assert (Home.decideJoin (Some address) true (Home.joinAsPlayer2 address s)
            = Home.AlreadyInGame) as E.
    { unfold Home.decideJoin in *.
      destruct (String.eqb address "" || negb true); [discriminate|].
      cbn [players Home.joinAsPlayer2]. now rewrite assign_present. }
    unfold Home.join, Home.handlePlayerJoin. now rewrite E.
  - unfold Home.join, Home.handlePlayerJoin. now rewrite Ed.
Qed.







(** X8. The connect handler and the join effect take the same decision: with a
    room in the route and a non-empty address, [handleConnect] updates the
    state and asks for the effects exactly as [handlePlayerJoin] does, and
    the join effect that runs on the state it leaves changes nothing. *)
Theorem connect_agrees_with_join room address s prev :
  room <> "" -> address <> "" ->
  HomeReady.handleConnect (Some room) address s prev
  = (let (s', effects) :=
       Home.handlePlayerJoin (Some room) (Some address) true s prev in
     HomeReady.Connected s' effects)
  /\ forall s', HomeReady.handleConnect (Some room) address s s
                = HomeReady.Connected s' [] ->
                Home.join (Some room) address s' = s'.
Proof.
  intros Hr Hne.
  assert (forall prev, HomeReady.handleConnect (Some room) address s prev
          = (let (s', effects) :=
               Home.handlePlayerJoin (Some room) (Some address) true s prev in
             HomeReady.Connected s' effects)) as E.
  { intros p. unfold HomeReady.handleConnect, Home.handlePlayerJoin.
    apply String.eqb_neq in Hr. rewrite Hr.
    rewrite decideJoin_eq by exact Hne. unfold present, taken.
    destruct (isSome _); [reflexivity|].
    destruct (negb (0 <? _)); [reflexivity|].
    now destruct (negb _). }
  split; [apply E|].
  intros s' Hc. rewrite E in Hc.
  destruct (Home.handlePlayerJoin (Some room) (Some address) true s s)
    as [s1 effects] eqn:Ej.
  injection Hc as <- ->.
  change s1 with (fst (s1, @nil Home.Effect)). rewrite <- Ej.
  apply join_again.
Qed.

Lemma connect_agrees_with_join_witness :
  Scenario.room <> "" /\ Scenario.bob <> ""
  /\ HomeReady.handleConnect (Some Scenario.room) Scenario.bob
       (Home.join (Some Scenario.room) Scenario.alice (initialState (Some Scenario.room)))
       (Home.join (Some Scenario.room) Scenario.alice (initialState (Some Scenario.room)))
     = HomeReady.Connected Scenario.lobby [].
Proof.
  assert (Scenario.room <> "") as Hr by discriminate.
  assert (Scenario.bob <> "") as Hb by discriminate.
  split; [exact Hr|]. split; [exact Hb|].
  rewrite (proj1 (connect_agrees_with_join Scenario.room Scenario.bob _ _ Hr Hb)).
  reflexivity.
Defined.

(** *** Staking and the start button *)

Lemma two_players_staked s a b ra rb :
  players s = [(a, mkPlayer player1 ra); (b, mkPlayer player2 rb)] ->
  String.eqb a b = false -> a <> "" -> b <> "" ->
  HomeReady.handleStakeSuccess (Some a) s
  = HomeReady.ReadyUpdate
      (lobbyUpdate [(a, mkPlayer player1 true); (b, mkPlayer player2 rb)]
         (Some (Js.truthy (showStartButton s)
                || (rb && negb (isStarted s) && negb (isSome (winner s))
                    && negb (Js.truthy (isCountingDown s))))) s)
  /\ HomeReady.handleStakeSuccess (Some b) s
     = HomeReady.ReadyUpdate
         (lobbyUpdate [(a, mkPlayer player1 ra); (b, mkPlayer player2 true)]
            (Some (Js.truthy (showStartButton s))) s).
Proof.
  intros Hp Hab Ha Hb.
  assert (String.eqb b a = false) as Hba by (now rewrite String.eqb_sym).
  apply String.eqb_neq in Ha, Hb.
  unfold HomeReady.handleStakeSuccess, lobbyUpdate.
  rewrite Ha, Hb, Hp. cbn [Js.get Js.assign].
  rewrite !String.eqb_refl, Hab. cbn [Js.get Js.assign role].
  rewrite ?String.eqb_refl, ?Hab, ?Hba. cbn.
  rewrite ?String.eqb_refl, ?Hab, ?Hba. cbn.
  split.
  - do 2 f_equal. now rewrite !andb_true_r.
  - do 2 f_equal. now rewrite !andb_false_r, orb_false_r.
Qed.

Lemma two_players_effect s a b ra rb y :
  players s = [(a, mkPlayer player1 ra); (b, mkPlayer player2 rb)] ->
  String.eqb a b = false -> a <> "" ->
  HomeReady.effect y s
  = if String.eqb a y && ra && rb && negb (isStarted s)
       && negb (Js.truthy (showStartButton s)) && negb (isSome (winner s))
       && negb (Js.truthy (isCountingDown s))
    then lobbyUpdate (players s) (Some true) s else s.
Proof.
  intros Hp Hab Ha.
  apply String.eqb_neq in Ha.
  unfold HomeReady.effect, HomeReady.startButtonEffect, lobbyUpdate.
  destruct (String.eqb y "") eqn:Hy.
  { apply String.eqb_eq in Hy. subst y. rewrite Ha. reflexivity. }
  rewrite Hp. cbn [Js.get Js.everyValue forallb snd isReady length].
  destruct (String.eqb a y) eqn:Hay.
  - cbn [role Role_eqb].
    destruct ra, rb, (isStarted s), (Js.truthy (showStartButton s)),
      (isSome (winner s)), (Js.truthy (isCountingDown s)); reflexivity.
  - destruct (String.eqb b y); cbn [role Role_eqb];
      destruct ra, rb; reflexivity.
Qed.

(** X9. Both players of a fresh lobby stake, in either order: the room ends
    with both ready and the start button on, whoever staked last (the
    creator's own stake turns it on, or the creator's effect does after
    the joiner's stake); the joiner's effect changes nothing; the button
    is rendered for the creator and not for the joiner. *)
Theorem both_staked_start_button s a b :
  players s = [(a, mkPlayer player1 false); (b, mkPlayer player2 false)] ->
  a <> b -> a <> "" -> b <> "" ->
  isStarted s = false -> winner s = None ->
  Js.truthy (isCountingDown s) = false ->
  Js.truthy (showStartButton s) = false ->
  let creatorReady :=
    lobbyUpdate [(a, mkPlayer player1 true); (b, mkPlayer player2 false)]
      (Some false) s in
  let joinerReady :=
    lobbyUpdate [(a, mkPlayer player1 false); (b, mkPlayer player2 true)]
      (Some false) s in
  let bothReady :=
    lobbyUpdate [(a, mkPlayer player1 true); (b, mkPlayer player2 true)]
      (Some false) s in
  let final :=
    lobbyUpdate [(a, mkPlayer player1 true); (b, mkPlayer player2 true)]
      (Some true) s in
  (HomeReady.handleStakeSuccess (Some a) s = HomeReady.ReadyUpdate creatorReady
   /\ HomeReady.handleStakeSuccess (Some b) creatorReady
      = HomeReady.ReadyUpdate bothReady
   /\ HomeReady.effect b bothReady = bothReady
   /\ HomeReady.effect a bothReady = final)
  /\ (HomeReady.handleStakeSuccess (Some b) s = HomeReady.ReadyUpdate joinerReady
      /\ HomeReady.handleStakeSuccess (Some a) joinerReady
         = HomeReady.ReadyUpdate final)
  /\ HomeReady.effect a final = final /\ HomeReady.effect b final = final
  /\ HomeReady.startButtonVisible (Some a) final = true
  /\ HomeReady.startButtonVisible (Some b) final = false.
Proof.
  intros Hp Hab Ha Hb Hst Hw Hc Hsb creatorReady joinerReady bothReady final.
  apply String.eqb_neq in Hab.
  assert (String.eqb b a = false) as Hba by (now rewrite String.eqb_sym).
  destruct (two_players_staked s a b false false Hp Hab Ha Hb) as [Ea Eb].
  rewrite Hsb, Hst, Hw, Hc in Ea. rewrite Hsb in Eb.
  cbn [andb orb negb] in Ea, Eb. fold creatorReady in Ea. fold joinerReady in Eb.
  destruct (two_players_staked creatorReady a b true false eq_refl Hab Ha Hb)
    as [_ Eab].
  destruct (two_players_staked joinerReady a b false true eq_refl Hab Ha Hb)
    as [Eba _].
  cbn [lobbyUpdate showStartButton isStarted winner isCountingDown
       creatorReady joinerReady] in Eab, Eba.
  rewrite Hst, Hw, Hc in Eba.
  cbn [Js.truthy isSome negb andb orb] in Eab, Eba.
  repeat apply conj.
  - exact Ea.
  - exact Eab.
  - erewrite two_players_effect; [|reflexivity|exact Hab|exact Ha].
    cbn. now rewrite Hab.
  - erewrite two_players_effect; [|reflexivity|exact Hab|exact Ha].
    cbn. rewrite String.eqb_refl, Hst, Hw, Hc. reflexivity.
  - exact Eb.
  - exact Eba.
  - erewrite two_players_effect; [|reflexivity|exact Hab|exact Ha].
    cbn. now rewrite !andb_false_r.
  - erewrite two_players_effect; [|reflexivity|exact Hab|exact Ha].
    cbn. now rewrite Hab.
  - unfold final, HomeReady.startButtonVisible. cbn.
    apply String.eqb_neq in Ha. now rewrite Ha, String.eqb_refl.
  - unfold final, HomeReady.startButtonVisible. cbn.
    apply String.eqb_neq in Hb. now rewrite Hb, Hab, String.eqb_refl.
Qed.

Lemma both_staked_start_button_witness :
  exists s1 s2,
    HomeReady.handleStakeSuccess (Some Scenario.alice) Scenario.lobby
    = HomeReady.ReadyUpdate s1
    /\ HomeReady.handleStakeSuccess (Some Scenario.bob) s1 = HomeReady.ReadyUpdate s2
    /\ HomeReady.effect Scenario.alice s2 = Scenario.ready.
Proof.
  assert (Scenario.alice <> Scenario.bob) as Hab by discriminate.
  assert (Scenario.alice <> "") as Ha by discriminate.
  assert (Scenario.bob <> "") as Hb by discriminate.
  pose proof (both_staked_start_button Scenario.lobby Scenario.alice Scenario.bob
                eq_refl Hab Ha Hb eq_refl eq_refl eq_refl eq_refl) as H.
  cbv zeta in H. destruct H as ((H1 & H2 & _ & H3) & _).
  eexists. eexists. split; [exact H1|]. split; [exact H2|exact H3].
Defined.

Lemma assign_length {V} (o : list (string * V)) k v p :
  Js.get o k = Some p -> length (Js.assign o k v) = length o.
Proof.
  induction o as [|[k' v'] o IH]; cbn; [discriminate|].
  destruct (String.eqb k' k); [reflexivity|].
  intros H. cbn. now rewrite IH.
Qed.

Lemma assign_keeps_unready (o : list (string * Player)) x v z p :
  Js.get o z = Some p -> z <> x -> isReady p = false ->
  Js.everyValue isReady (Js.assign o x v) = false.
Proof.
  intros Hz Hzx Hp. unfold Js.everyValue.
  induction o as [|[k' v'] o IH]; cbn in *; [discriminate|].
  destruct (String.eqb k' z) eqn:Ez.
  - apply String.eqb_eq in Ez. subst k'. injection Hz as ->.
    apply String.eqb_neq in Hzx. rewrite Hzx. cbn. now rewrite Hp.
  - destruct (String.eqb k' x); cbn.
    + clear IH. rewrite andb_false_iff. right.
      induction o as [|[k2 v2] o IH2]; cbn in *; [discriminate|].
      destruct (String.eqb k2 z).
      * injection Hz as ->. now rewrite Hp.
      * rewrite (IH2 Hz). apply andb_false_r.
    + rewrite (IH Hz). apply andb_false_r.
Qed.

Lemma unready_every (o : list (string * Player)) z p :
  Js.get o z = Some p -> isReady p = false -> Js.everyValue isReady o = false.
Proof.
  intros Hz Hp. unfold Js.everyValue.
  induction o as [|[k v] o IH]; cbn in *; [discriminate|].
  destruct (String.eqb k z).
  - injection Hz as ->. now rewrite Hp.
  - rewrite (IH Hz). apply andb_false_r.
Qed.

(** X10. The start button needs both stakes: in a room that has fewer than
    two players, or a player other than [x] who is not ready, with the
    button off, the stake of player [x] leaves the button off, no run of
    the start-button effect, before or after that stake, turns it on, and
    nobody is shown it. *)
Theorem start_button_needs_all_ready s x y s' :
  Js.truthy (showStartButton s) = false ->
  (length (players s) < 2)%nat
  \/ (exists z p, Js.get (players s) z = Some p /\ z <> x /\ isReady p = false) ->
  HomeReady.handleStakeSuccess (Some x) s = HomeReady.ReadyUpdate s' ->
  HomeReady.effect y s = s
  /\ Js.truthy (showStartButton s') = false
  /\ HomeReady.effect y s' = s'
  /\ HomeReady.startButtonVisible (Some y) s' = false.
Proof.
  intros Hsb Hroom Hstake.
  assert (forall t, Js.everyValue isReady (players t)
                    && (2 <=? Z.of_nat (length (players t))) = false ->
                    HomeReady.effect y t = t) as Heff.
  { intros t Ht. unfold HomeReady.effect, HomeReady.startButtonEffect.
    destruct (String.eqb y ""); [reflexivity|]. now rewrite Ht. }
  assert (Js.everyValue isReady (players s)
          && (2 <=? Z.of_nat (length (players s))) = false) as Hs.
  { destruct Hroom as [Hlen|(z & p & Hz & _ & Hp)].
    - rewrite andb_false_iff. right. apply Z.leb_gt. lia.
    - now rewrite (unready_every _ z p Hz Hp). }
  split; [exact (Heff s Hs)|].
  unfold HomeReady.handleStakeSuccess in Hstake.
  destruct (String.eqb x ""); [discriminate|].
  destruct (Js.get (players s) x) as [q|] eqn:Hx; [|discriminate].
  assert (Js.everyValue isReady (Js.assign (players s) x (mkPlayer (role q) true))
          && (2 <=? Z.of_nat (length (Js.assign (players s) x (mkPlayer (role q) true))))
          = false) as Hoff.
  { destruct Hroom as [Hlen|(z & p & Hz & Hzx & Hp)].
    - rewrite andb_false_iff. right. rewrite (assign_length _ _ _ q Hx).
      apply Z.leb_gt. lia.
    - now rewrite (assign_keeps_unready _ x _ z p Hz Hzx Hp). }
  rewrite Hsb, Hoff in Hstake. cbn [andb orb Js.truthy] in Hstake.
  injection Hstake as <-.
  split; [reflexivity|]. split.
  - apply Heff. cbn [players]. exact Hoff.
  - reflexivity.
Qed.

Lemma start_button_needs_all_ready_witness :
  exists s',
    HomeReady.handleStakeSuccess (Some Scenario.alice) Scenario.lobby
    = HomeReady.ReadyUpdate s'
    /\ HomeReady.startButtonVisible (Some Scenario.alice) s' = false.
Proof.
  eexists. split; [reflexivity|].
  refine (proj2 (proj2 (proj2
    (start_button_needs_all_ready Scenario.lobby Scenario.alice Scenario.alice _
       eq_refl _ eq_refl)))).
  right. exists Scenario.bob, (mkPlayer player2 false).
  split; [reflexivity|]. split; [discriminate|reflexivity].
Defined.




End ReadyProperties.

(** ** The money a room takes and gives *)

Section LedgerProperties.

Import TugOfWarAutoReward.
Local Open Scope N_scope.
Local Arguments TugOfWarAutoReward.room : simpl never.

Lemma send_conserves rooms tx :
  TugOfWarAutoReward.Reachable rooms -> Ledger.fromAccount tx ->
  Ledger.paidIn tx (send rooms tx) + totalStake (room rooms (txRoom tx))
  = Ledger.paidOut (send rooms tx)
    + totalStake (room (storageAfter rooms (send rooms tx)) (txRoom tx)).
Proof.
  intros Hr Hfrom. pose proof (reachable_rooms_ok rooms Hr (txRoom tx)) as Hok.
  unfold RoomOk in Hok.
  destruct tx as [s v id|id w sent|s id sent]; cbn [send txRoom Ledger.fromAccount] in *.
  - unfold stake.
    destruct (negb _); [reflexivity|].
    destruct (_ || _); [reflexivity|].
    destruct (player1 (room rooms id) =? 0); cbn.
    + destruct (_ <? _); cbn; [reflexivity|]. rewrite room_insert_eq. cbn. lia.
    + destruct (player2 (room rooms id) =? 0); cbn; [|reflexivity].
      destruct (_ <? _); cbn; [reflexivity|]. rewrite room_insert_eq. cbn. lia.
  - unfold finishGame.
    destruct (negb (isActive _)); [reflexivity|].
    destruct (gameFinished _); [reflexivity|].
    destruct (_ =? _); [reflexivity|].
    destruct (negb (_ || _)); [reflexivity|].
    destruct sent; cbn; [|reflexivity]. rewrite room_insert_eq. cbn. lia.
  - unfold retrieveStake.
    destruct (isActive (room rooms id)) eqn:Ea; cbn; [|reflexivity].
    destruct (gameFinished (room rooms id)) eqn:Ef; [reflexivity|].
    destruct (_ || _) eqn:Es; cbn; [|reflexivity].
    destruct Hok as (Hw & H21 & Hact & Hts & Hne).
    assert (player1 (room rooms id) <> 0) as Hp1 by (now apply Hact).
    unfold seats in Hts.
    destruct (N.eqb_spec (player1 (room rooms id)) 0) as [?|_]; [contradiction|].
    destruct (N.eqb_spec s (player1 (room rooms id))) as [E1|E1]; cbn.
    + destruct (N.eqb_spec (player2 (room rooms id)) 0) as [E2|E2]; cbn;
        [|reflexivity].
      destruct sent; cbn; [|reflexivity]. rewrite room_insert_eq. cbn.
      rewrite Hts. lia.
    + cbn in Es. apply N.eqb_eq in Es.
      destruct (N.eqb_spec (player2 (room rooms id)) 0) as [E2|E2].
      { destruct sent; cbn; [|reflexivity]. rewrite room_insert_eq. cbn.
        congruence. }
      destruct sent; cbn; [|reflexivity]. rewrite room_insert_eq. cbn.
      rewrite Hts. lia.
Qed.

Lemma totals_conserve roomId txs : forall rooms,
  TugOfWarAutoReward.Reachable rooms -> Forall Ledger.fromAccount txs ->
  fst (Ledger.totals roomId txs rooms) + totalStake (room rooms roomId)
  = snd (Ledger.totals roomId txs rooms)
    + totalStake (room (sendAll txs rooms) roomId).
Proof.
  induction txs as [|tx rest IH]; intros rooms Hr Hall; [reflexivity|].
  inversion Hall as [|? ? Htx Hrest]; subst.
  cbn [Ledger.totals sendAll fold_left].
  specialize (IH (storageAfter rooms (send rooms tx))
                (reachable_send rooms tx Hr) Hrest).
  unfold sendAll in IH.
  destruct (Ledger.totals roomId rest (storageAfter rooms (send rooms tx)))
    as [i o]. cbn [fst snd] in IH.
  destruct (String.eqb_spec (txRoom tx) roomId) as [E|E]; cbn [fst snd].
  - subst roomId. pose proof (send_conserves rooms tx Hr Htx). lia.
  - rewrite (send_other_room rooms tx roomId E) in IH. exact IH.
Qed.

(** X5. The contract neither creates nor loses money of a room: after any
    transactions sent by accounts since the deployment, what was staked
    into a room equals what the room has transferred out plus the
    [totalStake] it holds; so a room never pays out more than was staked
    into it, and a finished room has paid out all of it. *)
Theorem room_conservation roomId txs :
  Forall Ledger.fromAccount txs ->
  let r := room (sendAll txs ∅) roomId in
  let paidIn := fst (Ledger.totals roomId txs ∅) in
  let paidOut := snd (Ledger.totals roomId txs ∅) in
  paidIn = paidOut + totalStake r
  /\ paidOut <= paidIn
  /\ (gameFinished r = true -> paidOut = paidIn).
Proof.
  intros Hall r paidIn paidOut.
  pose proof (totals_conserve roomId txs ∅ reach_deployed Hall) as H.
  change (room ∅ roomId) with noRoom in H. cbn [totalStake noRoom] in H.
  fold r paidIn paidOut in H.
  assert (paidIn = paidOut + totalStake r) as E by lia.
  split; [exact E|]. split; [lia|].
  intros Hf.
  pose proof (reachable_rooms_ok _ (reachable_sendAll txs ∅ reach_deployed) roomId)
    as Hok.
  fold r in Hok. unfold RoomOk in Hok. rewrite Hf in Hok.
  destruct Hok as (_ & Hts & _). lia.
Qed.

Lemma room_conservation_witness :
  let txs :=
    [TxStake 1 STAKE_AMOUNT "room-1"; TxStake 2 STAKE_AMOUNT "room-1";
     TxRetrieveStake 2 "room-1" true; TxStake 3 STAKE_AMOUNT "room-1";
     TxFinishGame "room-1" 3 true; TxFinishGame "room-1" 1 true] in
  Forall Ledger.fromAccount txs
  /\ snd (Ledger.totals "room-1" txs ∅) = fst (Ledger.totals "room-1" txs ∅)
  /\ fst (Ledger.totals "room-1" txs ∅) = 3 * STAKE_AMOUNT.
Proof.
  intros txs.
  assert (Forall Ledger.fromAccount txs) as Hall.
  { repeat constructor; discriminate. }
  split; [exact Hall|]. split; [|reflexivity].
  exact (proj2 (proj2 (room_conservation "room-1" txs Hall)) eq_refl).
Defined.

(** X6. Who can settle a room.  In a reachable storage [finishGame] succeeds
    exactly when both seats of the room are taken, the room is not
    finished, the winner it names is one of the two players and the
    transfer goes through; the contract does not look at who sends it. *)
Theorem finishGame_succeeds_iff rooms roomId won sent :
  TugOfWarAutoReward.Reachable rooms ->
  let r := room rooms roomId in
  ~ reverted (finishGame rooms roomId won sent) <->
  player2 r <> 0 /\ gameFinished r = false
  /\ (won = player1 r \/ won = player2 r) /\ sent = true.
Proof.
  intros Hr r. pose proof (reachable_rooms_ok rooms Hr roomId) as Hok.
  fold r in Hok. unfold RoomOk in Hok. unfold finishGame. fold r.
  destruct (gameFinished r) eqn:Ef.
  - destruct Hok as (-> & _). cbn. split; [tauto|]. intros (_ & H & _). discriminate.
  - destruct Hok as (Hw & H21 & Hact & Hts & Hne).
    destruct (N.eqb_spec (player2 r) 0) as [E2|E2].
    + destruct (isActive r); cbn; (split; [tauto|]); intros (H & _); contradiction.
    + assert (isActive r = true) as -> by (apply Hact; auto). cbn.
      destruct (N.eqb_spec won (player1 r)) as [E1|E1]; cbn.
      * destruct sent; cbn; [tauto|]. split; [tauto|]. intros (_ & _ & _ & H).
        discriminate.
      * destruct (N.eqb_spec won (player2 r)) as [E3|E3]; cbn.
        -- destruct sent; cbn; [tauto|]. split; [tauto|]. intros (_ & _ & _ & H).
           discriminate.
        -- split; [tauto|]. intros (_ & _ & [H|H] & _); contradiction.
Qed.

Lemma finishGame_succeeds_iff_witness :
  TugOfWarAutoReward.Reachable twoStaked
  /\ ~ reverted (finishGame twoStaked "room-1" 2 true).
Proof.
  assert (TugOfWarAutoReward.Reachable twoStaked) as Hr
    by (apply reachable_sendAll; constructor).
  split; [exact Hr|].
  apply (proj2 (finishGame_succeeds_iff twoStaked "room-1" 2 true Hr)).
  split; [discriminate|]. split; [reflexivity|]. split; [right; reflexivity|reflexivity].
Defined.



End LedgerProperties.

(** ** The key handler and the cooldown *)

Section InputProperties.

Local Open Scope Q_scope.
Local Arguments Js.sameAddress : simpl never.

Lemma lowerAscii_idem c : Js.lowerAscii (Js.lowerAscii c) = Js.lowerAscii c.
Proof.
  destruct c as [b0 b1 b2 b3 b4 b5 b6 b7].
  destruct b0, b1, b2, b3, b4, b5, b6, b7; reflexivity.
Qed.

Lemma toLowerCase_idem s : Js.toLowerCase (Js.toLowerCase s) = Js.toLowerCase s.
Proof.
  induction s as [|c s IH]; [reflexivity|].
  cbn. now rewrite lowerAscii_idem, IH.
Qed.



Lemma updatePlayerInfo_keeps account i :
  SceneInput.pullCooldown (SceneInput.updatePlayerInfo account i)
  = SceneInput.pullCooldown i
  /\ SceneInput.lastWinner (SceneInput.updatePlayerInfo account i)
     = SceneInput.lastWinner i.
Proof.
  unfold SceneInput.updatePlayerInfo, SceneInput.assignPlayerRole.
  cbn [SceneInput.gameState].
  destruct (SceneInput.gameState i) as [g|]; [|now split].
  destruct (Js.findEntry _ _); [now split|].
  destruct (negb _); [now split|].
  destruct (negb _); now split.
Qed.





(** *** The win screen *)

Lemma keyDown_lastWinner now i :
  SceneInput.lastWinner (fst (SceneInput.keyDown now i)) = SceneInput.lastWinner i
  /\ forall u, snd (SceneInput.keyDown now i) = Some u -> SceneInput.isPull u = true.
Proof.
  unfold SceneInput.keyDown.
  destruct (negb (Qle_bool _ 0)); [now split|].
  destruct (negb (isSome _)); [now split|].
  destruct (SceneInput.gameState i) as [g|]; [|now split].
  destruct (negb (isStarted g)); [now split|].
  destruct (SceneInput.currentPlayerAddress i) as [a|]; [|now split].
  destruct (String.eqb a ""); [now split|].
  destruct (Js.findEntry _ _) as [pd|]; [|now split].
  destruct (negb (isReady _)); [now split|].
  unfold GameScene.handlePull.
  destruct (_ <? _)%Z; [now split|].
  destruct (_ && _); [now split|].
  destruct (_ && _); [now split|].
  cbn. split; [reflexivity|].
  destruct (GameScene.updateCallback _); [|discriminate].
  now intros u [= <-].
Qed.

Lemma update_lastWinner delta i :
  SceneInput.lastWinner (SceneInput.update delta i) = SceneInput.lastWinner i.
Proof.
  unfold SceneInput.update.
  destruct (SceneInput.isDestroyed i); [reflexivity|].
  now destruct (negb _).
Qed.

Lemma win_screens_bound w evs : forall i,
  Forall (fun ev => SceneInput.declared ev = None
                    \/ SceneInput.declared ev = Some w) evs ->
  (SceneInput.winScreens (snd (SceneInput.runInput evs i)) <= 1)%nat
  /\ (SceneInput.lastWinner i = Some w ->
      SceneInput.winScreens (snd (SceneInput.runInput evs i)) = 0%nat).
Proof.
  induction evs as [|ev evs IH]; intros i Hall; [cbn; split; [lia|reflexivity]|].
  inversion Hall as [|? ? Hev Hrest]; subst.
  cbn [SceneInput.runInput].
  destruct ev as [delta|now|centerX s|account].
  - destruct (IH (SceneInput.update delta i) Hrest) as [H1 H2].
    rewrite update_lastWinner in H2.
    now destruct (SceneInput.runInput evs (SceneInput.update delta i)).
  - destruct (keyDown_lastWinner now i) as [Hl Hu].
    destruct (SceneInput.keyDown now i) as [i1 u]. cbn in Hl, Hu.
    destruct (IH i1 Hrest) as [H1 H2]. rewrite Hl in H2.
    destruct (SceneInput.runInput evs i1) as [i2 us]. cbn in *.
    destruct u as [u|]; [|now split].
    unfold SceneInput.winScreens in *. cbn. rewrite (Hu u eq_refl). cbn.
    now split.
  - cbn [SceneInput.declared] in Hev.
    unfold SceneInput.updateGameState.
    destruct (winner s) as [w'|] eqn:Ew.
    + destruct Hev as [Hev|Hev]; [discriminate|]. injection Hev as ->.
      destruct (GameScene.isRole w (SceneInput.lastWinner i)) eqn:El; cbn [negb].
      * assert (SceneInput.lastWinner i = Some w) as Hlw.
        { destruct (SceneInput.lastWinner i) as [[]|]; destruct w;
            try discriminate; reflexivity. }
        match goal with |- context [SceneInput.runInput evs ?j] =>
          destruct (IH j Hrest) as [H1 H2];
          destruct (SceneInput.runInput evs j) as [i2 us] end.
        cbn in *. specialize (H2 Hlw). split; [lia|intros _; exact H2].
      * destruct (GameScene.handleWin w _) as [sc3 u].
        match goal with |- context [SceneInput.runInput evs ?j] =>
          destruct (IH j Hrest) as [H1 H2];
          destruct (SceneInput.runInput evs j) as [i2 us] end.
        cbn in *. specialize (H2 eq_refl).
        split.
        -- destruct u as [u|]; [|lia].
           unfold SceneInput.winScreens in *. cbn.
           destruct (negb (SceneInput.isPull u)); cbn; lia.
        -- intros Hlw. rewrite Hlw in El. destruct w; discriminate.
    + match goal with |- context [SceneInput.runInput evs ?j] =>
        destruct (IH j Hrest) as [H1 H2];
        destruct (SceneInput.runInput evs j) as [i2 us] end.
      cbn in *. now split.
  - destruct (IH (SceneInput.updatePlayerInfo account i) Hrest) as [H1 H2].
    rewrite (proj2 (updatePlayerInfo_keeps account i)) in H2.
    now destruct (SceneInput.runInput evs (SceneInput.updatePlayerInfo account i)).
Qed.

(** X13. The win screen comes up once.  Whatever a scene goes through
    during a match (frames, key presses, answers of the wallet, shared
    states that name no winner or the winner [w]), it creates the win
    screen, and sends its update, at most once; in particular the state
    that results from that update does not bring it up again. *)
Theorem win_screen_once w evs i :
  Forall (fun ev => SceneInput.declared ev = None
                    \/ SceneInput.declared ev = Some w) evs ->
  (SceneInput.winScreens (snd (SceneInput.runInput evs i)) <= 1)%nat
  /\ forall centerX s u,
       winner s = Some w ->
       snd (SceneInput.updateGameState centerX s i) = Some u ->
       winner (merge s u) = Some w
       /\ SceneInput.winScreens
            (snd (SceneInput.runInput
                    (SceneInput.NewState centerX (merge s u) :: evs)
                    (fst (SceneInput.updateGameState centerX s i)))) = 0%nat.
Proof.
  intros Hall. split; [apply (win_screens_bound w evs i Hall)|].
  intros centerX s u Hw Hu.
  assert (winner (merge s u) = Some w
          /\ SceneInput.lastWinner (fst (SceneInput.updateGameState centerX s i))
             = Some w) as [Hm Hl].
  { unfold SceneInput.updateGameState in *. rewrite Hw in *.
    destruct (negb _); [|discriminate].
    unfold GameScene.handleWin in *.
    destruct (_ || _); cbn in *; [discriminate|].
    injection Hu as <-. cbn. now split. }
  split; [exact Hm|].
  apply (win_screens_bound w); [|exact Hl].
  constructor; [right; exact Hm|exact Hall].
Qed.

Lemma win_screen_once_witness :
  let i := SceneInput.participant Scenario.bob Scenario.playing in
  let won := Game.state (Game.gameLoopTick 2450 (Game.mkRefs 0 false)
                           (Some Scenario.matchPoint) Scenario.matchPoint) in
  SceneInput.winScreens
    (snd (SceneInput.runInput
            [SceneInput.NewState 600 won; SceneInput.NewState 600 Scenario.finished;
             SceneInput.KeyDown 2500; SceneInput.NewState 600 Scenario.finished] i))
  = 1%nat.
Proof.
  intros i won.
  assert (Forall (fun ev => SceneInput.declared ev = None
                            \/ SceneInput.declared ev = Some player1)
            [SceneInput.NewState 600 won; SceneInput.NewState 600 Scenario.finished;
             SceneInput.KeyDown 2500; SceneInput.NewState 600 Scenario.finished])
    as Hall.
  { repeat constructor; try (right; reflexivity); left; reflexivity. }
  pose proof (proj1 (win_screen_once player1 _ i Hall)) as H.
  assert (0 < SceneInput.winScreens
            (snd (SceneInput.runInput
                    [SceneInput.NewState 600 won;
                     SceneInput.NewState 600 Scenario.finished;
                     SceneInput.KeyDown 2500;
                     SceneInput.NewState 600 Scenario.finished] i)))%nat as H0.
  { vm_compute. lia. }
  lia.
Defined.

(** *** Roles *)

Lemma find_lowered account (l : list (string * Player)) :
  Js.findEntry (fun e => Js.sameAddress (fst e) (Js.toLowerCase account)) l
  = Js.findEntry (fun e => Js.sameAddress (fst e) account) l.
Proof.
  unfold Js.findEntry.
  induction l as [|[k v] l IH]; [reflexivity|].
  cbn [find fst]. unfold Js.sameAddress at 1 3. rewrite toLowerCase_idem.
  destruct (String.eqb _ _); [reflexivity|exact IH].
Qed.

(** X14. A key press pulls on the presser's own side.  Once the scene has
    looked up the wallet's account in its state, a press of the key sends an
    update only if the game is started and the account, in any letter case,
    is a player of the room who is ready; the update then sets the pulling
    flag of that player's role, and neither the rope nor a winner. *)
Theorem press_pulls_own_side account now i g u :
  SceneInput.gameState i = Some g ->
  snd (SceneInput.keyDown now (SceneInput.updatePlayerInfo account i)) = Some u ->
  isStarted g = true
  /\ exists a p,
       Js.findEntry (fun e => Js.sameAddress (fst e) account) (players g)
       = Some (a, p)
       /\ isReady p = true
       /\ match role p with
          | player1 => u_player1Pulling u = Some true
          | player2 => u_player2Pulling u = Some true
          end
       /\ u_ropePosition u = None /\ u_winner u = None.
Proof.
  intros Hg Hu.
  unfold SceneInput.updatePlayerInfo in Hu. cbn [SceneInput.gameState] in Hu.
  rewrite Hg in Hu.
  change (fun e : string * Player =>
            String.eqb (Js.toLowerCase (fst e)) (Js.toLowerCase account))
    with (fun e : string * Player => Js.sameAddress (fst e) account) in Hu.
  destruct (Js.findEntry (fun e => Js.sameAddress (fst e) account) (players g))
    as [[a p]|] eqn:Ef.
  - unfold SceneInput.keyDown in Hu.
    cbn [SceneInput.withRole SceneInput.withScene SceneInput.pullCooldown
         SceneInput.scene SceneInput.gameState SceneInput.currentPlayerAddress
         GameScene.playerRole isSome negb snd] in Hu.
    destruct (negb (Qle_bool _ 0)); [discriminate|].
    destruct (isStarted g); [|discriminate]. cbn [negb] in Hu.
    destruct (String.eqb _ ""); [discriminate|].
    rewrite find_lowered, Ef in Hu. cbn [snd] in Hu.
    destruct (isReady p) eqn:Er; [|discriminate]. cbn [negb] in Hu.
    split; [reflexivity|]. exists a, p. split; [reflexivity|].
    split; [exact Er|].
    match type of Hu with context [GameScene.handlePull now ?sc] =>
      assert (snd (GameScene.handlePull now sc) = Some u) as Hp
        by (destruct (GameScene.handlePull now sc); exact Hu)
    end.
    clear Hu. rename Hp into Hu.
    unfold GameScene.handlePull in Hu. cbn [GameScene.lastStateUpdateTime
      GameScene.playerRole GameScene.currentPlayer1Pulling
      GameScene.currentPlayer2Pulling GameScene.updateCallback] in Hu.
    destruct (_ <? _)%Z; [discriminate|].
    destruct (role p); cbn [GameScene.isRole Role_eqb andb] in Hu.
    + destruct (GameScene.currentPlayer1Pulling _); [discriminate|].
      cbn in Hu. destruct (GameScene.updateCallback _); [|discriminate].
      injection Hu as <-. now repeat split.
    + destruct (GameScene.currentPlayer2Pulling _); [discriminate|].
      cbn in Hu. destruct (GameScene.updateCallback _); [|discriminate].
      injection Hu as <-. now repeat split.
  - exfalso. unfold SceneInput.assignPlayerRole in Hu.
    cbn [SceneInput.gameState] in Hu.
    assert (forall r j, SceneInput.gameState j = Some g ->
              SceneInput.currentPlayerAddress j = Some (Js.toLowerCase account) ->
              snd (SceneInput.keyDown now (SceneInput.withRole r j)) = None) as Hn.
    { intros r j Hj Ha. unfold SceneInput.keyDown.
      cbn [SceneInput.withRole SceneInput.withScene SceneInput.pullCooldown
           SceneInput.scene SceneInput.gameState SceneInput.currentPlayerAddress].
      rewrite Hj, Ha.
      destruct (negb (Qle_bool _ 0)); [reflexivity|].
      destruct (negb (isSome _)); [reflexivity|].
      destruct (negb (isStarted g)); [reflexivity|].
      destruct (String.eqb _ ""); [reflexivity|].
      now rewrite find_lowered, Ef. }
    destruct (negb _); [|destruct (negb _)];
      rewrite Hn in Hu; try reflexivity; discriminate.
Qed.

Lemma press_pulls_own_side_witness :
  exists u,
    snd (SceneInput.keyDown 1000
           (SceneInput.participant "0xb0b0000000000000000000000000000000000002"
              Scenario.playing)) = Some u
    /\ u_player2Pulling u = Some true /\ u_winner u = None.
Proof.
  destruct (snd (SceneInput.keyDown 1000
                   (SceneInput.participant
                      "0xb0b0000000000000000000000000000000000002"
                      Scenario.playing))) as [u|] eqn:E;
    [|vm_compute in E; discriminate].
  exists u. split; [reflexivity|].
  destruct (press_pulls_own_side "0xb0b0000000000000000000000000000000000002"
              1000
              (fst (SceneInput.updateGameState 600 Scenario.playing
                      SceneInput.created))
              Scenario.playing u eq_refl E)
    as (_ & a & p & Hf & _ & Hrole & _ & Hw).
  vm_compute in Hf. injection Hf as <- <-. now split.
Defined.

(** X15. The scene gives a wallet the role the lobby gives it.  On a room that
    filled up by join requests, the role the scene takes for an account is
    the role the account holds after its own join request: its role if it
    is in the room, the free role if there is one, none if the room is
    full. *)
Theorem scene_role_agrees_with_join room account i g :
  account <> "" ->
  LobbyShape (players g) ->
  SceneInput.gameState i = Some g ->
  GameScene.playerRole (SceneInput.scene (SceneInput.updatePlayerInfo account i))
  = match Js.findEntry (fun e => Js.sameAddress (fst e) account)
            (players (Home.join room account g)) with
    | Some e => Some (role (snd e))
    | None => None
    end.
Proof.
  intros Hne Hshape Hg.
  unfold SceneInput.updatePlayerInfo. cbn [SceneInput.gameState]. rewrite Hg.
  change (fun e : string * Player =>
            String.eqb (Js.toLowerCase (fst e)) (Js.toLowerCase account))
    with (fun e : string * Player => Js.sameAddress (fst e) account).
  unfold Home.join, Home.handlePlayerJoin.
  rewrite decideJoin_eq by exact Hne. unfold present, taken.
  unfold SceneInput.assignPlayerRole. cbn [SceneInput.gameState].
  unfold Js.findEntry, Js.someValue, Home.joinAsPlayer1, Home.joinAsPlayer2.
  remember (players g) as ps eqn:E.
  destruct Hshape as [|a|a b Hab]; simpl.
  - now rewrite sameAddress_refl.
  - destruct (Js.sameAddress a account) eqn:Ea; simpl.
    + rewrite <- E. simpl. now rewrite Ea.
    + rewrite (sameAddress_false_neq _ _ Ea). simpl.
      now rewrite Ea, sameAddress_refl.
  - destruct (Js.sameAddress a account) eqn:Ea; simpl.
    + rewrite <- E. simpl. now rewrite Ea.
    + destruct (Js.sameAddress b account) eqn:Eb; simpl;
        rewrite <- E; simpl; now rewrite Ea, Eb.
Qed.

Lemma scene_role_agrees_with_join_witness :
  GameScene.playerRole
    (SceneInput.scene
       (SceneInput.participant Scenario.bob
          (Home.join (Some Scenario.room) Scenario.alice
             (initialState (Some Scenario.room)))))
  = Some player2.
Proof.
  assert (Scenario.bob <> "") as Hb by discriminate.
  unfold SceneInput.participant.
  rewrite (scene_role_agrees_with_join (Some Scenario.room) Scenario.bob
             (fst (SceneInput.updateGameState 600
                     (Home.join (Some Scenario.room) Scenario.alice
                        (initialState (Some Scenario.room)))
                     SceneInput.created))
             (Home.join (Some Scenario.room) Scenario.alice
                (initialState (Some Scenario.room)))
             Hb (shape_one Scenario.alice) eq_refl).
  reflexivity.
Defined.

End InputProperties.

(** ** A match as a sequence of pulls *)

Section MatchProperties.

Local Open Scope Q_scope.

Lemma resolvedPull_player2 now s :
  (50 <= now)%Z -> player1Pulling s = false -> player2Pulling s = false ->
  Scenario.resolvedPull player2 now s =
    let q := Qmin (Game.centerX + Game.maxDistance) (ropePosition s + Game.pullForce) in
    Game.writeBack q (Game.winCheck q) s.
Proof.
  intros Hn H1 H2.
  unfold Scenario.resolvedPull, Scenario.press, GameScene.handlePull.
  cbn [Scenario.sceneFor GameScene.lastStateUpdateTime GameScene.playerRole
       GameScene.currentPlayer1Pulling GameScene.currentPlayer2Pulling
       GameScene.updateCallback GameScene.isRole Role_eqb].
  rewrite H1, H2. cbn [andb snd].
  destruct (now - 0 <? GameScene.STATE_UPDATE_THROTTLE)%Z eqn:E.
  { apply Z.ltb_lt in E. unfold GameScene.STATE_UPDATE_THROTTLE in E. lia. }
  cbn [snd]. rewrite gameLoopTick_eq. cbv zeta.
  rewrite movement_player2 by reflexivity. cbn [fst snd orb Game.lastUpdateRef].
  destruct (now - (now - 50) <? 50)%Z eqn:E2; [apply Z.ltb_lt in E2; lia|].
  reflexivity.
Qed.

Lemma pull_at_lead r now s d :
  (50 <= now)%Z -> Match.atLead d s -> (Z.abs d < 30)%Z ->
  Match.atLead (d + Match.gain r) (Scenario.resolvedPull r now s).
Proof.
  intros Hn (Hq & H1 & H2 & Hw & Hs & Hd) Habs.
  assert (-29 <= inject_Z d /\ inject_Z d <= 29) as [Hlo Hhi].
  { split.
    - change (-29) with (inject_Z (-29)). rewrite <- Zle_Qle. lia.
    - change 29 with (inject_Z 29). rewrite <- Zle_Qle. lia. }
  assert (Match.verdict d = None) as Hv.
  { unfold Match.verdict.
    destruct (30 <=? d)%Z eqn:E1; [apply Z.leb_le in E1; lia|].
    destruct (d <=? -30)%Z eqn:E2; [apply Z.leb_le in E2; lia|reflexivity]. }
  rewrite Hv in Hw.
  assert ((Z.abs d <? 30)%Z = true) as Hb by (apply Z.ltb_lt; exact Habs).
  rewrite Hb in Hs.
  destruct r; cbn [Match.gain].
  - rewrite resolvedPull_player1 by assumption. cbv zeta.
    set (q := Qmax _ _).
    assert (q == 600 - 10 * inject_Z (d + 1)) as Hq1.
    { subst q. unfold_consts. rewrite inject_Z_plus.
      change (inject_Z 1) with 1.
      destruct (Q.max_spec (600 - 350) (ropePosition s - 10)) as [[? ->]|[? ->]];
        lra. }
    destruct (Z.eq_dec d 29%Z) as [->|Hne].
    + assert (Game.winCheck q = Some player1) as ->.
      { apply winCheck_player1. rewrite Hq1. vm_compute. discriminate. }
      unfold Match.atLead. cbn. repeat split; try lia. exact Hq1.
    + assert (inject_Z d <= 28) as Hhi'.
      { change 28 with (inject_Z 28). rewrite <- Zle_Qle. lia. }
      assert (Game.winCheck q = None) as ->.
      { apply winCheck_none; rewrite Hq1, inject_Z_plus;
          change (inject_Z 1) with 1; lra. }
      unfold Match.atLead. cbn. rewrite Hw, Hs.
      repeat split; try lia; try exact Hq1.
      unfold Match.verdict.
      destruct (30 <=? d + 1)%Z eqn:E1; [apply Z.leb_le in E1; lia|].
      destruct (d + 1 <=? -30)%Z eqn:E2; [apply Z.leb_le in E2; lia|reflexivity].
  - rewrite resolvedPull_player2 by assumption. cbv zeta.
    set (q := Qmin _ _).
    assert (q == 600 - 10 * inject_Z (d + -1)) as Hq1.
    { subst q. unfold_consts. rewrite inject_Z_plus.
      change (inject_Z (-1)) with (-1).
      destruct (Q.min_spec (600 + 350) (ropePosition s + 10)) as [[? ->]|[? ->]];
        lra. }
    destruct (Z.eq_dec d (-29)%Z) as [->|Hne].
    + assert (Game.winCheck q = Some player2) as ->.
      { apply winCheck_player2. rewrite Hq1. vm_compute. discriminate. }
      unfold Match.atLead. cbn. repeat split; try lia. exact Hq1.
    + assert (-28 <= inject_Z d) as Hlo'.
      { change (-28) with (inject_Z (-28)). rewrite <- Zle_Qle. lia. }
      assert (Game.winCheck q = None) as ->.
      { apply winCheck_none; rewrite Hq1, inject_Z_plus;
          change (inject_Z (-1)) with (-1); lra. }
      unfold Match.atLead. cbn. rewrite Hw, Hs.
      repeat split; try lia; try exact Hq1.
      unfold Match.verdict.
      destruct (30 <=? d + -1)%Z eqn:E1; [apply Z.leb_le in E1; lia|].
      destruct (d + -1 <=? -30)%Z eqn:E2; [apply Z.leb_le in E2; lia|reflexivity].
Qed.

Lemma pulls_at_lead rs : forall now s d,
  (50 <= now)%Z -> Match.atLead d s -> Match.undecided d rs = true ->
  Match.atLead (d + Match.lead rs) (Match.pulls rs now s).
Proof.
  induction rs as [|r rs IH]; intros now s d Hn Hat Hu.
  - cbn. now rewrite Z.add_0_r.
  - cbn [Match.undecided] in Hu. apply andb_true_iff in Hu as [Hd Hu].
    apply Z.ltb_lt in Hd.
    cbn [Match.pulls Match.lead]. rewrite Z.add_assoc.
    apply IH; [lia| |exact Hu].
    now apply pull_at_lead.
Qed.

(** X16. The first to lead by thirty pulls wins.  From rope position 600 in a
    running match, after resolved pulls of the two players in any order,
    each made while neither leads by thirty: the rope is at 600 minus ten
    times player1's lead; the match is decided exactly when the lead has
    reached thirty on one side, for that side, and runs on otherwise. *)
Theorem lead_decides rs now s :
  (50 <= now)%Z -> ropePosition s == 600 ->
  player1Pulling s = false -> player2Pulling s = false ->
  winner s = None -> isStarted s = true ->
  Match.undecided 0 rs = true ->
  let s' := Match.pulls rs now s in
  ropePosition s' == 600 - 10 * inject_Z (Match.lead rs)
  /\ winner s' = Match.verdict (Match.lead rs)
  /\ isStarted s' = (Z.abs (Match.lead rs) <? 30)%Z
  /\ Game.loopRuns s' = (Z.abs (Match.lead rs) <? 30)%Z
  /\ (-30 <= Match.lead rs <= 30)%Z.
Proof.
  intros Hn Hq H1 H2 Hw Hs Hu s'.
  assert (Match.atLead 0 s) as Hat.
  { unfold Match.atLead. rewrite Hq, H1, H2, Hw, Hs. repeat split; lia. }
  pose proof (pulls_at_lead rs now s 0%Z Hn Hat Hu) as H.
  rewrite Z.add_0_l in H. fold s' in H.
  destruct H as (Hq' & _ & _ & Hw' & Hs' & Hd).
  repeat split; try assumption; try lia.
  unfold Game.loopRuns. rewrite Hs', Hw'. unfold Match.verdict.
  destruct (Z.abs (Match.lead rs) <? 30)%Z eqn:E; [|reflexivity].
  apply Z.ltb_lt in E.
  destruct (30 <=? Match.lead rs)%Z eqn:E1; [apply Z.leb_le in E1; lia|].
  destruct (Match.lead rs <=? -30)%Z eqn:E2; [apply Z.leb_le in E2; lia|reflexivity].
Qed.

Lemma lead_decides_witness :
  let rs := player2 :: repeat player1 31 in
  Match.undecided 0 rs = true
  /\ winner (Match.pulls rs 1000 Scenario.playing) = Some player1
  /\ ropePosition (Match.pulls rs 1000 Scenario.playing) == 300.
Proof.
  intros rs.
  assert (50 <= 1000)%Z as Hn by lia.
  assert (ropePosition Scenario.playing == 600) as Hq by reflexivity.
  assert (Match.undecided 0 rs = true) as Hu by reflexivity.
  pose proof (lead_decides rs 1000 Scenario.playing Hn Hq
                eq_refl eq_refl eq_refl eq_refl Hu) as H.
  cbv zeta in H. destruct H as (Hp & Hw & _).
  split; [exact Hu|]. split; [exact Hw|]. rewrite Hp. reflexivity.
Defined.

(** *** A second press while a pull is pending *)





End MatchProperties.
(** ** What the settlement call names *)

Section SettlementProperties.

Import BlockchainService.
Local Arguments Js.sameAddress : simpl never.

(** X18. The creator's process settles for the winner's address.  On the
    process of the room's player1, with the settlement client initialised
    and nothing settled or started yet: when a tick writes back a winner
    and the settlement block it starts continues, the process makes one
    contract call, for the room of the shared state and the address that
    holds the winner's role; the latch is then set. *)
Theorem settlement_names_winner now c a1 a2 r1 r2 room me w :
  let s := Game.c_state c in
  players s = [(a1, mkPlayer player1 r1); (a2, mkPlayer player2 r2)] ->
  roomId s = Some room -> room <> "" ->
  Js.truthy (gameFinishedOnBlockchain s) = false ->
  Game.finishGameCalledRef (Game.c_refs c) = false ->
  Game.c_waiting c = [] ->
  isInitialized (Game.c_service c) = true ->
  tugOfWarContract (Game.c_service c) = true ->
  signer (Game.c_service c) = Some me ->
  Js.sameAddress a1 me = true ->
  room ∉ finishedGames (Game.c_service c) ->
  (50 <= now - Game.lastUpdateRef (Game.c_refs c))%Z ->
  Game.winCheck (fst (Game.movement s)) = Some w ->
  let result := Game.run [Game.Tick now (Some s); Game.Resume] c in
  snd result = [mkCall room (match w with player1 => a1 | player2 => a2 end)]
  /\ winner (Game.c_state (fst result)) = Some w
  /\ isStarted (Game.c_state (fst result)) = false
  /\ Game.finishGameCalledRef (Game.c_refs (fst result)) = true
  /\ Game.c_waiting (fst result) = [].
Proof.
  intros s Hp Hroom Hne Hfin Hlatch Hwait Hi Hc Hs Hme Hout Hnow Hwin result.
  subst result. cbn [Game.run Game.step].
  rewrite gameLoopTick_eq. cbv zeta. fold s. rewrite Hwin.
  cbn [isSome]. rewrite orb_true_r.
  destruct (now - Game.lastUpdateRef (Game.c_refs c) <? 50)%Z eqn:E;
    [apply Z.ltb_lt in E; lia|].
  cbn [Game.refs Game.state Game.started].
  unfold Game.finishGuard. rewrite Hroom.
  apply String.eqb_neq in Hne. rewrite Hne, Hfin, Hlatch, Hwait.
  cbn [app Game.c_waiting Game.c_service Game.c_refs Game.c_inflight Game.c_state].
  unfold Game.finishTaskBody, isReady, getCurrentAddress.
  rewrite Hi, Hs. cbn [negb Game.t_players Game.t_winner Game.t_roomId].
  rewrite Hp. unfold Js.findEntry, Game.hasRole.
  cbn [find snd role Role_eqb]. rewrite Hme.
  destruct w; lazy beta iota; unfold finishGame_begin; rewrite Hi, Hc;
    cbn [negb orb]; rewrite bool_decide_eq_false_2 by exact Hout;
    cbn; repeat split.
Qed.

Lemma settlement_names_winner_witness :
  snd (Game.run [Game.Tick 2450 (Some Match.lastPull); Game.Resume] Match.creator)
  = [mkCall Scenario.room Scenario.alice].
Proof.
  assert (Scenario.room <> "") as Hr by discriminate.
  assert (Scenario.room ∉ finishedGames (Game.c_service Match.creator)) as Hout
    by apply not_elem_of_empty.
  assert (50 <= 2450 - Game.lastUpdateRef (Game.c_refs Match.creator))%Z as Hn
    by (cbn; lia).
  exact (proj1 (settlement_names_winner 2450 Match.creator
                  Scenario.alice Scenario.bob true true Scenario.room
                  Scenario.alice player1
                  eq_refl eq_refl Hr eq_refl eq_refl eq_refl eq_refl eq_refl
                  eq_refl eq_refl Hout Hn eq_refl)).
Defined.

End SettlementProperties.

(** ** The game timer while the state changes *)

Section TimerProperties.

Local Open Scope Q_scope.

Lemma timed_step centerX ev i k s :
  SceneTimer.inMatch centerX k s i -> SceneTimer.running ev ->
  (k + SceneTimer.secondsIn [ev] <= 59)%Z ->
  forall i1 u,
    SceneTimer.runTimed centerX [ev] i = (i1, u) ->
    u = []
    /\ SceneTimer.inMatch centerX (k + SceneTimer.secondsIn [ev])
         (SceneTimer.lastShared [ev] s) i1.
Proof.
  intros (Ht & Hr & Hc & Hrope & g & Hg & Hgs) Hev Hk i1 u.
  destruct ev as [|s']; cbn [SceneTimer.runTimed SceneTimer.secondsIn
                              SceneTimer.lastShared] in *.
  - rewrite Ht. unfold GameScene.updateTimer. cbv zeta.
    cbn [GameScene.gameTimeRemaining]. rewrite Hr.
    destruct (60 - k - 1 <=? 0)%Z eqn:E; [apply Z.leb_le in E; lia|].
    intros [= <- <-]. split; [reflexivity|].
    unfold SceneTimer.inMatch. cbn.
    repeat split; try assumption; try lia.
    exists g. now split.
  - destruct Hev as [Hs Hw].
    unfold SceneInput.updateGameState. rewrite Hg, Hgs, Hw. cbn [negb andb].
    intros [= <- <-]. split; [reflexivity|].
    unfold SceneTimer.inMatch. cbn. rewrite Hrope.
    repeat split; try assumption; try (rewrite Hr; lia).
    exists s'. now split.
Qed.

Lemma runTimed_cons centerX ev evs i :
  SceneTimer.runTimed centerX (ev :: evs) i
  = let '(i1, u) := SceneTimer.runTimed centerX [ev] i in
    let '(i2, us) := SceneTimer.runTimed centerX evs i1 in
    (i2, u ++ us).
Proof.
  cbn [SceneTimer.runTimed].
  destruct ev as [|s].
  - destruct (GameScene.timerEvent _).
    + destruct (GameScene.updateTimer _ _) as [sc u].
      destruct (SceneTimer.runTimed centerX evs _) as [i2 us].
      now destruct u.
    + now destruct (SceneTimer.runTimed centerX evs i).
  - destruct (SceneInput.updateGameState _ _ _) as [i1 u].
    destruct (SceneTimer.runTimed centerX evs i1) as [i2 us].
    now destruct u.
Qed.

Lemma timed_quiet centerX evs : forall i k s,
  SceneTimer.inMatch centerX k s i -> Forall SceneTimer.running evs ->
  (0 <= k)%Z -> (k + SceneTimer.secondsIn evs <= 59)%Z ->
  snd (SceneTimer.runTimed centerX evs i) = []
  /\ SceneTimer.inMatch centerX (k + SceneTimer.secondsIn evs)
       (SceneTimer.lastShared evs s) (fst (SceneTimer.runTimed centerX evs i)).
Proof.
  induction evs as [|ev evs IH]; intros i k s Hin Hall Hk0 Hk.
  - cbn. rewrite Z.add_0_r. now split.
  - inversion Hall as [|? ? Hev Hrest]; subst.
    assert (0 <= SceneTimer.secondsIn evs)%Z as Hnn.
    { clear. induction evs as [|[|?] ? IH']; cbn [SceneTimer.secondsIn]; lia. }
    assert (SceneTimer.secondsIn (ev :: evs)
            = SceneTimer.secondsIn [ev] + SceneTimer.secondsIn evs)%Z as Hs
      by (destruct ev; cbn [SceneTimer.secondsIn]; lia).
    assert (SceneTimer.lastShared (ev :: evs) s
            = SceneTimer.lastShared evs (SceneTimer.lastShared [ev] s)) as Hl
      by (destruct ev; reflexivity).
    rewrite runTimed_cons, Hs, Hl.
    destruct (SceneTimer.runTimed centerX [ev] i) as [i1 u] eqn:E1.
    assert (0 <= SceneTimer.secondsIn [ev])%Z as Hnn1
      by (destruct ev; cbn [SceneTimer.secondsIn]; lia).
    destruct (timed_step centerX ev i k s Hin Hev ltac:(lia) i1 u E1) as [-> Hin1].
    destruct (IH i1 _ _ Hin1 Hrest ltac:(lia) ltac:(lia)) as [Hq Hin2].
    destruct (SceneTimer.runTimed centerX evs i1) as [i2 us].
    cbn [fst snd app] in *. rewrite Z.add_assoc. now split.
Qed.

Lemma timeUpWinner_side centerX sc s :
  GameScene.rope sc = Some (GameScene.clampRopePosition centerX (ropePosition s)) ->
  GameScene.timeUpWinner centerX sc = SceneTimer.side centerX s.
Proof.
  intros Hrope. unfold SceneTimer.side.
  destruct (Qle_bool (ropePosition s) centerX) eqn:E.
  - apply timeUpWinner_player1. rewrite Hrope.
    cbn [orElse]. apply clamp_keeps_side. now apply Qle_bool_iff.
  - apply timeUpWinner_player2. rewrite Hrope. cbn [orElse].
    destruct (Qlt_le_dec 0 (GameScene.clampRopePosition centerX (ropePosition s)
                            - centerX)) as [Hlt|Hle]; [exact Hlt|].
    apply (proj1 (clamp_keeps_side _ _)) in Hle.
    apply (proj2 (Qle_bool_iff _ _)) in Hle. rewrite Hle in E. discriminate.
Qed.

(** X19. The timer decides by the rope of the moment.  In a scene whose game
    timer has just started, while shared states of the running match come
    in between the timer's seconds: the scene sends nothing during the
    first 59 seconds, and at the 60th it declares the winner by the side of
    the centre on which the rope of the last shared state lies, player1
    at the centre itself; the match is then over. *)
Theorem timer_decides_by_last_state centerX evs i s0 :
  SceneTimer.inMatch centerX 0 s0 i ->
  Forall SceneTimer.running evs ->
  SceneTimer.secondsIn evs = 59%Z ->
  let s := SceneTimer.lastShared evs s0 in
  snd (SceneTimer.runTimed centerX evs i) = []
  /\ exists u,
       snd (SceneTimer.runTimed centerX (evs ++ [SceneTimer.Second]) i) = [u]
       /\ u_winner u = Some (Some (SceneTimer.side centerX s))
       /\ winner (merge s u) = Some (SceneTimer.side centerX s)
       /\ isStarted (merge s u) = false
       /\ Game.loopRuns (merge s u) = false
       /\ ropePosition (merge s u) = ropePosition s.
Proof.
  intros Hin Hall H59 s.
  destruct (timed_quiet centerX evs i 0%Z s0 Hin Hall ltac:(lia) ltac:(lia))
    as [Hq Hin'].
  split; [exact Hq|].
  fold s in Hin'. rewrite H59 in Hin'.
  destruct Hin' as (Ht & Hr & Hc & Hrope & g & Hg & Hgs).
  assert (forall l i0, SceneTimer.runTimed centerX (l ++ [SceneTimer.Second]) i0
          = let '(i1, us) := SceneTimer.runTimed centerX l i0 in
            let '(i2, u) := SceneTimer.runTimed centerX [SceneTimer.Second] i1 in
            (i2, us ++ u)) as Happ.
  { induction l as [|e l IHl]; intros i0.
    - change (SceneTimer.runTimed centerX [] i0) with (i0, @nil Partial).
      cbn [app]. destruct (SceneTimer.runTimed centerX [SceneTimer.Second] i0).
      reflexivity.
    - change ((e :: l) ++ [SceneTimer.Second])
        with (e :: (l ++ [SceneTimer.Second])).
      rewrite (runTimed_cons centerX e (l ++ _)), (runTimed_cons centerX e l).
      destruct (SceneTimer.runTimed centerX [e] i0) as [j u0].
      rewrite IHl.
      destruct (SceneTimer.runTimed centerX l j) as [j1 us].
      destruct (SceneTimer.runTimed centerX [SceneTimer.Second] j1) as [j2 u1].
      now rewrite app_assoc. }
  rewrite Happ.
  destruct (SceneTimer.runTimed centerX evs i) as [i1 us]. cbn [fst snd] in *.
  subst us.
  cbn [SceneTimer.runTimed]. rewrite Ht.
  unfold GameScene.updateTimer. cbv zeta.
  cbn [GameScene.gameTimeRemaining]. rewrite Hr.
  cbn [Z.leb Z.sub Z.add Z.opp Z.pos_sub Z.compare Pos.compare Z.succ_double
       Z.pred_double Z.double Pos.pred_double].
  change (60 - 59 - 1 <=? 0)%Z with true. cbv iota.
  unfold GameScene.handleTimeUp. cbn [GameScene.updateCallback]. rewrite Hc.
  cbn [snd app].
  eexists. split; [reflexivity|].
  cbn [u_winner merge winner isStarted ropePosition orElse u_isStarted
       u_ropePosition].
  rewrite (timeUpWinner_side centerX _ s) by (cbn [GameScene.rope]; exact Hrope).
  unfold Game.loopRuns. cbn. repeat split.
Qed.

Lemma timer_decides_by_last_state_witness :
  let i := fst (SceneInput.updateGameState 600 Scenario.playing SceneInput.created) in
  SceneTimer.inMatch 600 0 Scenario.playing i
  /\ Forall SceneTimer.running SceneTimer.halfTime
  /\ SceneTimer.secondsIn SceneTimer.halfTime = 59%Z
  /\ exists u,
       snd (SceneTimer.runTimed 600 (SceneTimer.halfTime ++ [SceneTimer.Second]) i)
       = [u]
       /\ u_winner u = Some (Some player1).
Proof.
  intros i.
  assert (SceneTimer.inMatch 600 0 Scenario.playing i) as Hin.
  { unfold SceneTimer.inMatch. repeat split; try reflexivity.
    exists Scenario.playing. split; reflexivity. }
  assert (Forall SceneTimer.running SceneTimer.halfTime) as Hall.
  { unfold SceneTimer.halfTime. cbn [repeat app].
    repeat (constructor; [first [exact I|split; reflexivity]|]). constructor. }
  assert (SceneTimer.secondsIn SceneTimer.halfTime = 59%Z) as H59 by reflexivity.
  split; [exact Hin|]. split; [exact Hall|]. split; [exact H59|].
  destruct (timer_decides_by_last_state 600 SceneTimer.halfTime i
              Scenario.playing Hin Hall H59) as (_ & u & Hu & Hw & _).
  exists u. split; [exact Hu|]. rewrite Hw. reflexivity.
Defined.

End TimerProperties.

(** ** Staking and the duplicate guard *)

Section StakeProperties.

Import BlockchainService.

(** X20. A stake reopens the settlement of its room.  On an initialised
    service, a [stake] that gets past the already-staked check takes the
    room out of [finishedGames] before the transaction is sent, so also
    when the transaction then fails: the next [finishGame] for the room
    calls the contract, even if an earlier one was confirmed.  A [stake]
    that is refused changes nothing, and no [stake] touches the entry of
    another room. *)
Theorem stake_reopens_settlement svc room winnerAddress :
  BlockchainService.Reachable svc -> isInitialized svc = true ->
  (forall o,
     (room ∉ finishedGames (fst (stake svc room false o)))
     /\ forall o', snd (finishGame (fst (stake svc room false o))
                          room winnerAddress o')
                   = [mkCall room winnerAddress])
  /\ (forall o, stake svc room true o = (svc, Rejected AlreadyStaked))
  /\ (forall room' hasStaked o,
        room' <> room ->
        (room' ∈ finishedGames (fst (stake svc room hasStaked o))
         <-> room' ∈ finishedGames svc))
  /\ (forall hasStaked o,
        snd (stake svc room hasStaked o) = Resolved tt
        <-> hasStaked = false /\ o = Confirmed).
Proof.
  intros Hr Hi. destruct (service_invariant svc Hr) as [Hc _].
  specialize (Hc Hi).
  assert (negb (isInitialized svc) || negb (tugOfWarContract svc) = false)
    as Hready by (now rewrite Hi, Hc).
  set (svc' := {| isInitialized := isInitialized svc;
                  signer := signer svc;
                  tugOfWarContract := tugOfWarContract svc;
                  finishedGames := finishedGames svc ∖ {[ room ]} |}).
  assert (forall o, fst (stake svc room false o) = svc') as Hfst.
  { intros o. unfold stake. rewrite Hready. now destruct o. }
  repeat apply conj.
  - intros o. rewrite Hfst.
    assert (room ∉ finishedGames svc') as Hout.
    { cbn. apply not_elem_of_difference. right. now apply elem_of_singleton. }
    split; [exact Hout|].
    intros o'. unfold finishGame.
    rewrite finishGame_begin_open by (assumption || exact Hout).
    now destruct (finishGame_settle svc' room o').
  - intros o. unfold stake. now rewrite Hready.
  - intros room' hs o Hne.
    destruct hs; [unfold stake; rewrite Hready; cbn; tauto|].
    rewrite Hfst. cbn. rewrite elem_of_difference, elem_of_singleton. tauto.
  - intros hs o. unfold stake. rewrite Hready.
    destruct hs; cbn.
    + split; [discriminate|]. intros [H _]. discriminate.
    + destruct o; cbn.
      * split; [discriminate|]. intros [_ H]. discriminate.
      * split; [discriminate|]. intros [_ H]. discriminate.
      * split; [intros _; split; reflexivity|reflexivity].
Qed.

Lemma stake_reopens_settlement_witness :
  let svc := addFinished (initialize fresh Scenario.alice) Scenario.room in
  snd (finishGame svc Scenario.room Scenario.bob Confirmed) = []
  /\ snd (finishGame (fst (stake svc Scenario.room false Reverted))
            Scenario.room Scenario.bob Confirmed)
     = [mkCall Scenario.room Scenario.bob].
Proof.
  intros svc.
  assert (BlockchainService.Reachable svc) as Hr.
  { change svc with (fst (fst (finishGame (initialize fresh Scenario.alice)
                                  Scenario.room Scenario.bob Confirmed))).
    repeat constructor. }
  split; [reflexivity|].
  exact (proj2 (proj1 (stake_reopens_settlement svc Scenario.room Scenario.bob
                         Hr eq_refl) Reverted) Confirmed).
Defined.

End StakeProperties.
